(** * Airflow simulation: panel solver, barrier rasterizer and lattice engine

    A shallow embedding of the numerical core of the wind-tunnel application
    ([services/physics.ts] and [components/WindTunnel.tsx]).

    JavaScript numbers are IEEE 754 binary64 values and are modelled by the
    primitive floats of the kernel; [Float32Array] stores round to binary32;
    exceptions are modelled by a completion monad; the typed arrays owned by
    the wind tunnel are threaded through explicitly. *)

From Stdlib Require Import ZArith Lia Bool List Floats.
From Stdlib Require Import Sorted Permutation.
From Stdlib Require Uint63.
From stdpp Require Import base list.

Set Warnings "-inexact-float".

(* ===================================================================== *)
(** * The JavaScript runtime                                              *)
(* ===================================================================== *)

Module JS.

Abbreviation number := float (only parsing).

(** ** Completions: a statement either returns or throws *)

Inductive exn := RangeError | TypeError.

Inductive completion (A : Type) : Type :=
| Normal (a : A)
| Throw (e : exn).
Arguments Normal {A} a.
Arguments Throw {A} e.

Definition bind {A B} (c : completion A) (k : A -> completion B) : completion B :=
  match c with
  | Normal a => k a
  | Throw e => Throw e
  end.

Fixpoint mapM {A B} (f : A -> completion B) (l : list A) : completion (list B) :=
  match l with
  | [] => Normal []
  | a :: l' =>
      bind (f a) (fun b => bind (mapM f l') (fun bs => Normal (b :: bs)))
  end.

Fixpoint foldM {A S} (f : S -> A -> completion S) (s : S) (l : list A) : completion S :=
  match l with
  | [] => Normal s
  | a :: l' => bind (f s a) (fun s' => foldM f s' l')
  end.

(** ** Numbers *)

(** [ToBoolean] on a number: [NaN], [+0] and [-0] are falsy. *)
Definition truthy (v : number) : bool :=
  negb (is_nan v || (v =? 0)%float).

(** [a || b] on numbers. *)
Definition logical_or (a b : number) : number := if truthy a then a else b.

(** An integer of small magnitude as a number (exact below 2^53). *)
Definition of_int (z : Z) : number :=
  match z with
  | Z0 => 0%float
  | Zpos _ => of_uint63 (Uint63.of_Z z)
  | Zneg p => (- of_uint63 (Uint63.of_Z (Zpos p)))%float
  end.

(** A number that is an integer, as that integer; [None] for fractions,
    infinities and [NaN].  This is the test a typed array applies to a
    numeric property key. *)
Definition to_int (v : number) : option Z :=
  match Prim2SF v with
  | S754_zero _ => Some 0%Z
  | S754_finite s m e =>
      let a :=
        if (0 <=? e)%Z then Some (Z.shiftl (Zpos m) e)
        else
          let q := Z.shiftr (Zpos m) (- e) in
          if (Z.shiftl q (- e) =? Zpos m)%Z then Some q else None in
      option_map (fun q => if s then (- q)%Z else q) a
  | _ => None
  end.

(** ** Arrays *)

(** Reading a number out of an array: a missing element is [undefined],
    which every arithmetic operator turns into [NaN]. *)
Definition get_num (a : list number) (i : nat) : number :=
  default nan (a !! i).

(** Reading an object out of an array and then one of its properties: a
    missing element is [undefined] and the property read throws. *)
Definition get_obj {A} (a : list A) (i : nat) : completion A :=
  match a !! i with
  | Some v => Normal v
  | None => Throw TypeError
  end.

(** Writing into an ordinary array: past the end the array grows, and the
    elements skipped over read as [undefined]. *)
Definition set_num (a : list number) (i : nat) (v : number) : list number :=
  if (i <? length a)%nat then <[i := v]> a
  else a ++ replicate (i - length a) nan ++ [v].

(** ** The [Math] object *)

Definition Math_PI : number := 0x1.921fb54442d18p+1%float.

Definition Math_abs (v : number) : number := abs v.

Definition Math_sqrt (v : number) : number := sqrt v.

Definition Math_max (a b : number) : number :=
  if is_nan a || is_nan b then nan
  else if (a <? b)%float then b
  else if (b <? a)%float then a
  else if get_sign a then b else a.

Definition Math_min (a b : number) : number :=
  if is_nan a || is_nan b then nan
  else if (a <? b)%float then a
  else if (b <? a)%float then b
  else if get_sign a then a else b.

Definition Math_floor (v : number) : number :=
  match Prim2SF v with
  | S754_finite s m e =>
      if (0 <=? e)%Z then v
      else
        let q := Z.shiftr (Zpos m) (- e) in
        if (Z.shiftl q (- e) =? Zpos m)%Z then v
        else if s then (- of_int (q + 1))%float else of_int q
  | _ => v
  end.

Definition Math_ceil (v : number) : number :=
  match Prim2SF v with
  | S754_finite s m e =>
      if (0 <=? e)%Z then v
      else
        let q := Z.shiftr (Zpos m) (- e) in
        if (Z.shiftl q (- e) =? Zpos m)%Z then v
        else if s then (- of_int q)%float else of_int (q + 1)
  | _ => v
  end.

(** The functions whose results the language leaves to the implementation
    ("implementation-approximated"); [**] is [pow]. *)
Record MathLib := {
  Math_cos : number -> number;
  Math_sin : number -> number;
  Math_atan2 : number -> number -> number;
  Math_hypot : number -> number -> number;
  Math_pow : number -> number -> number;
}.

(** ** Typed arrays *)

(** The binary32 value nearest to a number (ties to even), as
    [Float32Array] stores it. *)
Definition fround (v : number) : number :=
  match Prim2SF v with
  | S754_finite s m e => SF2Prim (binary_round 24 128 s m e)
  | _ => v
  end.

(** Reading a typed array at an integer: outside the array the result is
    [undefined]. *)
Definition ta_get (a : list number) (k : Z) : number :=
  if (k <? 0)%Z then nan else default nan (a !! Z.to_nat k).

(** Writing a [Float32Array] at an integer: outside the array nothing
    happens. *)
Definition f32_set (a : list number) (k : Z) (v : number) : list number :=
  if (k <? 0)%Z then a else <[Z.to_nat k := fround v]> a.

(** A [Uint8Array] holds integers; reading and writing at an integer. *)
Definition u8_get (a : list Z) (k : Z) : Z :=
  if (k <? 0)%Z then 0%Z else default 0%Z (a !! Z.to_nat k).

Definition u8_set (a : list Z) (k : Z) (v : Z) : list Z :=
  if (k <? 0)%Z then a else <[Z.to_nat k := (v mod 256)%Z]> a.

End JS.

Notation "'let!' x ':=' c 'in' k" := (JS.bind c (fun x => k))
  (at level 10, x pattern, c at level 200, k at level 200).

(* ===================================================================== *)
(** * A reference [Math] library                                          *)
(* ===================================================================== *)

(** The language fixes the results of [cos], [sin], [atan2], [hypot] and
    [pow] only at special arguments and leaves the rest to the engine.
    The general theorems below hold for every [MathLib]; the concrete runs
    use this one, built from power series in binary64 arithmetic. *)

Module RefMath.
Import JS.

Local Open Scope float_scope.

Definition TWO_PI : number := 2 * Math_PI.
Definition HALF_PI : number := Math_PI / 2.
Definition LN2 : number := 0x1.62e42fefa39efp-1.

(** [acc + t1 + t2 + ...] where [t(j+1) = tj * q / ((k+2j+1) * (k+2j+2))]. *)
Fixpoint factorialSeries (fuel : nat) (k term acc q : number) : number :=
  match fuel with
  | O => acc
  | S fuel' =>
      let term' := term * q / ((k + 1) * (k + 2)) in
      factorialSeries fuel' (k + 2) term' (acc + term') q
  end.

(** [acc + p/k + p*q/(k+2) + p*q^2/(k+4) + ...] *)
Fixpoint oddSeries (fuel : nat) (k p acc q : number) : number :=
  match fuel with
  | O => acc
  | S fuel' => oddSeries fuel' (k + 2) (p * q) (acc + p / k) q
  end.

Definition reduceAngle (v : number) : number :=
  v - TWO_PI * Math_floor (v / TWO_PI + 0.5).

Definition sin (v : number) : number :=
  if is_nan v || is_infinity v then nan
  else if is_zero v then v
  else let r := reduceAngle v in factorialSeries 24 1 r r (- (r * r)).

Definition cos (v : number) : number :=
  if is_nan v || is_infinity v then nan
  else let r := reduceAngle v in factorialSeries 24 0 1 1 (- (r * r)).

Definition halveTangent (z : number) : number := z / (1 + sqrt (1 + z * z)).

Definition atanSmall (z : number) : number :=
  let t := halveTangent (halveTangent z) in
  4 * oddSeries 24 1 t 0 (- (t * t)).

Definition atan (z : number) : number :=
  if is_nan z then nan
  else if is_zero z then z
  else if 1 <? z then HALF_PI - atanSmall (1 / z)
  else if z <? -1 then - HALF_PI - atanSmall (1 / z)
  else atanSmall z.

Definition atan2 (b a : number) : number :=
  if is_nan a || is_nan b then nan
  else if is_infinity a && is_infinity b then
    let q := if get_sign a then 3 * (Math_PI / 4) else Math_PI / 4 in
    if get_sign b then - q else q
  else if is_zero a then
    if is_zero b then
      (if get_sign a then (if get_sign b then - Math_PI else Math_PI) else b)
    else if get_sign b then - HALF_PI else HALF_PI
  else if get_sign a then
    (if get_sign b then atan (b / a) - Math_PI else atan (b / a) + Math_PI)
  else atan (b / a).

Definition hypot (a b : number) : number :=
  if is_infinity a || is_infinity b then infinity
  else sqrt (a * a + b * b).

(** Natural logarithm of a positive finite number. *)
Definition ln (v : number) : number :=
  let (m, e) := Z.frexp v in
  let (m, e) := if m <? 0x1.6a09e667f3bcdp-1 then (2 * m, (e - 1)%Z) else (m, e) in
  let s := (m - 1) / (m + 1) in
  of_int e * LN2 + 2 * oddSeries 24 1 s 0 (s * s).

Definition exp (t : number) : number :=
  if is_nan t then nan
  else if 710 <? t then infinity
  else if t <? -746 then 0
  else
    let k := Math_floor (t / LN2 + 0.5) in
    let r := t - k * LN2 in
    let cosh := factorialSeries 24 0 1 1 (r * r) in
    let sinh := factorialSeries 24 1 r r (r * r) in
    Z.ldexp (cosh + sinh) (default 0%Z (to_int k)).

Definition mulPow (b : number) (n : nat) : number :=
  Nat.iter n (fun acc => acc * b) 1.

(** [|b| ^ e] for a finite non-zero [b] and a finite non-zero [e]. *)
Definition powAbs (b e : number) : number := exp (e * ln (Math_abs b)).

Definition pow (b e : number) : number :=
  if is_nan e then nan
  else if is_zero e then 1
  else if is_nan b then nan
  else if is_infinity e then
    if Math_abs b =? 1 then nan
    else if 1 <? Math_abs b then (if get_sign e then 0 else infinity)
    else (if get_sign e then infinity else 0)
  else
    match to_int (Math_abs e) with
    | Some n =>
        if (n <=? 1024)%Z then
          if get_sign e then 1 / mulPow b (Z.to_nat n) else mulPow b (Z.to_nat n)
        else if is_zero b || is_infinity b then
          (if xorb (get_sign e) (is_zero b) then 0 else infinity) *
          (if get_sign b && Z.odd n then -1 else 1)
        else if get_sign b && Z.odd n then - powAbs b e else powAbs b e
    | None =>
        if is_zero b then (if get_sign e then infinity else 0)
        else if is_infinity b then (if get_sign e then 0 else infinity)
        else if get_sign b then nan
        else powAbs b e
    end.

Definition lib : MathLib :=
  {| Math_cos := cos; Math_sin := sin; Math_atan2 := atan2;
     Math_hypot := hypot; Math_pow := pow |}.

End RefMath.

(* ===================================================================== *)
(** * services/physics.ts                                                 *)
(* ===================================================================== *)

Module Types.

Record Point := { x : float; y : float }.

Module CpPoint.
Record t := { x : float; cp : float }.
End CpPoint.

Record PhysicsResult := {
  liftCoefficient : float;
  dragCoefficient : float;
  momentCoefficient : float;
  reynoldsNumber : float;
  cpDistribution : list CpPoint.t;
  centerOfPressure : float;
}.

End Types.

Module Physics.
Import JS Types.

Local Open Scope float_scope.

Definition KINEMATIC_VISCOSITY : number := 1.460e-5.
Definition AIR_DENSITY : number := 1.225.

(** ** solveLinearSystem

    Arithmetic on numbers never throws: a division by a zero pivot gives an
    infinity or NaN.  The one thing in the solver that could throw is
    the read [M[k][i]] when the row [M[k]] is missing, and that is how the
    model can end in [Throw]. *)

(** The pivot search of column [i]: the first row, from [i] on, whose entry
    in that column has the largest absolute value. *)
Definition pivotRow (M : list (list number)) (n i : nat) : completion nat :=
  foldM (fun maxRow k =>
           let! rk := get_obj M k in
           let! rm := get_obj M maxRow in
           Normal (if Math_abs (get_num rm i) <? Math_abs (get_num rk i)
                   then k else maxRow))
        i (seq (i + 1) (n - (i + 1))).

(** [[M[i], M[maxRow]] = [M[maxRow], M[i]]] *)
Definition swapRows (M : list (list number)) (i maxRow : nat)
  : completion (list (list number)) :=
  let! rm := get_obj M maxRow in
  let! ri := get_obj M i in
  Normal (<[maxRow := ri]> (<[i := rm]> M)).

(** [for (let j = i; j <= n; j++) M[i][j] /= pivot] *)
Definition normalizeRow (M : list (list number)) (n i : nat)
  : completion (list (list number)) :=
  let! r0 := get_obj M i in
  let pivot := get_num r0 i in
  foldM (fun M j =>
           let! r := get_obj M i in
           Normal (<[i := set_num r j (get_num r j / pivot)]> M))
        M (seq i (n + 1 - i)).

(** [for (let j = i; j <= n; j++) M[k][j] -= factor * M[i][j]] *)
Definition eliminateRow (M : list (list number)) (n i k : nat)
  : completion (list (list number)) :=
  let! rk0 := get_obj M k in
  let factor := get_num rk0 i in
  foldM (fun M j =>
           let! rk := get_obj M k in
           let! ri := get_obj M i in
           Normal (<[k := set_num rk j (get_num rk j - factor * get_num ri j)]> M))
        M (seq i (n + 1 - i)).

Definition eliminateStep (M : list (list number)) (n i : nat)
  : completion (list (list number)) :=
  let! maxRow := pivotRow M n i in
  let! M := swapRows M i maxRow in
  let! M := normalizeRow M n i in
  foldM (fun M k => if (k =? i)%nat then Normal M else eliminateRow M n i k)
        M (seq 0 n).

Definition solveLinearSystem (A : list (list number)) (b : list number)
  : completion (list number) :=
  let n := length A in
  let M := imap (fun i row => row ++ [get_num b i]) A in
  let! M := foldM (fun M i => eliminateStep M n i) M (seq 0 n) in
  Normal (map (fun row => get_num row n) M).

(** ** calculatePhysics *)

(** [cpDist.sort((a, b) => a.x - b.x)]: the sort is stable, so for a
    comparator that orders its arguments consistently the result is the
    one of a stable insertion sort. *)
Fixpoint insertByX (a : CpPoint.t) (l : list CpPoint.t) : list CpPoint.t :=
  match l with
  | [] => [a]
  | b :: l' =>
      if 0 <? CpPoint.x a - CpPoint.x b then b :: insertByX a l' else a :: l
  end.

Definition sortByX (l : list CpPoint.t) : list CpPoint.t :=
  fold_right insertByX [] l.

Section WithMath.

Variable Math : MathLib.

Local Notation "a ** b" := (Math_pow Math a b) (at level 30, right associativity).

Definition panelsOf (shape : list Point) (nPanels : Z)
  : completion (list (Point * Point)) :=
  mapM (fun i =>
          let! p1 := get_obj shape i in
          let! p2 := get_obj shape (i + 1) in
          Normal (p1, p2))
       (seq 0 (Z.to_nat nPanels)).

Definition panelLength (p : Point * Point) : number :=
  let dx := x (snd p) - x (fst p) in
  let dy := y (snd p) - y (fst p) in
  Math_hypot Math dx dy.

Definition panelAngle (p : Point * Point) : number :=
  let dx := x (snd p) - x (fst p) in
  let dy := y (snd p) - y (fst p) in
  Math_atan2 Math dy dx.

Definition controlPoint (p : Point * Point) : Point :=
  {| x := (x (fst p) + x (snd p)) / 2;
     y := (y (fst p) + y (snd p)) / 2 |}.

(** Entry [(i, j)] of the influence matrix. *)
Definition influence (controlPoints : list Point) (panelLengths theta : list number)
    (i j : nat) : completion number :=
  let nx := - Math_sin Math (get_num theta i) in
  let ny := Math_cos Math (get_num theta i) in
  if (i =? j)%nat then Normal 0.5
  else
    let! ci := get_obj controlPoints i in
    let! cj := get_obj controlPoints j in
    let dx := x ci - x cj in
    let dy := y ci - y cj in
    let r2 := dx * dx + dy * dy in
    let r := Math_sqrt r2 in
    let cross := dx * ny - dy * nx in
    Normal ((1 / (2 * Math_PI)) * (cross / r2) * get_num panelLengths j).

Definition rhsEntry (theta : list number) (V_inf alpha : number) (i : nat) : number :=
  let nx := - Math_sin Math (get_num theta i) in
  let ny := Math_cos Math (get_num theta i) in
  - V_inf * (Math_cos Math alpha * nx + Math_sin Math alpha * ny).

(** The vortex strengths: the solution of the system, or zeros when the
    solver throws. *)
Definition solveGamma (A : list (list number)) (RHS : list number) (nPanels : nat)
  : list number :=
  match solveLinearSystem A RHS with
  | Normal gamma => gamma
  | Throw _ => replicate nPanels 0
  end.

Definition stallAngle : number := 15 * (Math_PI / 180).

Definition stalled (alpha : number) : bool := stallAngle <? Math_abs alpha.

(** The lift coefficient before the final guard: the Kutta-Joukowski value,
    with the stall factor beyond the stall angle. *)
Definition liftOf (Circulation V_inf alpha : number) : number :=
  let pixelChord := 200 in
  let Cl := (2 * Circulation) / (V_inf * pixelChord) in
  if stalled alpha then
    let factor := Math_cos Math alpha * 0.8 in
    Cl * factor
  else Cl.

Definition dragOf (Re Cl alpha : number) : number :=
  let Cf := 0.074 / Math_pow Math Re 0.2 in
  let tc := 0.12 in
  let formFactor := 1 + 2 * tc + 60 * (tc ** 4) in
  let Cd := 2 * Cf * formFactor in
  if stalled alpha then Cd + 1.8 * (Math_sin Math alpha ** 2)
  else Cd + (Cl * Cl) / (Math_PI * 50).

(** The values [calculatePhysics] holds when it reaches its [return]
    statement. *)
Record Forces := {
  gamma : list number;
  Circulation : number;
  Re : number;
  Cl : number;
  Cd : number;
  cpDist : list CpPoint.t;
}.

(** The body of [calculatePhysics] up to its [return] statement. *)
Definition forces (shape : list Point) (speed alphaDeg : number)
    (chordLength : option number) : completion Forces :=
  let chordLength := default 1 chordLength in
  let alpha := alphaDeg * (Math_PI / 180) in
  let V_inf := speed in
  let nPanels := (Z.of_nat (length shape) - 1)%Z in
  let! panels := panelsOf shape nPanels in
  let panelLengths := map panelLength panels in
  let theta := map panelAngle panels in
  let controlPoints := map controlPoint panels in
  if (nPanels <? 0)%Z then Throw RangeError
  else
    let n := Z.to_nat nPanels in
    let! A := mapM (fun i => mapM (influence controlPoints panelLengths theta i)
                                  (seq 0 n)) (seq 0 n) in
    let RHS := map (rhsEntry theta V_inf alpha) (seq 0 n) in
    let gamma := solveGamma A RHS n in
    let Circulation :=
      fold_left (fun c i => c + get_num gamma i * get_num panelLengths i)
                (seq 0 n) 0 in
    let! cpDist :=
      mapM (fun i =>
              let localV := V_inf + get_num gamma i in
              let cp := 1 - (localV / V_inf) ** 2 in
              let! c := get_obj controlPoints i in
              Normal {| CpPoint.x := x c; CpPoint.cp := cp |})
           (seq 0 n) in
    let REAL_CHORD := 0.2 in
    let Re := (V_inf * REAL_CHORD) / KINEMATIC_VISCOSITY in
    let Cl := liftOf Circulation V_inf alpha in
    let Cd := dragOf Re Cl alpha in
    Normal {| gamma := gamma; Circulation := Circulation; Re := Re;
              Cl := Cl; Cd := Cd; cpDist := sortByX cpDist |}.

Definition calculatePhysics (shape : list Point) (speed alphaDeg : number)
    (chordLength : option number) : completion PhysicsResult :=
  let! f := forces shape speed alphaDeg chordLength in
  Normal {| liftCoefficient := logical_or (Cl f) 0;
            dragCoefficient := logical_or (Cd f) 0.01;
            momentCoefficient := -0.25 * Cl f;
            reynoldsNumber := Re f;
            cpDistribution := cpDist f;
            centerOfPressure := 0.25 |}.

End WithMath.

End Physics.

(* ===================================================================== *)
(** * components/WindTunnel.tsx                                           *)
(* ===================================================================== *)

Module WindTunnel.
Import JS Types.

Local Open Scope float_scope.

(** ** Lattice constants (D2Q9) *)

Definition Q : Z := 9.
Definition ROWS : Z := 100.
Definition COLS : Z := 200.
Definition SCALE : number := 4.

Definition ex : list Z := [0; 1; 0; -1; 0; 1; -1; -1; 1]%Z.
Definition ey : list Z := [0; 0; 1; 0; -1; 1; 1; -1; -1]%Z.
Definition w : list number :=
  [4 / 9; 1 / 9; 1 / 9; 1 / 9; 1 / 9; 1 / 36; 1 / 36; 1 / 36; 1 / 36].
Definition opp : list Z := [0; 3; 4; 1; 2; 7; 8; 5; 6]%Z.

Definition ex_at (i : Z) : Z := nth (Z.to_nat i) ex 0%Z.
Definition ey_at (i : Z) : Z := nth (Z.to_nat i) ey 0%Z.
Definition w_at (i : Z) : number := nth (Z.to_nat i) w nan.
Definition opp_at (i : Z) : Z := nth (Z.to_nat i) opp 0%Z.

(** ** The state kept across renders *)

Record Tunnel := {
  n0 : list number;       (* Float32Array, current distribution *)
  n1 : list number;       (* Float32Array, next distribution *)
  density : list number;  (* Float32Array *)
  ux : list number;       (* Float32Array *)
  uy : list number;       (* Float32Array *)
  barrier : list Z;       (* Uint8Array, 1 = solid, 0 = fluid *)
}.

(** [0, 1, ..., n - 1], the values of a counting loop. *)
Definition range (n : Z) : list Z := map Z.of_nat (seq 0 (Z.to_nat n)).
Arguments range : simpl never.

(** [for (y = 0; y < ROWS; y++) for (x = 0; x < COLS; x++) body] *)
Definition forCells_def {S} (body : S -> Z -> Z -> S) (s : S) : S :=
  fold_left (fun s y => fold_left (fun s x => body s x y) (range COLS) s)
            (range ROWS) s.

(** The loop is sealed: it is [forCells_def], but unfolds only through
    [forCells_unseal], so that no conversion runs its 20000 iterations. *)
Definition forCells_aux : seal (@forCells_def).
Proof. by eexists. Qed.

Definition forCells {S} : (S -> Z -> Z -> S) -> S -> S :=
  unseal forCells_aux S.

Definition forCells_unseal : @forCells = @forCells_def :=
  seal_eq forCells_aux.

Definition newTunnel : Tunnel :=
  {| n0 := replicate (Z.to_nat (ROWS * COLS * Q)) 0;
     n1 := replicate (Z.to_nat (ROWS * COLS * Q)) 0;
     density := replicate (Z.to_nat (ROWS * COLS)) 0;
     ux := replicate (Z.to_nat (ROWS * COLS)) 0;
     uy := replicate (Z.to_nat (ROWS * COLS)) 0;
     barrier := replicate (Z.to_nat (ROWS * COLS)) 0%Z |}.

(** ** initFluid *)

Definition initFluid (st : Tunnel) : Tunnel :=
  let size := (ROWS * COLS * Q)%Z in
  let fill := fun a =>
    fold_left (fun a i => f32_set a i (w_at (Z.rem i Q))) (range size) a in
  {| n0 := fill (n0 st); n1 := fill (n1 st);
     density := density st; ux := ux st; uy := uy st;
     barrier := replicate (length (barrier st)) 0%Z |}.

(** ** rasterizePolygon *)

(** Writing a [Uint8Array] at a number: keys that are not integers inside
    the array are ignored. *)
Definition barrier_set (b : list Z) (key : number) (v : Z) : list Z :=
  match to_int key with
  | Some k => u8_set b k v
  | None => b
  end.

Definition bounds (gridPoly : list Point) (gridWidth gridHeight : number)
  : number * number * number * number :=
  fold_left (fun '(minX, maxX, minY, maxY) p =>
               (if x p <? minX then x p else minX,
                if maxX <? x p then x p else maxX,
                if y p <? minY then y p else minY,
                if maxY <? y p then y p else maxY))
            gridPoly (gridWidth, 0, gridHeight, 0).

(** The even-odd crossing test of the point [(px, py)]; edge [i] runs from
    vertex [j = i - 1] (the last vertex for [i = 0]) to vertex [i]. *)
Definition inside (gridPoly : list Point) (px py : number) : bool :=
  let vertex := fun i => default {| x := nan; y := nan |} (gridPoly !! i) in
  fst (fold_left
         (fun '(inside, j) i =>
            let xi := x (vertex i) in let yi := y (vertex i) in
            let xj := x (vertex j) in let yj := y (vertex j) in
            let intersect :=
              negb (Bool.eqb (py <? yi) (py <? yj)) &&
              (px <? (xj - xi) * (py - yi) / (yj - yi) + xi) in
            (if intersect then negb inside else inside, i))
         (seq 0 (length gridPoly)) (false, (length gridPoly - 1)%nat)).

(** [for (let x = minX; x <= maxX; x++)]: the counter is a number, so the
    loop is run on fuel; [None] when the fuel does not suffice. *)
Fixpoint rasterRow (fuel : nat) (gridPoly : list Point) (py : number)
    (px maxX : number) (b : list Z) : option (list Z) :=
  match fuel with
  | O => None
  | S fuel' =>
      if px <=? maxX then
        let b' :=
          if inside gridPoly px py
          then barrier_set b (py * of_int COLS + px) 1%Z else b in
        rasterRow fuel' gridPoly py (px + 1) maxX b'
      else Some b
  end.

Fixpoint rasterRows (fuel : nat) (gridPoly : list Point)
    (py maxY minX maxX : number) (b : list Z) : option (list Z) :=
  match fuel with
  | O => None
  | S fuel' =>
      if py <=? maxY then
        match rasterRow fuel gridPoly py minX maxX b with
        | Some b' => rasterRows fuel' gridPoly (py + 1) maxY minX maxX b'
        | None => None
        end
      else Some b
  end.

(** [barrier.current.fill(0)] *)
Definition clearBarrier (st : Tunnel) : Tunnel :=
  {| n0 := n0 st; n1 := n1 st; density := density st;
     ux := ux st; uy := uy st;
     barrier := replicate (length (barrier st)) 0%Z |}.

Definition withBarrier (st : Tunnel) (b : list Z) : Tunnel :=
  {| n0 := n0 st; n1 := n1 st; density := density st;
     ux := ux st; uy := uy st; barrier := b |}.

(** [polygon.map(p => ({ x: p.x / SCALE, y: p.y / SCALE }))] *)
Definition toGrid (polygon : list Point) : list Point :=
  map (fun p => {| x := x p / SCALE; y := y p / SCALE |}) polygon.

Definition rasterizePolygon (fuel : nat) (polygon : list Point)
    (gridWidth gridHeight : number) (st : Tunnel) : option Tunnel :=
  let st := clearBarrier st in
  if (length polygon <? 3)%nat then Some st
  else
    let gridPoly := toGrid polygon in
    let '(minX, maxX, minY, maxY) := bounds gridPoly gridWidth gridHeight in
    let minX := Math_max 0 (Math_floor minX) in
    let maxX := Math_min (gridWidth - 1) (Math_ceil maxX) in
    let minY := Math_max 0 (Math_floor minY) in
    let maxY := Math_min (gridHeight - 1) (Math_ceil maxY) in
    option_map (withBarrier st)
      (rasterRows fuel gridPoly minY maxY minX maxX (barrier st)).

(** ** simulate *)

Definition visc : number := 0.02.
Definition omega : number := 1 / (3 * visc + 0.5).
Definition inflowSpeed (windSpeed : number) : number :=
  Math_min 0.12 (windSpeed * 0.002).

(** Density and momentum of the cell at [idx]. *)
Definition moments (n0 : list number) (idx : Z) : number * number * number :=
  fold_left (fun '(d, u_x, u_y) i =>
               let f := ta_get n0 (idx * Q + i) in
               (d + f, u_x + f * of_int (ex_at i), u_y + f * of_int (ey_at i)))
            (range Q) (0, 0, 0).

(** The equilibrium population of direction [i] at density [d] and velocity
    [(u_x, u_y)]. *)
Definition equilibrium (i : Z) (d u_x u_y : number) : number :=
  let u2 := u_x * u_x + u_y * u_y in
  let eu := of_int (ex_at i) * u_x + of_int (ey_at i) * u_y in
  w_at i * d * (1 + 3 * eu + 4.5 * eu * eu - 1.5 * u2).

(** The velocity clamp. *)
Definition clamp (u : number) : number :=
  let maxU := 0.35 in
  let u := if maxU <? u then maxU else u in
  if u <? - maxU then - maxU else u.

(** The inlet imposes its equilibrium on the cell. *)
Definition imposeInlet (n0 : list number) (idx : Z) (d u_x u_y : number)
  : list number :=
  fold_left (fun n i => f32_set n (idx * Q + i) (equilibrium i d u_x u_y))
            (range Q) n0.

(** BGK collision of the cell. *)
Definition relax (n0 : list number) (idx : Z) (d u_x u_y : number)
  : list number :=
  fold_left (fun n i =>
               let f := ta_get n (idx * Q + i) in
               f32_set n (idx * Q + i) (f + omega * (equilibrium i d u_x u_y - f)))
            (range Q) n0.

(** The body of the first loop (collision) for the cell [(x, y)]. *)
Definition collideCell (u0 : number) (st : Tunnel) (x y : Z) : Tunnel :=
  let idx := (y * COLS + x)%Z in
  if (u8_get (barrier st) idx =? 0)%Z then
    let '(d, u_x, u_y) := moments (n0 st) idx in
    let d := if d <? 0.01 then 0.01 else d in
    let '(d, u_x, u_y, n0') :=
      if (x =? 0)%Z then
        (1, u0, 0, imposeInlet (n0 st) idx 1 u0 0)
      else
        (d, clamp (u_x / d), clamp (u_y / d), n0 st) in
    {| n0 := relax n0' idx d u_x u_y;
       n1 := n1 st;
       density := f32_set (density st) idx d;
       ux := f32_set (ux st) idx u_x;
       uy := f32_set (uy st) idx u_y;
       barrier := barrier st |}
  else st.

(** What streaming does with direction [i] of the cell [(x, y)]. *)
Definition streamDir (n0 : list number) (barrier : list Z) (x y : Z)
    (n1 : list number) (i : Z) : list number :=
  let idx := (y * COLS + x)%Z in
  let srcX := (x - ex_at i)%Z in
  let srcY := (y - ey_at i)%Z in
  if ((0 <=? srcX) && (srcX <? COLS) && (0 <=? srcY) && (srcY <? ROWS))%Z then
    let srcIdx := (srcY * COLS + srcX)%Z in
    if (u8_get barrier srcIdx =? 0)%Z
    then f32_set n1 (idx * Q + i) (ta_get n0 (srcIdx * Q + i))
    else f32_set n1 (idx * Q + i) (ta_get n0 (idx * Q + opp_at i))
  else if ((srcY <? 0) || (ROWS <=? srcY))%Z then
    let wrapY := Z.rem (srcY + ROWS) ROWS in
    let srcIdx := (wrapY * COLS + srcX)%Z in
    if ((0 <=? srcX) && (srcX <? COLS))%Z
    then f32_set n1 (idx * Q + i) (ta_get n0 (srcIdx * Q + i))
    else n1
  else if (srcX <? 0)%Z then f32_set n1 (idx * Q + i) (w_at i)
  else n1.

(** The body of the second loop (streaming) for the cell [(x, y)]. *)
Definition streamCell (n0 : list number) (barrier : list Z)
    (n1 : list number) (x y : Z) : list number :=
  if (u8_get barrier (y * COLS + x) =? 0)%Z
  then fold_left (streamDir n0 barrier x y) (range Q) n1
  else n1.

(** The body of the third loop: solid cells are reset to the weights. *)
Definition resetSolid (barrier : list Z) (n1 : list number) (x y : Z)
  : list number :=
  if (u8_get barrier (y * COLS + x) =? 0)%Z then n1
  else
    let idx := (y * COLS + x)%Z in
    fold_left (fun n i => f32_set n (idx * Q + i) (w_at i)) (range Q) n1.

(** The first loop. *)
Definition collide (u0 : number) (st : Tunnel) : Tunnel :=
  forCells (collideCell u0) st.

Definition simulate (windSpeed : number) (st : Tunnel) : Tunnel :=
  let u0 := inflowSpeed windSpeed in
  let st := collide u0 st in
  let next := forCells (streamCell (n0 st) (barrier st)) (n1 st) in
  let next := forCells (resetSolid (barrier st)) next in
  {| n0 := next; n1 := n0 st;
     density := density st; ux := ux st; uy := uy st;
     barrier := barrier st |}.

(** The arrays have the sizes they are allocated with. *)
Definition allocated (st : Tunnel) : Prop :=
  Z.of_nat (length (n0 st)) = (ROWS * COLS * Q)%Z /\
  Z.of_nat (length (n1 st)) = (ROWS * COLS * Q)%Z /\
  Z.of_nat (length (density st)) = (ROWS * COLS)%Z /\
  Z.of_nat (length (ux st)) = (ROWS * COLS)%Z /\
  Z.of_nat (length (uy st)) = (ROWS * COLS)%Z /\
  Z.of_nat (length (barrier st)) = (ROWS * COLS)%Z.

End WindTunnel.

(* ===================================================================== *)
(** * Sample inputs and constants of the proofs                           *)
(* ===================================================================== *)

Module Samples.
Import JS Types WindTunnel.

Local Open Scope float_scope.

(** The flat plate the wind tunnel draws on its 800 by 400 canvas. *)
Definition plate : list Point :=
  [ {| x := 395; y := 120 |}; {| x := 405; y := 120 |};
    {| x := 405; y := 280 |}; {| x := 395; y := 280 |} ].

(** A free-hand stroke of three points that goes one pixel to the right and
    comes back: its two panels share their midpoint. *)
Definition doubledBack : list Point :=
  [ {| x := 10; y := 10 |}; {| x := 11; y := 10 |}; {| x := 10; y := 10 |} ].



(** The fluid at rest: every cell carries the lattice weights, as a
    [Float32Array] holds them, and no cell is solid. *)
Definition rest : Tunnel :=
  {| n0 := concat (replicate (Z.to_nat (ROWS * COLS)) (map fround w));
     n1 := concat (replicate (Z.to_nat (ROWS * COLS)) (map fround w));
     density := replicate (Z.to_nat (ROWS * COLS)) 0;
     ux := replicate (Z.to_nat (ROWS * COLS)) 0;
     uy := replicate (Z.to_nat (ROWS * COLS)) 0;
     barrier := replicate (Z.to_nat (ROWS * COLS)) 0%Z |}.

(** A solid cell in the bottom row, at [(5, ROWS - 1)], and in the top row
    the fluid cell [(5, 0)] with the population 0.5 in direction 4, which
    points up, across the periodic edge, at the solid cell. *)
Definition seam : Tunnel :=
  {| n0 := <[Z.to_nat ((0 * COLS + 5) * Q + 4) := 0.5]> (n0 rest);
     n1 := n1 rest;
     density := density rest; ux := ux rest; uy := uy rest;
     barrier := <[Z.to_nat ((ROWS - 1) * COLS + 5) := 1%Z]> (barrier rest) |}.

(** A state in which one population of the fluid cell [(5, 0)] is not a
    number any more. *)
Definition diverged : Tunnel :=
  {| n0 := <[Z.to_nat ((0 * COLS + 5) * Q + 0) := nan]> (n0 rest);
     n1 := n1 rest;
     density := density rest; ux := ux rest; uy := uy rest;
     barrier := barrier rest |}.

End Samples.

(* ===================================================================== *)
(** * What the loops see of a state                                       *)
(* ===================================================================== *)

Module Views.
Import JS Types WindTunnel.

(** What one population of the next buffer looks like to the loops: the
    size of the buffer and the value at index [k]. *)
Definition at_index (k : Z) (n : list number) : nat * number := (length n, ta_get n k).

(** What the collision loop reads and writes for the cell at [idx]. *)
Record CellView := {
  view_barrier : list Z;
  view_next : list number;
  view_cell : list (nat * number);
  view_density : nat * number;
  view_ux : nat * number;
  view_uy : nat * number;
}.

Definition cell_view (idx : Z) (st : Tunnel) : CellView :=
  {| view_barrier := barrier st;
     view_next := n1 st;
     view_cell := map (fun i => at_index (idx * Q + i) (n0 st)) (range Q);
     view_density := at_index idx (density st);
     view_ux := at_index idx (ux st);
     view_uy := at_index idx (uy st) |}.

(** Every cell of the mask is fluid, or it is solid and is the cell of a
    grid point that passes the crossing test of the polygon. *)
Definition only_marked (gridPoly : list Point) (b : list Z) : Prop :=
  forall k,
    u8_get b k = 0%Z \/
    (u8_get b k = 1%Z /\
     exists px py, to_int (py * of_int COLS + px)%float = Some k /\
                   inside gridPoly px py = true).

(** The place of a number in the order of the numbers: sign class first,
    then exponent, then mantissa. *)
Definition order_key (f : spec_float) : Z * Z * Z :=
  match f with
  | S754_infinity true => (-2, 0, 0)
  | S754_finite true m e => (-1, - e, - Zpos m)
  | S754_zero _ => (0, 0, 0)
  | S754_finite false m e => (1, e, Zpos m)
  | S754_infinity false => (2, 0, 0)
  | S754_nan => (3, 0, 0)
  end%Z.

Definition key_lt (a b : Z * Z * Z) : Prop :=
  let '(a1, a2, a3) := a in
  let '(b1, b2, b3) := b in
  (a1 < b1 \/ (a1 = b1 /\ (a2 < b2 \/ (a2 = b2 /\ a3 < b3))))%Z.

Definition is_number (f : spec_float) : Prop :=
  match f with S754_nan => False | _ => True end.

(** A loop counter that starts at [s] steps through integers up to the
    limit [L], or is beyond the limit from the start. *)
Definition counts_to (L : Z) (s : number) : Prop :=
  (exists k, (0 <= k <= L)%Z /\ s = of_int k) \/
  is_nan s = true \/ (of_int L <? s)%float = true.

End Views.

(* ===================================================================== *)
(** * The rest of the components                                          *)
(* ===================================================================== *)

(** ** Reading the pressure distribution *)

Module Reading.
Import JS Types Physics.
Local Open Scope float_scope.

(** The point of the pressure distribution that [calculatePhysics] pushes
    for panel [i], whose control point is [c]. *)
Definition pressurePoint (Math : MathLib) (V_inf : number) (gamma : list number)
    (i : nat) (c : Point) : CpPoint.t :=
  let localV := V_inf + get_num gamma i in
  {| CpPoint.x := x c; CpPoint.cp := 1 - Math_pow Math (localV / V_inf) 2 |}.

(** [q] is not left of [p]: the comparator [a.x - b.x] is not positive on
    them. *)
Definition not_left_of (p q : CpPoint.t) : Prop :=
  (CpPoint.x q <? CpPoint.x p) = false.

Definition x_le (p q : CpPoint.t) : Prop :=
  (CpPoint.x p <=? CpPoint.x q) = true.

End Reading.

(** ** The render loop of the wind tunnel *)

Module Render.
Import JS Types WindTunnel.
Local Open Scope float_scope.

(** The switches of the component that the render loop reads and sets. *)
Record Controls := {
  isPlaying : bool;
  isDrawing : bool;
  isUnstable : bool;
}.

(** [COLS * (ROWS/2) + 20]: the cell whose velocity the render loop probes
    ([ROWS] is even, the division is exact). *)
Definition testIdx : Z := (COLS * (ROWS / 2) + 20)%Z.

(** The physics of one frame of the render loop: four steps when the
    simulation runs, then the stability check at the probed cell. *)
Definition stepFrame (windSpeed : number) (c : Controls) (st : Tunnel)
  : Controls * Tunnel :=
  if isPlaying c && negb (isDrawing c) && negb (isUnstable c) then
    let st := Nat.iter 4 (simulate windSpeed) st in
    let v := ta_get (ux st) testIdx in
    if is_nan v || negb (is_finite v)
    then ({| isPlaying := false; isDrawing := isDrawing c; isUnstable := true |}, st)
    else (c, st)
  else (c, st).

End Render.

(** ** The colour map of the render loop *)

Module Paint.
Import JS Types WindTunnel.
Local Open Scope float_scope.

(** The integer of 32 bits that is congruent to [z]. *)
Definition wrap32 (z : Z) : Z := ((z + 2 ^ 31) mod 2 ^ 32 - 2 ^ 31)%Z.

(** [ToInt32] on a number, the conversion that [| 0], [<<] and [|] apply to
    their operands: the fraction is dropped, the integer wraps around;
    [NaN], the infinities and the zeros give 0. *)
Definition ToInt32 (v : number) : Z :=
  match Prim2SF v with
  | S754_finite s m e =>
      let q := if (0 <=? e)%Z then Z.shiftl (Zpos m) e
               else Z.shiftr (Zpos m) (- e) in
      wrap32 (if s then - q else q)
  | _ => 0%Z
  end.

(** [a << k] and [a | b] on integers of 32 bits, for [0 <= k < 32]. *)
Definition shl32 (a k : Z) : Z := wrap32 (a * 2 ^ k).
Definition or32 (a b : Z) : Z := Z.lor a b.

(** What a [Uint32Array] stores of an integer. *)
Definition ToUint32 (z : Z) : Z := (z mod 2 ^ 32)%Z.

(** The colour of a cell, as the loop over the pixels of the render loop
    computes it: [0xAABBGGRR]. *)
Definition pixelColour (solid : bool) (vx vy : number) : Z :=
  if solid then 0xFF141414%Z
  else
    let v2 := vx * vx + vy * vy in
    let speed := Math_sqrt v2 * 15 in
    let speed := if 1.2 <? speed then 1.2 else speed in
    let '(r, g, b) :=
      if speed <? 0.25 then
        (0%Z, ToInt32 (speed * 4 * 150), 255%Z)
      else if speed <? 0.5 then
        (0%Z, ToInt32 (150 + (speed - 0.25) * 4 * 105),
         ToInt32 (255 * (1 - (speed - 0.25) * 4)))
      else if speed <? 0.75 then
        (ToInt32 ((speed - 0.5) * 4 * 255), 255%Z, 0%Z)
      else
        (255%Z, ToInt32 (255 * (1 - (speed - 0.75) * 4)), 0%Z) in
    ToUint32 (or32 (or32 (or32 (shl32 255 24) (shl32 b 16)) (shl32 g 8)) r).

(** The pixel that the render loop writes for the cell [i]. *)
Definition pixelAt (st : Tunnel) (i : Z) : Z :=
  pixelColour (negb (u8_get (barrier st) i =? 0)%Z)
              (ta_get (ux st) i) (ta_get (uy st) i).

(** The bytes of a pixel in the order of the image data: red, green, blue,
    alpha. *)
Definition rgba (p : Z) : Z * Z * Z * Z :=
  ((p mod 256)%Z, (p / 2 ^ 8 mod 256)%Z, (p / 2 ^ 16 mod 256)%Z,
   (p / 2 ^ 24 mod 256)%Z).

(** A test of the colour of the inflow at a whole-number wind speed [k]:
    the blue byte is 255 from 34 on and 0 below, and from 40 on the colour
    is (255, 53, 255). *)
Definition inflowColourTest (k : Z) : bool :=
  let '(r, g, b, a) :=
    rgba (pixelColour false (fround (inflowSpeed (of_int k))) 0) in
  (b =? (if 34 <=? k then 255 else 0))%Z
  && (if (40 <=? k)%Z then (r =? 255)%Z && (g =? 53)%Z && (a =? 255)%Z else true).

End Paint.

(** ** The scan of the rasterizer *)

Module Scan.
Import JS Types WindTunnel.
Local Open Scope float_scope.

(** The window of cells that [rasterizePolygon] scans: the bounding box of
    the polygon, rounded outwards and clipped to the grid. *)
Definition scanWindow (gridPoly : list Point) (gridWidth gridHeight : number)
  : number * number * number * number :=
  let '(minX, maxX, minY, maxY) := bounds gridPoly gridWidth gridHeight in
  (Math_max 0 (Math_floor minX), Math_min (gridWidth - 1) (Math_ceil maxX),
   Math_max 0 (Math_floor minY), Math_min (gridHeight - 1) (Math_ceil maxY)).

(** The cell [(cx, cy)] lies in the window and passes the crossing test. *)
Definition marked (gridPoly : list Point)
    (window : number * number * number * number) (cx cy : Z) : bool :=
  let '(minX, maxX, minY, maxY) := window in
  (minY <=? of_int cy) && (of_int cy <=? maxY) &&
  ((minX <=? of_int cx) && (of_int cx <=? maxX)) &&
  inside gridPoly (of_int cx) (of_int cy).

End Scan.

(** ** The bodies of the wind tunnel and the analysis button *)

Module Shapes.
Import JS Types Physics WindTunnel.
Local Open Scope float_scope.

(** The enumeration of body types, with the six members that
    [getShapePoints], the interaction effect and the buttons of [App]
    name; the declaration in [types.ts] among the sources is of an earlier
    version and lacks [PARAGLIDER] and [POD]. *)
Inductive ShapeType := AIRFOIL | PARAGLIDER | POD | CYLINDER | PLATE | CUSTOM.

Section WithMath.

Variable Math : MathLib.
(** [Math.atan], implementation-approximated like the functions of
    [MathLib]. *)
Variable Math_atan : number -> number.

Local Notation "a ** b" := (Math_pow Math a b) (at level 30, right associativity).

(** [for (let i = 0; i <= n; i++)] and [for (let i = n; i >= 0; i--)] *)
Definition upTo (n : Z) : list Z := range (n + 1).
Definition downFrom (n : Z) : list Z := rev (range (n + 1)).
(** [for (let i = 0; i < 360; i += step)] *)
Definition degrees (step : Z) : list Z :=
  map (fun j => (j * step)%Z) (range ((360 + step - 1) / step)).

(** One point of the cambered airfoil (NACA 2412); [upper] tells the
    surface. *)
Definition airfoilPoint (cx cy chord : number) (upper : bool) (i : Z) : Point :=
  let beta := (of_int i / 40) * Math_PI in
  let x := (0.5 * (1 - Math_cos Math beta)) * chord in
  let xc := x / chord in
  let yt := 5 * 0.12 * (0.2969 * Math_sqrt xc - 0.1260 * xc - 0.3516 * xc ** 2
                        + 0.2843 * xc ** 3 - 0.1015 * xc ** 4) in
  let m := 0.02 in
  let p := 0.4 in
  let '(yc, dyc_dx) :=
    if xc <? p then
      ((m / (p * p)) * (2 * p * xc - xc * xc),
       (2 * m / (p * p)) * (p - xc))
    else
      ((m / ((1 - p) * (1 - p))) * ((1 - 2 * p) + 2 * p * xc - xc * xc),
       (2 * m / ((1 - p) * (1 - p))) * (p - xc)) in
  let theta := Math_atan dyc_dx in
  if upper then
    {| x := cx - chord / 2 + x - yt * Math_sin Math theta;
       y := cy - (yc + yt * Math_cos Math theta) * chord |}
  else
    {| x := cx - chord / 2 + x + yt * Math_sin Math theta;
       y := cy - (yc - yt * Math_cos Math theta) * chord |}.

Definition paragliderPoint (cx cy span : number) (upper : bool) (i : Z) : Point :=
  let thickness := 14 in
  let arch := 50 in
  let t := of_int i / 50 in
  let x := cx - span / 2 + t * span in
  let yBase := cy + Math_sin Math (t * Math_PI) * - arch in
  if upper then {| x := x; y := yBase - thickness / 2 |}
  else {| x := x; y := yBase + thickness / 2 |}.

Definition podPoint (cx cy len h : number) (i : Z) : Point :=
  let rad := of_int i * Math_PI / 180 in
  let xVal := Math_cos Math rad in
  let yVal := Math_sin Math rad * Math_pow Math (Math_sin Math (rad / 2)) 0.5 in
  {| x := cx + xVal * (len / 2); y := cy + yVal * h |}.

Definition cylinderPoint (cx cy r : number) (i : Z) : Point :=
  let rad := (of_int i * Math_PI) / 180 in
  {| x := cx + r * Math_cos Math rad; y := cy + r * Math_sin Math rad |}.

Definition getShapePoints (type : ShapeType) (width height : number) : list Point :=
  let cx := width / 2 in
  let cy := height / 2 in
  match type with
  | AIRFOIL =>
      let chord := width * 0.4 in
      map (airfoilPoint cx cy chord true) (upTo 40)
      ++ map (airfoilPoint cx cy chord false) (downFrom 40)
  | PARAGLIDER =>
      let span := width * 0.5 in
      map (paragliderPoint cx cy span true) (upTo 50)
      ++ map (paragliderPoint cx cy span false) (downFrom 50)
  | POD =>
      let len := width * 0.45 in
      let h := len * 0.35 in
      map (podPoint cx cy len h) (degrees 10)
  | CYLINDER =>
      let r := width * 0.08 in
      map (cylinderPoint cx cy r) (degrees 15)
  | PLATE =>
      let h := height * 0.4 in
      let w := 10 in
      [ {| x := cx - w / 2; y := cy - h / 2 |};
        {| x := cx + w / 2; y := cy - h / 2 |};
        {| x := cx + w / 2; y := cy + h / 2 |};
        {| x := cx - w / 2; y := cy + h / 2 |} ]
  | CUSTOM => []
  end.

(** The rotation of the interaction effect, about the centre of the
    canvas. *)
Definition rotate (cx cy rad : number) (p : Point) : Point :=
  let dx := x p - cx in
  let dy := y p - cy in
  {| x := cx + dx * Math_cos Math rad - dy * Math_sin Math rad;
     y := cy + dx * Math_sin Math rad + dy * Math_cos Math rad |}.

(** The polygon the interaction effect makes of the props of the
    component. *)
Definition activePolygon (shapeType : ShapeType) (angleOfAttack : number)
    (customPoints : list Point) : list Point :=
  let w := of_int COLS * SCALE in
  let h := of_int ROWS * SCALE in
  match shapeType with
  | CUSTOM => customPoints
  | _ =>
      let rawPoints := getShapePoints shapeType w h in
      let cx := w / 2 in
      let cy := h / 2 in
      let rad := (angleOfAttack * Math_PI) / 180 in
      map (rotate cx cy rad) rawPoints
  end.

(** The interaction effect: the new state of the tunnel, and the polygon
    handed to [onShapeData] when it is called. *)
Definition shapeEffect (fuel : nat) (shapeType : ShapeType)
    (angleOfAttack : number) (customPoints : list Point) (isDrawing : bool)
    (st : Tunnel) : option (Tunnel * option (list Point)) :=
  let polygon := activePolygon shapeType angleOfAttack customPoints in
  match rasterizePolygon fuel polygon (of_int COLS) (of_int ROWS) st with
  | Some st' =>
      Some (st', if negb isDrawing && (2 <? length polygon)%nat
                 then Some polygon else None)
  | None => None
  end.

(** [handleAnalyze] up to the call of the explanation service: nothing
    for a polygon of fewer than three points, else the completion of
    [calculatePhysics] (called without [chordLength]). *)
Definition handleAnalyze (currentShapePoints : list Point)
    (windSpeed angleOfAttack : number) : option (completion PhysicsResult) :=
  if (length currentShapePoints <? 3)%nat then None
  else Some (calculatePhysics Math currentShapePoints windSpeed angleOfAttack None).

End WithMath.

(** The number of vertices of each body. *)
Definition vertexCount (type : ShapeType) : nat :=
  match type with
  | AIRFOIL => 82 | PARAGLIDER => 102 | POD => 36 | CYLINDER => 24
  | PLATE => 4 | CUSTOM => 0
  end.

End Shapes.

(** The mantissa of 0.35 as a binary64 number: 0.35 = [m035 * 2^-54]. *)
Definition m035 : positive := 6305039478318694.

(* ===================================================================== *)
(** * Facts about binary64 numbers                                        *)
(* ===================================================================== *)

Section FloatFacts.

Local Open Scope float_scope.

Lemma is_infinity_not_nan (v : float) : is_infinity v = true -> is_nan v = false.
Proof.
  unfold is_infinity, is_nan. rewrite !FloatAxioms.eqb_spec, abs_spec.
  destruct (Prim2SF v) as [[]|[]| |s m e]; try (cbn; intros; congruence).
Qed.

Lemma is_infinity_not_zero (v : float) : is_infinity v = true -> (v =? 0) = false.
Proof.
  unfold is_infinity. rewrite !FloatAxioms.eqb_spec, abs_spec.
  destruct (Prim2SF v) as [[]|[]| |s m e]; try (cbn; intros; congruence).
Qed.

(** NaN is absorbing. *)

Lemma mul_nan_l (v : float) : nan * v = nan.
Proof. apply Prim2SF_inj. rewrite mul_spec. reflexivity. Qed.

Lemma mul_nan_r (v : float) : v * nan = nan.
Proof.
  apply Prim2SF_inj. rewrite mul_spec.
  change (Prim2SF nan) with S754_nan. now destruct (Prim2SF v).
Qed.

Lemma add_nan_r (v : float) : v + nan = nan.
Proof.
  apply Prim2SF_inj. rewrite add_spec.
  change (Prim2SF nan) with S754_nan. now destruct (Prim2SF v).
Qed.

Lemma sub_nan_r (v : float) : v - nan = nan.
Proof.
  apply Prim2SF_inj. rewrite sub_spec.
  change (Prim2SF nan) with S754_nan. now destruct (Prim2SF v).
Qed.

Lemma div_nan_l (v : float) : nan / v = nan.
Proof. apply Prim2SF_inj. rewrite div_spec. reflexivity. Qed.

Lemma div_nan_r (v : float) : v / nan = nan.
Proof.
  apply Prim2SF_inj. rewrite div_spec.
  change (Prim2SF nan) with S754_nan. now destruct (Prim2SF v).
Qed.

(** Zero times anything, minus zero times anything, is a zero or NaN;
    divided by zero it is NaN. *)
Lemma zero_cross_over_zero (a b : float) : (0 * a - 0 * b) / 0 = nan.
Proof.
  apply Prim2SF_inj. rewrite div_spec, sub_spec, !mul_spec.
  change (Prim2SF 0) with (S754_zero false).
  change (Prim2SF nan) with S754_nan.
  destruct (Prim2SF a) as [[]|[]| |[] ? ?], (Prim2SF b) as [[]|[]| |[] ? ?];
    reflexivity.
Qed.

End FloatFacts.

(* ===================================================================== *)
(** * Properties of the panel solver                                      *)
(* ===================================================================== *)

Section CompletionFacts.
Import JS.

Lemma mapM_Normal {A B} (f : A -> completion B) (l : list A) :
  (forall a, a ∈ l -> exists b, f a = Normal b) ->
  exists bs, mapM f l = Normal bs /\ length bs = length l.
Proof.
  induction l as [|a l IH]; intros Hf; simpl.
  - exists []. split; reflexivity.
  - destruct (Hf a) as [b Hb]; [left|].
    destruct IH as [bs [Hbs Hlen]].
    { intros a' Ha'. apply Hf. now right. }
    rewrite Hb, Hbs. simpl. exists (b :: bs). split; [reflexivity|].
    simpl. now rewrite Hlen.
Qed.

Lemma get_obj_Normal {A} (a : list A) (i : nat) :
  (i < length a)%nat -> exists v, get_obj a i = Normal v.
Proof.
  intros Hi. unfold get_obj.
  destruct (lookup_lt_is_Some_2 a i Hi) as [v Hv].
  rewrite Hv. now exists v.
Qed.

Lemma foldM_invariant {A S} (P : S -> Prop) (f : S -> A -> completion S)
    (l : list A) (s : S) :
  P s ->
  (forall s a, P s -> a ∈ l -> exists s', f s a = Normal s' /\ P s') ->
  exists s', foldM f s l = Normal s' /\ P s'.
Proof.
  revert s. induction l as [|a l IH]; intros s Hs Hf; simpl.
  - now exists s.
  - destruct (Hf s a Hs) as [s1 [H1 HP1]]; [left|].
    rewrite H1. simpl. apply IH; [assumption|].
    intros s2 a2 HP2 Ha2. apply Hf; [assumption|now right].
Qed.

End CompletionFacts.

Section SolverFacts.
Import JS Physics.

(** The solver reads a row only at an index below [n], and every step keeps
    the number of rows: it has no statement that can throw. *)

Lemma pivotRow_returns (M : list (list number)) (n i : nat) :
  length M = n -> (i < n)%nat ->
  exists r, pivotRow M n i = Normal r /\ (r < n)%nat.
Proof.
  intros Hlen Hi. unfold pivotRow.
  apply (foldM_invariant (fun r => (r < n)%nat)); [assumption|].
  intros r k Hr Hk. apply elem_of_seq in Hk.
  destruct (get_obj_Normal M k) as [rk Hrk]; [lia|].
  destruct (get_obj_Normal M r) as [rm Hrm]; [lia|].
  rewrite Hrk, Hrm. simpl.
  eexists; split; [reflexivity|].
  destruct (_ <? _)%float; lia.
Qed.

Lemma swapRows_returns (M : list (list number)) (n i r : nat) :
  length M = n -> (i < n)%nat -> (r < n)%nat ->
  exists M', swapRows M i r = Normal M' /\ length M' = n.
Proof.
  intros Hlen Hi Hr. unfold swapRows.
  destruct (get_obj_Normal M r) as [rm Hrm]; [lia|].
  destruct (get_obj_Normal M i) as [ri Hri]; [lia|].
  rewrite Hrm, Hri. simpl. eexists; split; [reflexivity|].
  now rewrite !length_insert.
Qed.

Lemma normalizeRow_returns (M : list (list number)) (n i : nat) :
  length M = n -> (i < n)%nat ->
  exists M', normalizeRow M n i = Normal M' /\ length M' = n.
Proof.
  intros Hlen Hi. unfold normalizeRow.
  destruct (get_obj_Normal M i) as [r0 Hr0]; [lia|].
  rewrite Hr0. simpl.
  apply (foldM_invariant (fun M => length M = n)); [assumption|].
  intros M1 j HM1 _.
  destruct (get_obj_Normal M1 i) as [r Hr]; [lia|].
  rewrite Hr. simpl. eexists; split; [reflexivity|].
  now rewrite length_insert.
Qed.

Lemma eliminateRow_returns (M : list (list number)) (n i k : nat) :
  length M = n -> (i < n)%nat -> (k < n)%nat ->
  exists M', eliminateRow M n i k = Normal M' /\ length M' = n.
Proof.
  intros Hlen Hi Hk. unfold eliminateRow.
  destruct (get_obj_Normal M k) as [rk0 Hrk0]; [lia|].
  rewrite Hrk0. simpl.
  apply (foldM_invariant (fun M => length M = n)); [assumption|].
  intros M1 j HM1 _.
  destruct (get_obj_Normal M1 k) as [rk Hrk]; [lia|].
  destruct (get_obj_Normal M1 i) as [ri Hri]; [lia|].
  rewrite Hrk, Hri. simpl. eexists; split; [reflexivity|].
  now rewrite length_insert.
Qed.

Lemma eliminateStep_returns (M : list (list number)) (n i : nat) :
  length M = n -> (i < n)%nat ->
  exists M', eliminateStep M n i = Normal M' /\ length M' = n.
Proof.
  intros Hlen Hi. unfold eliminateStep.
  destruct (pivotRow_returns M n i Hlen Hi) as [r [Hr Hrn]].
  rewrite Hr. simpl.
  destruct (swapRows_returns M n i r Hlen Hi Hrn) as [M1 [H1 Hl1]].
  rewrite H1. simpl.
  destruct (normalizeRow_returns M1 n i Hl1 Hi) as [M2 [H2 Hl2]].
  rewrite H2. simpl.
  apply (foldM_invariant (fun M => length M = n)); [assumption|].
  intros M3 k HM3 Hk. apply elem_of_seq in Hk.
  destruct (k =? i)%nat.
  - now exists M3.
  - apply eliminateRow_returns; [assumption|assumption|lia].
Qed.

(** Whatever the matrix and the right-hand side, singular or not, the
    solver returns. *)
Lemma solveLinearSystem_returns (A : list (list number)) (b : list number) :
  exists sol, solveLinearSystem A b = Normal sol /\ length sol = length A.
Proof.
  unfold solveLinearSystem.
  destruct (foldM_invariant (fun M => length M = length A)
              (fun M i => eliminateStep M (length A) i)
              (seq 0 (length A))
              (imap (fun i row => row ++ [get_num b i]) A))
    as [M [HM Hlen]].
  - now rewrite length_imap.
  - intros M i HM Hi. apply elem_of_seq in Hi.
    apply eliminateStep_returns; [assumption|lia].
  - rewrite HM. simpl. eexists; split; [reflexivity|].
    now rewrite length_map.
Qed.

(** Hence the vortex strengths are always the solver's output: the
    all-zero fallback of [calculatePhysics] is never taken. *)
Lemma solveGamma_is_solution (A : list (list number)) (b : list number) (n : nat) :
  solveLinearSystem A b = Normal (solveGamma A b n).
Proof.
  unfold solveGamma.
  destruct (solveLinearSystem_returns A b) as [sol [Hsol _]].
  now rewrite Hsol.
Qed.

End SolverFacts.

Section PanelFacts.
Import JS Types Physics.

Variable Math : MathLib.

Lemma panelsOf_returns (shape : list Point) :
  (1 <= length shape)%nat ->
  exists panels,
    panelsOf shape (Z.of_nat (length shape) - 1) = Normal panels /\
    length panels = (length shape - 1)%nat.
Proof.
  intros Hlen. unfold panelsOf.
  destruct (mapM_Normal
              (fun i => let! p1 := get_obj shape i in
                        let! p2 := get_obj shape (i + 1) in Normal (p1, p2))
              (seq 0 (Z.to_nat (Z.of_nat (length shape) - 1))))
    as [panels [Hp Hl]].
  - intros i Hi. apply elem_of_seq in Hi.
    destruct (get_obj_Normal shape i) as [p1 H1]; [lia|].
    destruct (get_obj_Normal shape (i + 1)) as [p2 H2]; [lia|].
    rewrite H1, H2. simpl. now eexists.
  - exists panels. split; [assumption|].
    rewrite Hl, length_seq. lia.
Qed.

Lemma influence_returns (cps : list Point) (lens theta : list number) (i j : nat) :
  (i < length cps)%nat -> (j < length cps)%nat ->
  exists a, influence Math cps lens theta i j = Normal a.
Proof.
  intros Hi Hj. unfold influence.
  destruct (i =? j)%nat; [now eexists|].
  destruct (get_obj_Normal cps i Hi) as [ci Hci].
  destruct (get_obj_Normal cps j Hj) as [cj Hcj].
  rewrite Hci, Hcj. simpl. now eexists.
Qed.

(** For a polygon with at least one vertex no statement of
    [calculatePhysics] throws: the body reaches the [return]. *)
Lemma forces_returns (shape : list Point) (speed alphaDeg : number)
    (chordLength : option number) :
  (1 <= length shape)%nat ->
  exists f, forces Math shape speed alphaDeg chordLength = Normal f /\
    Re f = ((speed * 0.2) / KINEMATIC_VISCOSITY)%float /\
    Cl f = liftOf Math (Circulation f) speed (alphaDeg * (Math_PI / 180))%float /\
    Cd f = dragOf Math (Re f) (Cl f) (alphaDeg * (Math_PI / 180))%float.
Proof.
  intros Hlen. unfold forces.
  destruct (panelsOf_returns shape Hlen) as [panels [Hp Hpl]].
  rewrite Hp. cbn [bind].
  destruct (Z.ltb_spec (Z.of_nat (length shape) - 1) 0) as [Hneg|_]; [lia|].
  set (n := Z.to_nat (Z.of_nat (length shape) - 1)).
  assert (Hn : n = length (map controlPoint panels)).
  { rewrite length_map, Hpl. subst n. lia. }
  destruct (mapM_Normal
              (fun i => mapM (influence Math (map controlPoint panels)
                                (map (panelLength Math) panels)
                                (map (panelAngle Math) panels) i) (seq 0 n))
              (seq 0 n)) as [A [HA _]].
  { intros i Hi. apply elem_of_seq in Hi.
    destruct (mapM_Normal
                (influence Math (map controlPoint panels)
                   (map (panelLength Math) panels)
                   (map (panelAngle Math) panels) i) (seq 0 n)) as [row [Hrow _]].
    - intros j Hj. apply elem_of_seq in Hj.
      apply influence_returns; lia.
    - now exists row. }
  rewrite HA. cbn [bind].
  match goal with
  | |- context [mapM ?g (seq 0 n)] =>
      destruct (mapM_Normal g (seq 0 n)) as [cps [Hcps _]]
  end.
  { intros i Hi. apply elem_of_seq in Hi.
    destruct (get_obj_Normal (map controlPoint panels) i) as [c Hc]; [lia|].
    rewrite Hc. simpl. now eexists. }
  rewrite Hcps. cbn [bind].
  eexists. split; [reflexivity|]. cbn [Re Cl Cd Circulation]. auto.
Qed.

Lemma calculatePhysics_returns (shape : list Point) (speed alphaDeg : number)
    (chordLength : option number) :
  (1 <= length shape)%nat ->
  exists f r,
    forces Math shape speed alphaDeg chordLength = Normal f /\
    calculatePhysics Math shape speed alphaDeg chordLength = Normal r /\
    liftCoefficient r = logical_or (Cl f) 0 /\
    dragCoefficient r = logical_or (Cd f) 0.01 /\
    momentCoefficient r = (-0.25 * Cl f)%float /\
    reynoldsNumber r = Re f /\
    cpDistribution r = cpDist f /\
    centerOfPressure r = 0.25%float.
Proof.
  intros Hlen.
  destruct (forces_returns shape speed alphaDeg chordLength Hlen) as [f [Hf _]].
  exists f. unfold calculatePhysics. rewrite Hf. cbn [bind].
  eexists. split; [reflexivity|]. split; [reflexivity|].
  cbn. repeat split; reflexivity.
Qed.

End PanelFacts.

Section PanelClaims.
Import JS Types Physics.

Local Open Scope float_scope.

(** A singular system, solved: the pivot of the second column is zero, the
    divisions by it give infinities, and the solver returns them. *)
Example solveLinearSystem_singular :
  solveLinearSystem [[0.5; 0.5]; [0.5; 0.5]] [1; 2]
  = Normal [neg_infinity; infinity].
Proof. vm_compute. reflexivity. Qed.

(** The reference library at arguments for which the language fixes the
    result, and at a few others. *)
Example RefMath_values :
  RefMath.cos 0 = 1 /\ RefMath.sin 0 = 0 /\ RefMath.atan2 0 1 = 0 /\
  RefMath.hypot 3 4 = 5 /\ RefMath.pow 0 0.2 = 0 /\ RefMath.pow 7 0 = 1 /\
  RefMath.pow 3 2 = 9 /\ is_nan (RefMath.cos infinity) = true /\
  RefMath.hypot infinity nan = infinity /\
  (Math_abs (RefMath.pow 32 0.2 - 2) <? 1e-15) = true /\
  (Math_abs (RefMath.sin (Math_PI / 6) - 0.5) <? 1e-15) = true /\
  (Math_abs (RefMath.atan2 1 1 - Math_PI / 4) <? 1e-15) = true.
Proof. repeat apply conj; vm_compute; reflexivity. Qed.

(** The system of the doubled-back stroke: both panels have the control
    point (10.5, 10), so the two off-diagonal entries are 0/0, whatever
    the [Math] library returns. *)
Lemma doubledBack_matrix (Math : MathLib) :
  let panels := [ ({| x := 10; y := 10 |}, {| x := 11; y := 10 |});
                  ({| x := 11; y := 10 |}, {| x := 10; y := 10 |}) ] in
  panelsOf Samples.doubledBack 2 = Normal panels /\
  mapM (fun i => mapM (influence Math (map controlPoint panels)
                         (map (panelLength Math) panels)
                         (map (panelAngle Math) panels) i) (seq 0 2)) (seq 0 2)
  = Normal [[0.5; nan]; [nan; 0.5]].
Proof.
  cbv zeta. split; [reflexivity|].
  cbn. now rewrite !zero_cross_over_zero, !mul_nan_r, !mul_nan_l.
Qed.

(** The solver on that system: it returns, and what it returns is NaN in
    both places, whatever the right-hand side. *)
Lemma solveLinearSystem_nan (r0 r1 : number) :
  solveLinearSystem [[0.5; nan]; [nan; 0.5]] [r0; r1] = Normal [nan; nan].
Proof.
  unfold solveLinearSystem. cbn.
  now rewrite !div_nan_r, !mul_nan_l, !sub_nan_r.
Qed.

Lemma liftOf_nan (Math : MathLib) (V_inf alpha : number) :
  liftOf Math nan V_inf alpha = nan.
Proof.
  unfold liftOf. cbv zeta. rewrite mul_nan_r, div_nan_l.
  destruct (stalled alpha); [apply mul_nan_l|reflexivity].
Qed.

Lemma doubledBack_forces (Math : MathLib) (speed alphaDeg : number)
    (chordLength : option number) :
  exists f,
    forces Math Samples.doubledBack speed alphaDeg chordLength = Normal f /\
    gamma f = [nan; nan] /\ Cl f = nan.
Proof.
  destruct (doubledBack_matrix Math) as [Hp HA]. cbv zeta in Hp, HA.
  unfold forces.
  change (Z.of_nat (length Samples.doubledBack) - 1)%Z with 2%Z.
  rewrite Hp. cbn [bind].
  change (2 <? 0)%Z with false. cbv iota.
  change (Z.to_nat 2) with 2%nat.
  rewrite HA. cbn [bind].
  unfold solveGamma.
  change (map ?f (seq 0 2)) with [f 0%nat; f 1%nat].
  rewrite solveLinearSystem_nan.
  cbn [mapM seq bind get_obj map lookup list_lookup].
  eexists. split; [reflexivity|]. split; [reflexivity|].
  cbn [Cl fold_left get_num lookup list_lookup default].
  rewrite !mul_nan_l, !add_nan_r. apply liftOf_nan.
Qed.

(** C1 (the code departs from the specification). For the doubled-back stroke,
    at every speed and angle and with every [Math] library, the
    off-diagonal influence entries are 0/0; the solver does not throw but
    returns vortex strengths that are not numbers, so the all-zero
    fallback is not taken, and the result carries NaN in its moment
    coefficient. *)
Theorem C1_singular_system_not_caught (Math : MathLib)
    (speed alphaDeg : number) (chordLength : option number) :
  exists f r,
    forces Math Samples.doubledBack speed alphaDeg chordLength = Normal f /\
    calculatePhysics Math Samples.doubledBack speed alphaDeg chordLength
    = Normal r /\
    (forall r0 r1,
       solveLinearSystem [[0.5; nan]; [nan; 0.5]] [r0; r1] = Normal (gamma f)) /\
    gamma f = [nan; nan] /\
    liftCoefficient r = 0 /\
    momentCoefficient r = nan.
Proof.
  destruct (doubledBack_forces Math speed alphaDeg chordLength)
    as (f & Hf & Hg & HCl).
  exists f. unfold calculatePhysics. rewrite Hf. cbn [bind].
  eexists. split; [reflexivity|]. split; [reflexivity|].
  cbn [liftCoefficient momentCoefficient].
  rewrite Hg, HCl, mul_nan_r.
  split; [apply solveLinearSystem_nan|]. repeat split; reflexivity.
Qed.

(** The run of C1 at 45 units of speed and 5 degrees with the reference
    [Math] library: every pressure coefficient is NaN as well. *)
Example doubledBack_run :
  calculatePhysics RefMath.lib Samples.doubledBack 45 5 None
  = Normal {| liftCoefficient := 0;
              dragCoefficient := 0.01;
              momentCoefficient := nan;
              reynoldsNumber := 616438.35616438347;
              cpDistribution :=
                [ {| CpPoint.x := 10.5; CpPoint.cp := nan |};
                  {| CpPoint.x := 10.5; CpPoint.cp := nan |} ];
              centerOfPressure := 0.25 |}.
Proof. vm_compute. reflexivity. Qed.

(** C2 (counterexample). At speed 0 and 20 degrees the computed drag
    coefficient of the plate is infinite, hence not a finite number, and it
    is returned as it is instead of the floor 0.01. *)
Lemma C2_infinite_drag_returned :
  exists f r,
    forces RefMath.lib Samples.plate 0 20 None = Normal f /\
    calculatePhysics RefMath.lib Samples.plate 0 20 None = Normal r /\
    is_finite (Cd f) = false /\
    dragCoefficient r = infinity /\
    (dragCoefficient r =? 0.01) = false.
Proof.
  eexists. eexists.
  split; [vm_compute; reflexivity|].
  split; [vm_compute; reflexivity|].
  repeat split; vm_compute; reflexivity.
Qed.

(** What the two guards of the returned record let through: an infinite
    coefficient is truthy, so it is returned as computed. *)
Lemma infinite_coefficients_kept (Math : MathLib) (shape : list Point)
    (speed alphaDeg : number) (chordLength : option number) f r :
  forces Math shape speed alphaDeg chordLength = Normal f ->
  calculatePhysics Math shape speed alphaDeg chordLength = Normal r ->
  (is_infinity (Cl f) = true -> liftCoefficient r = Cl f) /\
  (is_infinity (Cd f) = true -> dragCoefficient r = Cd f).
Proof.
  intros Hf Hr. unfold calculatePhysics in Hr. rewrite Hf in Hr.
  cbn [bind] in Hr. injection Hr as <-.
  cbn [liftCoefficient dragCoefficient]. unfold logical_or, truthy.
  split; intros H;
    now rewrite (is_infinity_not_nan _ H), (is_infinity_not_zero _ H).
Qed.

(** C2 (amended). For every polygon with at least three vertices and
    every speed and angle, [calculatePhysics] returns a complete record
    without throwing; a computed lift coefficient that is NaN is replaced
    by 0 and a computed drag coefficient that is NaN by 0.01. *)
Theorem C2_returns_and_guards_nan (Math : MathLib) (shape : list Point)
    (speed alphaDeg : number) (chordLength : option number) :
  (3 <= length shape)%nat ->
  exists f r,
    forces Math shape speed alphaDeg chordLength = Normal f /\
    calculatePhysics Math shape speed alphaDeg chordLength = Normal r /\
    (is_nan (Cl f) = true -> liftCoefficient r = 0) /\
    (is_nan (Cd f) = true -> dragCoefficient r = 0.01).
Proof.
  intros Hlen.
  destruct (calculatePhysics_returns Math shape speed alphaDeg chordLength)
    as (f & r & Hf & Hr & Hl & Hd & _); [lia|].
  exists f, r. split; [assumption|]. split; [assumption|].
  rewrite Hl, Hd. unfold logical_or, truthy.
  split; intros H; now rewrite H.
Qed.

(** C2 (witness): the plate at 45 units of speed and 5 degrees. *)
Lemma C2_returns_and_guards_nan_witness :
  (3 <= length Samples.plate)%nat /\
  exists f r,
    forces RefMath.lib Samples.plate 45 5 None = Normal f /\
    calculatePhysics RefMath.lib Samples.plate 45 5 None = Normal r /\
    (is_nan (Cl f) = true -> liftCoefficient r = 0) /\
    (is_nan (Cd f) = true -> dragCoefficient r = 0.01).
Proof.
  split.
  - simpl. lia.
  - apply (C2_returns_and_guards_nan RefMath.lib Samples.plate 45 5 None).
    simpl. lia.
Defined.

(** C3 (the code departs from the specification). For the doubled-back stroke,
    at every speed and angle, the computed lift coefficient is NaN: the
    returned lift coefficient is the substitute 0, but the returned moment
    coefficient is NaN, which is not -0.25 times the returned lift
    coefficient. *)
Theorem C3_moment_not_quarter_of_returned_lift (Math : MathLib)
    (speed alphaDeg : number) (chordLength : option number) :
  exists r,
    calculatePhysics Math Samples.doubledBack speed alphaDeg chordLength
    = Normal r /\
    liftCoefficient r = 0 /\
    momentCoefficient r = nan /\
    (momentCoefficient r =? -0.25 * liftCoefficient r) = false /\
    centerOfPressure r = 0.25.
Proof.
  destruct (doubledBack_forces Math speed alphaDeg chordLength)
    as (f & Hf & _ & HCl).
  unfold calculatePhysics. rewrite Hf. cbn [bind].
  eexists. split; [reflexivity|].
  cbn [liftCoefficient momentCoefficient centerOfPressure].
  rewrite HCl, mul_nan_r. repeat split; reflexivity.
Qed.

(** What does hold for every invocation: the moment coefficient is -0.25
    times the computed lift coefficient, which is the returned one whenever
    it is a number other than zero. *)
Lemma moment_of_computed_lift (Math : MathLib) (shape : list Point)
    (speed alphaDeg : number) (chordLength : option number) :
  (1 <= length shape)%nat ->
  exists f r,
    forces Math shape speed alphaDeg chordLength = Normal f /\
    calculatePhysics Math shape speed alphaDeg chordLength = Normal r /\
    momentCoefficient r = -0.25 * Cl f /\
    (truthy (Cl f) = true -> momentCoefficient r = -0.25 * liftCoefficient r) /\
    centerOfPressure r = 0.25.
Proof.
  intros Hlen.
  destruct (calculatePhysics_returns Math shape speed alphaDeg chordLength Hlen)
    as (f & r & Hf & Hr & Hl & _ & Hm & _ & _ & Hc).
  exists f, r. repeat split; try assumption.
  intros Ht. rewrite Hm, Hl. unfold logical_or. now rewrite Ht.
Qed.

(** C4. For every polygon with at least three vertices the returned
    Reynolds number is speed times 0.2 divided by 1.460e-5, whatever the
    polygon. *)
Theorem C4_reynolds_number (Math : MathLib) (shape : list Point)
    (speed alphaDeg : number) (chordLength : option number) :
  (3 <= length shape)%nat ->
  exists r,
    calculatePhysics Math shape speed alphaDeg chordLength = Normal r /\
    reynoldsNumber r = (speed * 0.2) / 1.460e-5.
Proof.
  intros Hlen.
  destruct (calculatePhysics_returns Math shape speed alphaDeg chordLength)
    as (f & r & Hf & Hr & _ & _ & _ & HRe & _); [lia|].
  destruct (forces_returns Math shape speed alphaDeg chordLength)
    as (f' & Hf' & HRe' & _); [lia|].
  assert (f' = f) by congruence. subst f'.
  exists r. split; [assumption|].
  rewrite HRe, HRe'. reflexivity.
Qed.

(** C4 (witness): the plate at 45 units of speed and 5 degrees. *)
Lemma C4_reynolds_number_witness :
  (3 <= length Samples.plate)%nat /\
  exists r,
    calculatePhysics RefMath.lib Samples.plate 45 5 None = Normal r /\
    reynoldsNumber r = (45 * 0.2) / 1.460e-5.
Proof.
  split.
  - simpl. lia.
  - apply (C4_reynolds_number RefMath.lib Samples.plate 45 5 None).
    simpl. lia.
Defined.



(** The test in radians is the test in degrees: for every whole number of
    degrees from -180 to 180 the stall branch is taken exactly when the
    absolute angle exceeds 15. *)
Lemma stalled_whole_degrees :
  forallb (fun k : Z =>
             Bool.eqb (stalled (of_int k * (Math_PI / 180)))
                      (15 <? Z.abs k)%Z)
          (map (fun k : nat => (Z.of_nat k - 180)%Z) (seq 0 361)) = true.
Proof. vm_compute. reflexivity. Qed.

(** C10. The fourth argument does not reach the result: two invocations
    that differ only in [chordLength] (given or left to its default)
    return the same completion. *)
Theorem C10_chordLength_ignored (Math : MathLib) (shape : list Point)
    (speed alphaDeg : number) (chordLength chordLength' : option number) :
  calculatePhysics Math shape speed alphaDeg chordLength
  = calculatePhysics Math shape speed alphaDeg chordLength'.
Proof. reflexivity. Qed.

End PanelClaims.

(* ===================================================================== *)
(** * Loops that write an array cell by cell                              *)
(* ===================================================================== *)

Section LoopFacts.
Import JS WindTunnel.

Lemma ta_get_nonneg (a : list number) (k : Z) :
  (0 <= k)%Z -> ta_get a k = default nan (a !! Z.to_nat k).
Proof. intros Hk. unfold ta_get. destruct (Z.ltb_spec k 0); [lia|reflexivity]. Qed.

Lemma f32_set_length (a : list number) (k : Z) (v : number) :
  length (f32_set a k v) = length a.
Proof. unfold f32_set. destruct (k <? 0)%Z; [reflexivity|apply length_insert]. Qed.

(** Reading back the element just written: the rounded value inside the
    array, [undefined] outside. *)
Lemma ta_get_f32_set_same (a : list number) (k : Z) (v : number) :
  ta_get (f32_set a k v) k
  = if ((0 <=? k) && (k <? Z.of_nat (length a)))%Z then fround v else nan.
Proof.
  unfold ta_get, f32_set.
  destruct (Z.ltb_spec k 0) as [Hneg|Hpos].
  - destruct (Z.leb_spec 0 k); [lia|reflexivity].
  - destruct (Z.leb_spec 0 k); [|lia]. simpl.
    destruct (Z.ltb_spec k (Z.of_nat (length a))) as [Hin|Hout].
    + rewrite list_lookup_insert_eq by lia. reflexivity.
    + rewrite list_insert_ge by lia.
      rewrite lookup_ge_None_2 by lia. reflexivity.
Qed.

Lemma ta_get_f32_set_other (a : list number) (k k' : Z) (v : number) :
  k <> k' -> ta_get (f32_set a k v) k' = ta_get a k'.
Proof.
  intros Hne. unfold ta_get, f32_set.
  destruct (Z.ltb_spec k' 0); [reflexivity|].
  destruct (Z.ltb_spec k 0); [reflexivity|].
  rewrite list_lookup_insert_ne by lia. reflexivity.
Qed.

Lemma elem_of_range (n i : Z) : i ∈ range n <-> (0 <= i < n)%Z.
Proof.
  unfold range. rewrite list_elem_of_fmap. split.
  - intros [k [-> Hk]]. apply elem_of_seq in Hk. lia.
  - intros Hi. exists (Z.to_nat i). split; [lia|].
    apply elem_of_seq. lia.
Qed.

Lemma NoDup_range (n : Z) : NoDup (range n).
Proof.
  unfold range. apply NoDup_fmap_2; [|apply NoDup_seq].
  intros a b Hab. lia.
Qed.

Lemma fold_left_ext_elem {S K} (f g : S -> K -> S) (l : list K) (s : S) :
  (forall s k, k ∈ l -> f s k = g s k) ->
  fold_left f l s = fold_left g l s.
Proof.
  revert s. induction l as [|k l IH]; intros s H; simpl; [reflexivity|].
  rewrite H by (now left). apply IH. intros s' k' Hk'. apply H. now right.
Qed.

(** An observation no iteration changes is the same after the loop. *)
Lemma fold_left_kept {S K T} (obs : S -> T) (body : S -> K -> S)
    (l : list K) (s : S) :
  (forall s k, k ∈ l -> obs (body s k) = obs s) ->
  obs (fold_left body l s) = obs s.
Proof.
  revert s. induction l as [|k l IH]; intros s H; simpl; [reflexivity|].
  rewrite IH.
  - apply H. now left.
  - intros s' k' Hk'. apply H. now right.
Qed.

(** An observation that only iteration [k] changes, and that iteration [k]
    computes from the observation alone, is after the loop what iteration
    [k] makes of the initial state. *)
Lemma fold_left_at {S K T} (obs : S -> T) (body : S -> K -> S)
    (l : list K) (k : K) (s : S) :
  NoDup l -> k ∈ l ->
  (forall s j, j ∈ l -> j <> k -> obs (body s j) = obs s) ->
  (forall s s', obs s = obs s' -> obs (body s k) = obs (body s' k)) ->
  obs (fold_left body l s) = obs (body s k).
Proof.
  intros Hnd Hk Hother Hresp.
  apply list_elem_of_split in Hk. destruct Hk as (l1 & l2 & ->).
  apply NoDup_app in Hnd. destruct Hnd as (_ & Hdisj & Hnd2).
  apply NoDup_cons in Hnd2. destruct Hnd2 as [Hk2 _].
  rewrite fold_left_app. simpl.
  rewrite (fold_left_kept obs body l2).
  - apply Hresp. apply (fold_left_kept obs body l1).
    intros s' j Hj. apply Hother.
    + apply elem_of_app. now left.
    + intros ->. apply (Hdisj k Hj). now left.
  - intros s' j Hj. apply Hother.
    + apply elem_of_app. right. now right.
    + intros ->. contradiction.
Qed.

Lemma forCells_kept {S T} (obs : S -> T) (body : S -> Z -> Z -> S) (s : S) :
  (forall s x y, (0 <= x < COLS)%Z -> (0 <= y < ROWS)%Z ->
                 obs (body s x y) = obs s) ->
  obs (forCells body s) = obs s.
Proof.
  intros H. rewrite forCells_unseal. unfold forCells_def.
  apply fold_left_kept. intros s1 y Hy. apply elem_of_range in Hy.
  apply fold_left_kept. intros s2 x Hx. apply elem_of_range in Hx.
  now apply H.
Qed.

Lemma forCells_at {S T} (obs : S -> T) (body : S -> Z -> Z -> S)
    (x0 y0 : Z) (s : S) :
  (0 <= x0 < COLS)%Z -> (0 <= y0 < ROWS)%Z ->
  (forall s x y, (0 <= x < COLS)%Z -> (0 <= y < ROWS)%Z ->
                 (x, y) <> (x0, y0) -> obs (body s x y) = obs s) ->
  (forall s s', obs s = obs s' -> obs (body s x0 y0) = obs (body s' x0 y0)) ->
  obs (forCells body s) = obs (body s x0 y0).
Proof.
  intros Hx0 Hy0 Hother Hresp. rewrite forCells_unseal. unfold forCells_def.
  assert (Hrow : forall s,
             obs (fold_left (fun s x => body s x y0) (range COLS) s)
             = obs (body s x0 y0)).
  { intros s1. apply (fold_left_at obs (fun s x => body s x y0)).
    - apply NoDup_range.
    - now apply elem_of_range.
    - intros s2 x Hx Hne. apply elem_of_range in Hx.
      apply Hother; [assumption|assumption|congruence].
    - assumption. }
  rewrite (fold_left_at obs
             (fun s y => fold_left (fun s x => body s x y) (range COLS) s)
             (range ROWS) y0).
  - apply Hrow.
  - apply NoDup_range.
  - now apply elem_of_range.
  - intros s1 y Hy Hne. apply elem_of_range in Hy.
    apply fold_left_kept. intros s2 x Hx. apply elem_of_range in Hx.
    apply Hother; [assumption|assumption|congruence].
  - intros s1 s2 H12. rewrite !Hrow. now apply Hresp.
Qed.

End LoopFacts.

(* ===================================================================== *)
(** * The streaming loops, population by population                       *)
(* ===================================================================== *)

Section StreamingFacts.
Import JS WindTunnel Views.

Implicit Types (b : list Z) (x y i k : Z).

Lemma cell_index_apart x y i x0 y0 i0 :
  (0 <= x < COLS)%Z -> (0 <= x0 < COLS)%Z ->
  (0 <= i < Q)%Z -> (0 <= i0 < Q)%Z ->
  (x, y) <> (x0, y0) ->
  ((y * COLS + x) * Q + i <> (y0 * COLS + x0) * Q + i0)%Z.
Proof.
  unfold COLS, Q. intros Hx Hx0 Hi Hi0 Hne Heq.
  apply Hne. f_equal; lia.
Qed.

Lemma streamDir_length n0 b x y n1 i :
  length (streamDir n0 b x y n1 i) = length n1.
Proof.
  unfold streamDir.
  repeat (match goal with |- context [if ?c then _ else _] => destruct c end);
    rewrite ?f32_set_length; reflexivity.
Qed.

Lemma streamDir_other n0 b x y n1 i k :
  k <> ((y * COLS + x) * Q + i)%Z ->
  ta_get (streamDir n0 b x y n1 i) k = ta_get n1 k.
Proof.
  intros Hne. unfold streamDir.
  repeat (match goal with |- context [if ?c then _ else _] => destruct c end);
    rewrite ?ta_get_f32_set_other by congruence; reflexivity.
Qed.


Lemma at_index_value k (n n' : list number) :
  at_index k n = at_index k n' -> ta_get n k = ta_get n' k.
Proof. intros H. exact (f_equal snd H). Qed.

Lemma streamDir_respects n0 b x y i k n1 n1' :
  at_index k n1 = at_index k n1' ->
  at_index k (streamDir n0 b x y n1 i) = at_index k (streamDir n0 b x y n1' i).
Proof.
  unfold at_index. intros H. injection H as Hlen Hval.
  rewrite !streamDir_length, Hlen. f_equal.
  destruct (Z.eq_dec k ((y * COLS + x) * Q + i)%Z) as [->|Hne].
  - unfold streamDir.
    repeat (match goal with |- context [if ?c then _ else _] => destruct c end);
      rewrite ?ta_get_f32_set_same, ?Hlen; auto.
  - now rewrite !streamDir_other.
Qed.

Lemma streamCell_at n0 b n1 x y i :
  (0 <= i < Q)%Z -> u8_get b (y * COLS + x) = 0%Z ->
  at_index ((y * COLS + x) * Q + i) (streamCell n0 b n1 x y)
  = at_index ((y * COLS + x) * Q + i) (streamDir n0 b x y n1 i).
Proof.
  intros Hi Hfluid. unfold streamCell. rewrite Hfluid.
  change (0 =? 0)%Z with true. cbv iota.
  apply (fold_left_at (at_index _) (streamDir n0 b x y)).
  - apply NoDup_range.
  - now apply elem_of_range.
  - intros n j Hj Hne. unfold at_index.
    rewrite streamDir_length, streamDir_other; [reflexivity|lia].
  - intros n n'. apply streamDir_respects.
Qed.

Lemma streamCell_other n0 b n1 x y k :
  (forall i, (0 <= i < Q)%Z -> k <> ((y * COLS + x) * Q + i)%Z) ->
  at_index k (streamCell n0 b n1 x y) = at_index k n1.
Proof.
  intros Hk. unfold streamCell.
  destruct (_ =? _)%Z; [|reflexivity].
  apply (fold_left_kept (at_index k)).
  intros n j Hj. apply elem_of_range in Hj. unfold at_index.
  rewrite streamDir_length, streamDir_other; [reflexivity|now apply Hk].
Qed.

Lemma streamCell_respects n0 b x y i n1 n1' :
  (0 <= i < Q)%Z ->
  at_index ((y * COLS + x) * Q + i) n1 = at_index ((y * COLS + x) * Q + i) n1' ->
  at_index ((y * COLS + x) * Q + i) (streamCell n0 b n1 x y)
  = at_index ((y * COLS + x) * Q + i) (streamCell n0 b n1' x y).
Proof.
  intros Hi H.
  destruct (Z.eq_dec (u8_get b (y * COLS + x)%Z) 0%Z) as [Hfluid|Hsolid].
  - rewrite !streamCell_at by assumption. now apply streamDir_respects.
  - unfold streamCell. apply Z.eqb_neq in Hsolid. now rewrite Hsolid.
Qed.

(** After the streaming loop, a population of a cell is what the loop body
    of that cell makes of it. *)
Lemma streaming_at n0 b n1 x y i :
  (0 <= x < COLS)%Z -> (0 <= y < ROWS)%Z -> (0 <= i < Q)%Z ->
  at_index ((y * COLS + x) * Q + i) (forCells (streamCell n0 b) n1)
  = at_index ((y * COLS + x) * Q + i) (streamCell n0 b n1 x y).
Proof.
  intros Hx Hy Hi.
  apply (forCells_at (at_index _) (streamCell n0 b)); try assumption.
  - intros n x' y' Hx' Hy' Hne. apply streamCell_other.
    intros i' Hi'. apply not_eq_sym. now apply cell_index_apart.
  - intros n n'. now apply streamCell_respects.
Qed.

Lemma resetSolid_other b n1 x y k :
  (forall i, (0 <= i < Q)%Z -> k <> ((y * COLS + x) * Q + i)%Z) ->
  at_index k (resetSolid b n1 x y) = at_index k n1.
Proof.
  intros Hk. unfold resetSolid.
  destruct (_ =? _)%Z; [reflexivity|].
  apply (fold_left_kept (at_index k)).
  intros n j Hj. apply elem_of_range in Hj. unfold at_index.
  rewrite f32_set_length, ta_get_f32_set_other; [reflexivity|].
  apply not_eq_sym. now apply Hk.
Qed.

(** The third loop leaves the populations of a fluid cell alone. *)
Lemma reset_fluid b n1 x y i :
  (0 <= x < COLS)%Z -> (0 <= y < ROWS)%Z -> (0 <= i < Q)%Z ->
  u8_get b (y * COLS + x) = 0%Z ->
  at_index ((y * COLS + x) * Q + i) (forCells (resetSolid b) n1)
  = at_index ((y * COLS + x) * Q + i) n1.
Proof.
  intros Hx Hy Hi Hfluid.
  apply (forCells_kept (at_index _) (resetSolid b)).
  intros n x' y' Hx' Hy'.
  destruct (decide ((x', y') = (x, y))) as [Heq|Hne].
  - injection Heq as -> ->. unfold resetSolid. now rewrite Hfluid.
  - apply resetSolid_other. intros i' Hi'.
    apply not_eq_sym. now apply cell_index_apart.
Qed.

Lemma at_index_f32_set_respects k (v : number) (n n' : list number) :
  at_index k n = at_index k n' ->
  at_index k (f32_set n k v) = at_index k (f32_set n' k v).
Proof.
  unfold at_index. intros H. injection H as Hl Hv.
  now rewrite !f32_set_length, !ta_get_f32_set_same, Hl.
Qed.

Lemma writeWeights_at (n1 : list number) (base i : Z) :
  (0 <= i < Q)%Z ->
  at_index (base + i)
    (fold_left (fun n j => f32_set n (base + j) (w_at j)) (range Q) n1)
  = at_index (base + i) (f32_set n1 (base + i) (w_at i)).
Proof.
  intros Hi.
  apply (fold_left_at (at_index (base + i))
           (fun n j => f32_set n (base + j) (w_at j))).
  - apply NoDup_range.
  - now apply elem_of_range.
  - intros m j Hj Hne. unfold at_index.
    rewrite f32_set_length, ta_get_f32_set_other; [reflexivity|lia].
  - intros m m'. apply at_index_f32_set_respects.
Qed.

(** The third loop sets every population of a solid cell to its weight. *)
Lemma reset_solid b (n1 : list number) x y i :
  (0 <= x < COLS)%Z -> (0 <= y < ROWS)%Z -> (0 <= i < Q)%Z ->
  u8_get b (y * COLS + x) <> 0%Z ->
  ((y * COLS + x) * Q + i < Z.of_nat (length n1))%Z ->
  ta_get (forCells (resetSolid b) n1) ((y * COLS + x) * Q + i) = fround (w_at i).
Proof.
  intros Hx Hy Hi Hsolid Hlen.
  set (k := ((y * COLS + x) * Q + i)%Z).
  assert (Hk : (0 <= k)%Z) by (unfold k, COLS, Q in *; lia).
  apply Z.eqb_neq in Hsolid.
  assert (Hcell : forall n,
             at_index k (resetSolid b n x y) = at_index k (f32_set n k (w_at i))).
  { intros n. unfold resetSolid. rewrite Hsolid. apply writeWeights_at, Hi. }
  assert (H : at_index k (forCells (resetSolid b) n1)
              = at_index k (resetSolid b n1 x y)).
  { apply (forCells_at (at_index k) (resetSolid b)); try assumption.
    - intros n x' y' Hx' Hy' Hne. apply resetSolid_other.
      intros i' Hi'. apply not_eq_sym. now apply cell_index_apart.
    - intros n n' Hnn'. rewrite !Hcell.
      now apply at_index_f32_set_respects. }
  rewrite Hcell in H. unfold at_index in H. injection H as _ H.
  rewrite H, ta_get_f32_set_same.
  destruct (Z.leb_spec 0 k); [|lia].
  destruct (Z.ltb_spec k (Z.of_nat (length n1))); [reflexivity|lia].
Qed.

End StreamingFacts.

(* ===================================================================== *)
(** * The collision loop, cell by cell                                    *)
(* ===================================================================== *)

Section CollisionFacts.
Import JS WindTunnel Views.

Implicit Types (b : list Z) (x y i k idx : Z) (st : Tunnel).

Lemma map_eq_elem {A B} (f g : A -> B) (l : list A) :
  map f l = map g l <-> (forall a, a ∈ l -> f a = g a).
Proof.
  induction l as [|a l IH]; simpl.
  - split; [intros _ a Ha; inversion Ha|reflexivity].
  - split.
    + intros H. injection H as Ha Hl. intros a' Ha'.
      apply elem_of_cons in Ha'. destruct Ha' as [->|Ha']; [assumption|].
      now apply IH.
    + intros H. f_equal; [apply H; now left|].
      apply IH. intros a' Ha'. apply H. now right.
Qed.


Ltac view_cell_eq :=
  match goal with
  | |- Build_CellView _ _ ?m1 _ _ _ = Build_CellView _ _ ?m2 _ _ _ =>
      let Hm := fresh "Hm" in
      assert (Hm : m1 = m2); [|rewrite Hm; reflexivity]
  end.

Lemma moments_view (n n' : list number) idx :
  map (fun i => at_index (idx * Q + i) n) (range Q)
  = map (fun i => at_index (idx * Q + i) n') (range Q) ->
  moments n idx = moments n' idx.
Proof.
  intros H. unfold moments. apply fold_left_ext_elem.
  intros [[d u_x] u_y] i Hi.
  apply (proj1 (map_eq_elem _ _ _) H) in Hi.
  unfold at_index in Hi. injection Hi as _ Hv. now rewrite Hv.
Qed.

Lemma relax_kept (n : list number) idx (d u_x u_y : number) k :
  (forall i, (0 <= i < Q)%Z -> k <> (idx * Q + i)%Z) ->
  at_index k (relax n idx d u_x u_y) = at_index k n.
Proof.
  intros Hk. unfold relax. apply (fold_left_kept (at_index k)).
  intros m j Hj. apply elem_of_range in Hj. unfold at_index.
  rewrite f32_set_length, ta_get_f32_set_other; [reflexivity|].
  apply not_eq_sym. now apply Hk.
Qed.

Lemma relax_at (n : list number) idx (d u_x u_y : number) i :
  (0 <= i < Q)%Z ->
  at_index (idx * Q + i) (relax n idx d u_x u_y)
  = at_index (idx * Q + i)
      (f32_set n (idx * Q + i)
         (ta_get n (idx * Q + i)
          + omega * (equilibrium i d u_x u_y - ta_get n (idx * Q + i)))).
Proof.
  intros Hi. unfold relax.
  apply (fold_left_at (at_index (idx * Q + i))
           (fun m j =>
              f32_set m (idx * Q + j)
                (ta_get m (idx * Q + j)
                 + omega * (equilibrium j d u_x u_y - ta_get m (idx * Q + j))))).
  - apply NoDup_range.
  - now apply elem_of_range.
  - intros m j Hj Hne. unfold at_index.
    rewrite f32_set_length, ta_get_f32_set_other; [reflexivity|lia].
  - intros m m' H. unfold at_index in *. injection H as Hl Hv.
    now rewrite !f32_set_length, !ta_get_f32_set_same, Hl, Hv.
Qed.

Lemma imposeInlet_kept (n : list number) idx (d u_x u_y : number) k :
  (forall i, (0 <= i < Q)%Z -> k <> (idx * Q + i)%Z) ->
  at_index k (imposeInlet n idx d u_x u_y) = at_index k n.
Proof.
  intros Hk. unfold imposeInlet. apply (fold_left_kept (at_index k)).
  intros m j Hj. apply elem_of_range in Hj. unfold at_index.
  rewrite f32_set_length, ta_get_f32_set_other; [reflexivity|].
  apply not_eq_sym. now apply Hk.
Qed.

Lemma imposeInlet_at (n : list number) idx (d u_x u_y : number) i :
  (0 <= i < Q)%Z ->
  at_index (idx * Q + i) (imposeInlet n idx d u_x u_y)
  = at_index (idx * Q + i)
      (f32_set n (idx * Q + i) (equilibrium i d u_x u_y)).
Proof.
  intros Hi. unfold imposeInlet.
  apply (fold_left_at (at_index (idx * Q + i))
           (fun m j => f32_set m (idx * Q + j) (equilibrium j d u_x u_y))).
  - apply NoDup_range.
  - now apply elem_of_range.
  - intros m j Hj Hne. unfold at_index.
    rewrite f32_set_length, ta_get_f32_set_other; [reflexivity|lia].
  - intros m m'. apply at_index_f32_set_respects.
Qed.

Lemma relax_respects (n n' : list number) idx (d u_x u_y : number) i :
  (0 <= i < Q)%Z ->
  at_index (idx * Q + i) n = at_index (idx * Q + i) n' ->
  at_index (idx * Q + i) (relax n idx d u_x u_y)
  = at_index (idx * Q + i) (relax n' idx d u_x u_y).
Proof.
  intros Hi H. rewrite !relax_at by assumption.
  unfold at_index in *. injection H as Hl Hv.
  now rewrite !f32_set_length, !ta_get_f32_set_same, Hl, Hv.
Qed.

Lemma imposeInlet_respects (n n' : list number) idx (d u_x u_y : number) i :
  (0 <= i < Q)%Z ->
  at_index (idx * Q + i) n = at_index (idx * Q + i) n' ->
  at_index (idx * Q + i) (imposeInlet n idx d u_x u_y)
  = at_index (idx * Q + i) (imposeInlet n' idx d u_x u_y).
Proof.
  intros Hi H. rewrite !imposeInlet_at by assumption.
  now apply at_index_f32_set_respects.
Qed.

Lemma at_index_f32_set_kept k k' (v : number) (n : list number) :
  k' <> k -> at_index k (f32_set n k' v) = at_index k n.
Proof.
  intros Hne. unfold at_index.
  now rewrite f32_set_length, ta_get_f32_set_other.
Qed.

Lemma collideCell_other (u0 : number) st x y x0 y0 :
  (0 <= x < COLS)%Z -> (0 <= x0 < COLS)%Z -> (x, y) <> (x0, y0) ->
  cell_view (y0 * COLS + x0) (collideCell u0 st x y)
  = cell_view (y0 * COLS + x0) st.
Proof.
  intros Hx Hx0 Hne.
  assert (Hidx : (y * COLS + x <> y0 * COLS + x0)%Z).
  { unfold COLS in *. intros Heq. apply Hne. f_equal; lia. }
  assert (Hcell : forall i j, (0 <= i < Q)%Z -> (0 <= j < Q)%Z ->
             ((y0 * COLS + x0) * Q + i <> (y * COLS + x) * Q + j)%Z).
  { intros i j Hi Hj. apply not_eq_sym. now apply cell_index_apart. }
  unfold collideCell.
  destruct (_ =? _)%Z; [|reflexivity].
  destruct (moments (n0 st) (y * COLS + x)) as [[d u_x] u_y].
  destruct (x =? 0)%Z; unfold cell_view; cbn [n0 n1 density ux uy barrier].
  - rewrite !at_index_f32_set_kept by assumption.
    view_cell_eq. apply map_eq_elem. intros i Hi. apply elem_of_range in Hi.
    rewrite relax_kept by (intros j Hj; now apply Hcell).
    apply imposeInlet_kept. intros j Hj. now apply Hcell.
  - rewrite !at_index_f32_set_kept by assumption.
    view_cell_eq. apply map_eq_elem. intros i Hi. apply elem_of_range in Hi.
    apply relax_kept. intros j Hj. now apply Hcell.
Qed.

Lemma collideCell_respects (u0 : number) st st' x y :
  cell_view (y * COLS + x) st = cell_view (y * COLS + x) st' ->
  cell_view (y * COLS + x) (collideCell u0 st x y)
  = cell_view (y * COLS + x) (collideCell u0 st' x y).
Proof.
  intros H.
  pose proof (f_equal view_barrier H) as Hb.
  pose proof (f_equal view_next H) as Hn1.
  pose proof (f_equal view_cell H) as Hn0.
  pose proof (f_equal view_density H) as Hd.
  pose proof (f_equal view_ux H) as Hux.
  pose proof (f_equal view_uy H) as Huy.
  cbn [cell_view view_barrier view_next view_cell view_density view_ux view_uy]
    in Hb, Hn1, Hn0, Hd, Hux, Huy.
  unfold collideCell. rewrite <- Hb.
  destruct (_ =? _)%Z; [|assumption].
  rewrite <- (moments_view _ _ _ Hn0).
  destruct (moments (n0 st) (y * COLS + x)) as [[d u_x] u_y].
  destruct (x =? 0)%Z; unfold cell_view; cbn [n0 n1 density ux uy barrier].
  - rewrite Hb, Hn1.
    rewrite (at_index_f32_set_respects _ _ _ _ Hd).
    rewrite (at_index_f32_set_respects _ _ _ _ Hux).
    rewrite (at_index_f32_set_respects _ _ _ _ Huy).
    view_cell_eq. apply map_eq_elem. intros i Hi.
    pose proof (proj1 (map_eq_elem _ _ _) Hn0 i Hi) as Hv.
    apply elem_of_range in Hi.
    apply relax_respects; [assumption|].
    now apply imposeInlet_respects.
  - rewrite Hb, Hn1.
    rewrite (at_index_f32_set_respects _ _ _ _ Hd).
    rewrite (at_index_f32_set_respects _ _ _ _ Hux).
    rewrite (at_index_f32_set_respects _ _ _ _ Huy).
    view_cell_eq. apply map_eq_elem. intros i Hi.
    pose proof (proj1 (map_eq_elem _ _ _) Hn0 i Hi) as Hv.
    apply elem_of_range in Hi.
    now apply relax_respects.
Qed.

(** After the collision loop, the cell [(x, y)] is what the loop body of
    that cell makes of the initial state. *)
Lemma collide_at (u0 : number) st x y :
  (0 <= x < COLS)%Z -> (0 <= y < ROWS)%Z ->
  cell_view (y * COLS + x) (collide u0 st)
  = cell_view (y * COLS + x) (collideCell u0 st x y).
Proof.
  intros Hx Hy. unfold collide.
  apply (forCells_at (cell_view (y * COLS + x)) (collideCell u0));
    try assumption.
  - intros s x' y' Hx' Hy' Hne. now apply collideCell_other.
  - intros s s'. apply collideCell_respects.
Qed.

Lemma collideCell_frame (u0 : number) st x y :
  barrier (collideCell u0 st x y) = barrier st /\
  n1 (collideCell u0 st x y) = n1 st /\
  length (n0 (collideCell u0 st x y)) = length (n0 st).
Proof.
  unfold collideCell.
  destruct (_ =? _)%Z; [|auto].
  destruct (moments (n0 st) (y * COLS + x)) as [[d u_x] u_y].
  destruct (x =? 0)%Z; cbn [n0 n1 barrier]; repeat split.
  - unfold relax, imposeInlet.
    rewrite (fold_left_kept (@length number)); [|intros; apply f32_set_length].
    apply (fold_left_kept (@length number)). intros; apply f32_set_length.
  - unfold relax.
    apply (fold_left_kept (@length number)). intros; apply f32_set_length.
Qed.

Lemma collide_frame (u0 : number) st :
  barrier (collide u0 st) = barrier st /\
  n1 (collide u0 st) = n1 st /\
  length (n0 (collide u0 st)) = length (n0 st).
Proof.
  unfold collide. repeat split.
  - apply (forCells_kept barrier). intros s x y _ _.
    apply (collideCell_frame u0 s x y).
  - apply (forCells_kept n1). intros s x y _ _.
    apply (collideCell_frame u0 s x y).
  - apply (forCells_kept (fun s => length (n0 s))). intros s x y _ _.
    apply (collideCell_frame u0 s x y).
Qed.

End CollisionFacts.

(* ===================================================================== *)
(** * One step of the lattice engine                                      *)
(* ===================================================================== *)

Section StepFacts.
Import JS WindTunnel Views.

Implicit Types (x y i k idx : Z) (st : Tunnel).

Lemma allocated_index st x y i :
  allocated st ->
  (0 <= x < COLS)%Z -> (0 <= y < ROWS)%Z -> (0 <= i < Q)%Z ->
  (0 <= (y * COLS + x) * Q + i < Z.of_nat (length (n1 st)))%Z /\
  (0 <= (y * COLS + x) * Q + i < Z.of_nat (length (n0 st)))%Z /\
  (0 <= y * COLS + x < Z.of_nat (length (ux st)))%Z /\
  (0 <= y * COLS + x < Z.of_nat (length (uy st)))%Z.
Proof.
  intros (H0 & H1 & _ & Hux & Huy & _) Hx Hy Hi.
  rewrite H0, H1, Hux, Huy.
  clear H0 H1 Hux Huy.
  unfold ROWS, COLS, Q in *. lia.
Qed.

(** The population [i] of a fluid cell after the step is what streaming
    puts there, from the distribution the collision loop has left. *)
Lemma simulate_population (windSpeed : number) st x y i :
  (0 <= x < COLS)%Z -> (0 <= y < ROWS)%Z -> (0 <= i < Q)%Z ->
  u8_get (barrier st) (y * COLS + x) = 0%Z ->
  ta_get (n0 (simulate windSpeed st)) ((y * COLS + x) * Q + i)
  = ta_get (streamDir (n0 (collide (inflowSpeed windSpeed) st)) (barrier st)
              x y (n1 st) i)
           ((y * COLS + x) * Q + i).
Proof.
  intros Hx Hy Hi Hfluid. unfold simulate. cbn [n0].
  destruct (collide_frame (inflowSpeed windSpeed) st) as (Hb & Hn1 & _).
  rewrite Hb, Hn1.
  pose proof (reset_fluid (barrier st)
                (forCells (streamCell (n0 (collide (inflowSpeed windSpeed) st))
                             (barrier st)) (n1 st)) x y i Hx Hy Hi Hfluid) as H1.
  pose proof (streaming_at (n0 (collide (inflowSpeed windSpeed) st))
                (barrier st) (n1 st) x y i Hx Hy Hi) as H2.
  pose proof (streamCell_at (n0 (collide (inflowSpeed windSpeed) st))
                (barrier st) (n1 st) x y i Hi Hfluid) as H3.
  rewrite H2, H3 in H1. exact (at_index_value _ _ _ H1).
Qed.

(** The populations of a solid cell after the step are the weights. *)
Lemma simulate_solid (windSpeed : number) st x y i :
  allocated st ->
  (0 <= x < COLS)%Z -> (0 <= y < ROWS)%Z -> (0 <= i < Q)%Z ->
  u8_get (barrier st) (y * COLS + x) <> 0%Z ->
  ta_get (n0 (simulate windSpeed st)) ((y * COLS + x) * Q + i) = fround (w_at i).
Proof.
  intros Hal Hx Hy Hi Hsolid. unfold simulate. cbn [n0].
  destruct (collide_frame (inflowSpeed windSpeed) st) as (Hb & Hn1 & _).
  rewrite Hb, Hn1. apply reset_solid; try assumption.
  pose proof (forCells_kept (@length number)
                (streamCell (n0 (collide (inflowSpeed windSpeed) st)) (barrier st))
                (n1 st)) as Hlen.
  rewrite Hlen.
  - apply (allocated_index st x y i Hal Hx Hy Hi).
  - intros n x' y' _ _. unfold streamCell.
    destruct (_ =? _)%Z; [|reflexivity].
    apply (fold_left_kept (@length number)). intros. apply streamDir_length.
Qed.

(** The collision loop does not touch the populations of a solid cell. *)
Lemma collide_solid (u0 : number) st x y i :
  (0 <= x < COLS)%Z -> (0 <= y < ROWS)%Z -> (0 <= i < Q)%Z ->
  u8_get (barrier st) (y * COLS + x) <> 0%Z ->
  ta_get (n0 (collide u0 st)) ((y * COLS + x) * Q + i)
  = ta_get (n0 st) ((y * COLS + x) * Q + i).
Proof.
  intros Hx Hy Hi Hsolid.
  pose proof (f_equal view_cell (collide_at u0 st x y Hx Hy)) as H.
  cbn [cell_view view_cell] in H.
  apply (proj1 (map_eq_elem _ _ _)) with (a := i) in H;
    [|now apply elem_of_range].
  rewrite (at_index_value _ _ _ H).
  unfold collideCell. apply Z.eqb_neq in Hsolid. now rewrite Hsolid.
Qed.

(** A population of a fluid cell after the collision loop is the one the
    loop body of the cell computes. *)
Lemma collide_fluid (u0 : number) st x y i :
  (0 <= x < COLS)%Z -> (0 <= y < ROWS)%Z -> (0 <= i < Q)%Z ->
  ta_get (n0 (collide u0 st)) ((y * COLS + x) * Q + i)
  = ta_get (n0 (collideCell u0 st x y)) ((y * COLS + x) * Q + i).
Proof.
  intros Hx Hy Hi.
  pose proof (f_equal view_cell (collide_at u0 st x y Hx Hy)) as H.
  cbn [cell_view view_cell] in H.
  apply (proj1 (map_eq_elem _ _ _)) with (a := i) in H;
    [|now apply elem_of_range].
  exact (at_index_value _ _ _ H).
Qed.

Lemma cell_view_ux idx st : view_ux (cell_view idx st) = at_index idx (ux st).
Proof. reflexivity. Qed.

Lemma cell_view_uy idx st : view_uy (cell_view idx st) = at_index idx (uy st).
Proof. reflexivity. Qed.

Lemma simulate_ux (windSpeed : number) st :
  ux (simulate windSpeed st) = ux (collide (inflowSpeed windSpeed) st).
Proof. reflexivity. Qed.

Lemma simulate_uy (windSpeed : number) st :
  uy (simulate windSpeed st) = uy (collide (inflowSpeed windSpeed) st).
Proof. reflexivity. Qed.

(** The velocity the step stores for a cell is the one the loop body of
    the cell computes. *)
Lemma simulate_velocity (windSpeed : number) st x y :
  (0 <= x < COLS)%Z -> (0 <= y < ROWS)%Z ->
  ta_get (ux (simulate windSpeed st)) (y * COLS + x)
  = ta_get (ux (collideCell (inflowSpeed windSpeed) st x y)) (y * COLS + x) /\
  ta_get (uy (simulate windSpeed st)) (y * COLS + x)
  = ta_get (uy (collideCell (inflowSpeed windSpeed) st x y)) (y * COLS + x).
Proof.
  intros Hx Hy. rewrite simulate_ux, simulate_uy.
  pose proof (collide_at (inflowSpeed windSpeed) st x y Hx Hy) as H.
  pose proof (f_equal view_ux H) as Hux.
  pose proof (f_equal view_uy H) as Huy.
  rewrite !cell_view_ux in Hux. rewrite !cell_view_uy in Huy.
  split; [exact (at_index_value _ _ _ Hux)|exact (at_index_value _ _ _ Huy)].
Qed.

End StepFacts.

(* ===================================================================== *)
(** * Streaming at solid cells and at the edges of the grid               *)
(* ===================================================================== *)

Section StreamingClaims.
Import JS WindTunnel Views.

Implicit Types (x y i k : Z) (st : Tunnel).

Ltac decide_tests :=
  repeat match goal with
    | |- context [(?a <=? ?b)%Z] =>
        first [ rewrite (proj2 (Z.leb_le a b)) by lia
              | rewrite (proj2 (Z.leb_gt a b)) by lia ]
    | |- context [(?a <? ?b)%Z] =>
        first [ rewrite (proj2 (Z.ltb_lt a b)) by lia
              | rewrite (proj2 (Z.ltb_ge a b)) by lia ]
    end.

Lemma written_value (n : list number) k (v : number) :
  (0 <= k < Z.of_nat (length n))%Z -> ta_get (f32_set n k v) k = fround v.
Proof.
  intros Hk. rewrite ta_get_f32_set_same.
  destruct (Z.leb_spec 0 k); [|lia].
  destruct (Z.ltb_spec k (Z.of_nat (length n))); [reflexivity|lia].
Qed.

(** Bounce-back inside the grid: when the cell that direction [i] comes
    from is a solid cell of the grid, the fluid cell receives its own
    population of the opposite direction. *)
Lemma stream_from_solid (windSpeed : number) st x y i :
  allocated st ->
  (0 <= x < COLS)%Z -> (0 <= y < ROWS)%Z -> (0 <= i < Q)%Z ->
  u8_get (barrier st) (y * COLS + x) = 0%Z ->
  (0 <= x - ex_at i < COLS)%Z -> (0 <= y - ey_at i < ROWS)%Z ->
  u8_get (barrier st) ((y - ey_at i) * COLS + (x - ex_at i)) <> 0%Z ->
  ta_get (n0 (simulate windSpeed st)) ((y * COLS + x) * Q + i)
  = fround (ta_get (n0 (collide (inflowSpeed windSpeed) st))
              ((y * COLS + x) * Q + opp_at i)).
Proof.
  intros Hal Hx Hy Hi Hfluid Hsx Hsy Hsolid.
  rewrite simulate_population by assumption.
  unfold streamDir. decide_tests. cbn [andb].
  apply Z.eqb_neq in Hsolid. rewrite Hsolid.
  apply written_value. apply (allocated_index st x y i Hal Hx Hy Hi).
Qed.

(** Streaming inside the grid: from a fluid cell the population moves on
    along its direction. *)
Lemma stream_from_fluid (windSpeed : number) st x y i :
  allocated st ->
  (0 <= x < COLS)%Z -> (0 <= y < ROWS)%Z -> (0 <= i < Q)%Z ->
  u8_get (barrier st) (y * COLS + x) = 0%Z ->
  (0 <= x - ex_at i < COLS)%Z -> (0 <= y - ey_at i < ROWS)%Z ->
  u8_get (barrier st) ((y - ey_at i) * COLS + (x - ex_at i)) = 0%Z ->
  ta_get (n0 (simulate windSpeed st)) ((y * COLS + x) * Q + i)
  = fround (ta_get (n0 (collide (inflowSpeed windSpeed) st))
              (((y - ey_at i) * COLS + (x - ex_at i)) * Q + i)).
Proof.
  intros Hal Hx Hy Hi Hfluid Hsx Hsy Hsrc.
  rewrite simulate_population by assumption.
  unfold streamDir. decide_tests. cbn [andb].
  rewrite Hsrc. change (0 =? 0)%Z with true. cbv iota.
  apply written_value. apply (allocated_index st x y i Hal Hx Hy Hi).
Qed.

(** A source row above or below the grid is wrapped around; the cell of
    the wrapped row is read whether it is solid or not. *)
Lemma stream_wrapped (windSpeed : number) st x y i :
  allocated st ->
  (0 <= x < COLS)%Z -> (0 <= y < ROWS)%Z -> (0 <= i < Q)%Z ->
  u8_get (barrier st) (y * COLS + x) = 0%Z ->
  (0 <= x - ex_at i < COLS)%Z ->
  (y - ey_at i < 0 \/ ROWS <= y - ey_at i)%Z ->
  ta_get (n0 (simulate windSpeed st)) ((y * COLS + x) * Q + i)
  = fround (ta_get (n0 (collide (inflowSpeed windSpeed) st))
              ((Z.rem (y - ey_at i + ROWS) ROWS * COLS + (x - ex_at i)) * Q + i)).
Proof.
  intros Hal Hx Hy Hi Hfluid Hsx Hsy.
  rewrite simulate_population by assumption.
  unfold streamDir.
  destruct Hsy as [Hsy|Hsy]; decide_tests; cbn [andb orb];
    apply written_value; apply (allocated_index st x y i Hal Hx Hy Hi).
Qed.

(** A source column left of the grid, in a row of the grid: the cell
    receives the lattice weight of the direction. *)
Lemma stream_from_left (windSpeed : number) st x y i :
  allocated st ->
  (0 <= x < COLS)%Z -> (0 <= y < ROWS)%Z -> (0 <= i < Q)%Z ->
  u8_get (barrier st) (y * COLS + x) = 0%Z ->
  (x - ex_at i < 0)%Z -> (0 <= y - ey_at i < ROWS)%Z ->
  ta_get (n0 (simulate windSpeed st)) ((y * COLS + x) * Q + i)
  = fround (w_at i).
Proof.
  intros Hal Hx Hy Hi Hfluid Hsx Hsy.
  rewrite simulate_population by assumption.
  unfold streamDir. decide_tests. cbn [andb orb].
  apply written_value. apply (allocated_index st x y i Hal Hx Hy Hi).
Qed.

(** A source left of the grid and above or below it: the streaming loop
    writes nothing, the population is what the next buffer held. *)
Lemma stream_from_corner (windSpeed : number) st x y i :
  (0 <= x < COLS)%Z -> (0 <= y < ROWS)%Z -> (0 <= i < Q)%Z ->
  u8_get (barrier st) (y * COLS + x) = 0%Z ->
  (x - ex_at i < 0)%Z ->
  (y - ey_at i < 0 \/ ROWS <= y - ey_at i)%Z ->
  ta_get (n0 (simulate windSpeed st)) ((y * COLS + x) * Q + i)
  = ta_get (n1 st) ((y * COLS + x) * Q + i).
Proof.
  intros Hx Hy Hi Hfluid Hsx Hsy.
  rewrite simulate_population by assumption.
  unfold streamDir.
  destruct Hsy as [Hsy|Hsy]; decide_tests; cbn [andb orb]; reflexivity.
Qed.

Local Open Scope float_scope.

Lemma allocated_rest : allocated Samples.rest.
Proof. unfold allocated. repeat apply conj; vm_compute; reflexivity. Qed.

Lemma allocated_seam : allocated Samples.seam.
Proof. unfold allocated. repeat apply conj; vm_compute; reflexivity. Qed.

Lemma allocated_diverged : allocated Samples.diverged.
Proof. unfold allocated. repeat apply conj; vm_compute; reflexivity. Qed.

(** Across the periodic edge there is no bounce-back: when [(x, 0)] is
    fluid and [(x, ROWS - 1)] is solid, direction 2 of the fluid cell
    receives the population stored in the solid cell, whatever the fluid
    cell itself sends towards it in direction 4. *)
Lemma stream_across_seam_from_solid (windSpeed : number) (st : Tunnel) (x : Z) :
  allocated st -> (0 <= x < COLS)%Z ->
  u8_get (barrier st) (0 * COLS + x) = 0%Z ->
  u8_get (barrier st) ((ROWS - 1) * COLS + x) <> 0%Z ->
  ta_get (n0 (simulate windSpeed st)) ((0 * COLS + x) * Q + 2)
  = fround (ta_get (n0 st) (((ROWS - 1) * COLS + x) * Q + 2)).
Proof.
  intros Hal Hx Hfluid Hsolid.
  rewrite (stream_wrapped windSpeed st x 0 2); try assumption.
  - change (Z.rem (0 - ey_at 2 + ROWS) ROWS) with (ROWS - 1)%Z.
    change (x - ex_at 2)%Z with (x - 0)%Z. rewrite Z.sub_0_r.
    rewrite collide_solid; try assumption.
    + reflexivity.
    + unfold ROWS. lia.
    + unfold Q. lia.
  - unfold ROWS. lia.
  - unfold Q. lia.
  - change (x - ex_at 2)%Z with (x - 0)%Z. lia.
  - left. vm_compute. reflexivity.
Qed.

(** C8 (the code departs from the specification). In the sample state the cell
    [(5, 0)] is fluid and its neighbour across the periodic edge,
    [(5, ROWS - 1)], is solid.  After the collision loop the fluid cell
    holds 0.179... in direction 4, which points at the solid cell.  After
    the step its direction 2, the opposite one, does not hold that
    population but 0.111..., the value read out of the solid cell. *)
Theorem C8_no_bounce_back_across_the_seam :
  let st := Samples.seam in
  let fluid := (0 * COLS + 5)%Z in
  let solid := ((ROWS - 1) * COLS + 5)%Z in
  u8_get (barrier st) fluid = 0%Z /\
  u8_get (barrier st) solid = 1%Z /\
  (ex_at 4, ey_at 4, opp_at 4) = (0, -1, 2)%Z /\
  ta_get (n0 (collide (inflowSpeed 45) st)) (fluid * Q + 4)
  = 0.17901234328746796 /\
  ta_get (n0 st) (solid * Q + 2) = 0.1111111119389534 /\
  ta_get (n0 (simulate 45 st)) (fluid * Q + 2) = 0.1111111119389534.
Proof.
  cbv zeta.
  split; [vm_compute; reflexivity|].
  split; [vm_compute; reflexivity|].
  split; [vm_compute; reflexivity|].
  split.
  { rewrite (collide_fluid (inflowSpeed 45) Samples.seam 5 0 4)
      by (unfold COLS, ROWS, Q; lia).
    vm_compute. reflexivity. }
  split; [vm_compute; reflexivity|].
  rewrite (stream_wrapped 45 Samples.seam 5 0 2).
  - rewrite (collide_solid (inflowSpeed 45) Samples.seam
               (5 - ex_at 2) (Z.rem (0 - ey_at 2 + ROWS) ROWS) 2).
    + vm_compute. reflexivity.
    + vm_compute. split; [discriminate|reflexivity].
    + vm_compute. split; [discriminate|reflexivity].
    + vm_compute. split; [discriminate|reflexivity].
    + vm_compute. discriminate.
  - apply allocated_seam.
  - vm_compute. split; [discriminate|reflexivity].
  - vm_compute. split; [discriminate|reflexivity].
  - vm_compute. split; [discriminate|reflexivity].
  - vm_compute. reflexivity.
  - vm_compute. split; [discriminate|reflexivity].
  - left. vm_compute. reflexivity.
Qed.

(** The part of C8 that holds: towards a solid cell of the grid itself
    the population [j] of a fluid cell comes back, after the step, in the
    opposite direction of the same cell. *)
Lemma bounce_back_inside (windSpeed : number) (st : Tunnel) (x y j : Z) :
  allocated st ->
  (0 <= x < COLS)%Z -> (0 <= y < ROWS)%Z -> (0 <= j < Q)%Z ->
  u8_get (barrier st) (y * COLS + x) = 0%Z ->
  (0 <= x + ex_at j < COLS)%Z -> (0 <= y + ey_at j < ROWS)%Z ->
  u8_get (barrier st) ((y + ey_at j) * COLS + (x + ex_at j)) <> 0%Z ->
  ta_get (n0 (simulate windSpeed st)) ((y * COLS + x) * Q + opp_at j)
  = fround (ta_get (n0 (collide (inflowSpeed windSpeed) st))
              ((y * COLS + x) * Q + j)).
Proof.
  intros Hal Hx Hy Hj Hfluid Hsx Hsy Hsolid.
  assert (Hopp : (0 <= opp_at j < Q)%Z /\ ex_at (opp_at j) = (- ex_at j)%Z /\
                 ey_at (opp_at j) = (- ey_at j)%Z /\ opp_at (opp_at j) = j).
  { unfold Q in Hj.
    assert (Hcases : (j = 0 \/ j = 1 \/ j = 2 \/ j = 3 \/ j = 4 \/ j = 5 \/
                      j = 6 \/ j = 7 \/ j = 8)%Z) by lia.
    repeat (destruct Hcases as [-> | Hcases]); try subst j;
      vm_compute; repeat split; congruence. }
  destruct Hopp as (Hi & Hex & Hey & Hback).
  rewrite (stream_from_solid windSpeed st x y (opp_at j)); try assumption.
  - now rewrite Hback.
  - rewrite Hex. lia.
  - rewrite Hey. lia.
  - rewrite Hex, Hey.
    replace (y - - ey_at j)%Z with (y + ey_at j)%Z by lia.
    replace (x - - ex_at j)%Z with (x + ex_at j)%Z by lia.
    assumption.
Qed.

(** C9 (counterexample). At wind speed 45 the inflow equilibrium of
    direction 1 is 0.1438..., but the cell [(0, 50)] of the inflow column,
    whose source for direction 1 lies left of the grid, receives
    0.1111..., the lattice weight. *)
Lemma C9_left_edge_gets_weight_not_inflow_equilibrium :
  let st := Samples.rest in
  u8_get (barrier st) (50 * COLS + 0) = 0%Z /\
  (0 - ex_at 1 < 0)%Z /\
  ta_get (n0 (simulate 45 st)) ((50 * COLS + 0) * Q + 1) = 0.1111111119389534 /\
  equilibrium 1 1 (inflowSpeed 45) 0 = 0.14381111111111111 /\
  fround (equilibrium 1 1 (inflowSpeed 45) 0) = 0.14381110668182373.
Proof.
  cbv zeta.
  split; [vm_compute; reflexivity|].
  split; [vm_compute; reflexivity|].
  split; [|split; vm_compute; reflexivity].
  rewrite (stream_from_left 45 Samples.rest 0 50 1).
  - vm_compute. reflexivity.
  - apply allocated_rest.
  - vm_compute. split; [discriminate|reflexivity].
  - vm_compute. split; [discriminate|reflexivity].
  - vm_compute. split; [discriminate|reflexivity].
  - vm_compute. reflexivity.
  - vm_compute. reflexivity.
  - vm_compute. split; [discriminate|reflexivity].
Qed.

(** C9 (amended). For a fluid cell and a direction whose source lies left
    of the grid, in a row of the grid, the incoming population is the
    lattice weight of the direction (the equilibrium of the fluid at
    rest); for a source one row above the grid the population is read from
    the bottom row, and for a source one row below the grid from the top
    row, in the column of the source. *)
Theorem C9_edge_sources (windSpeed : number) (st : Tunnel) (x y i : Z) :
  allocated st ->
  (0 <= x < COLS)%Z -> (0 <= y < ROWS)%Z -> (0 <= i < Q)%Z ->
  u8_get (barrier st) (y * COLS + x) = 0%Z ->
  let srcX := (x - ex_at i)%Z in
  let srcY := (y - ey_at i)%Z in
  let after := ta_get (n0 (simulate windSpeed st)) ((y * COLS + x) * Q + i) in
  let streamed := n0 (collide (inflowSpeed windSpeed) st) in
  ((srcX < 0)%Z -> (0 <= srcY < ROWS)%Z -> after = fround (w_at i)) /\
  ((0 <= srcX < COLS)%Z -> srcY = (-1)%Z ->
   after = fround (ta_get streamed (((ROWS - 1) * COLS + srcX) * Q + i))) /\
  ((0 <= srcX < COLS)%Z -> srcY = ROWS ->
   after = fround (ta_get streamed ((0 * COLS + srcX) * Q + i))).
Proof.
  intros Hal Hx Hy Hi Hfluid. cbv zeta. repeat split.
  - intros Hsx Hsy. now apply stream_from_left.
  - intros Hsx Hsy.
    rewrite (stream_wrapped windSpeed st x y i); try assumption.
    + rewrite Hsy. reflexivity.
    + left. lia.
  - intros Hsx Hsy.
    rewrite (stream_wrapped windSpeed st x y i); try assumption.
    + rewrite Hsy. reflexivity.
    + right. lia.
Qed.

(** C9 (witness): the corner cell [(0, 0)] of the fluid at rest and
    direction 8. *)
Lemma C9_edge_sources_witness :
  let st := Samples.rest in
  let x := 0%Z in let y := 0%Z in let i := 8%Z in
  allocated st /\
  (0 <= x < COLS)%Z /\ (0 <= y < ROWS)%Z /\ (0 <= i < Q)%Z /\
  u8_get (barrier st) (y * COLS + x) = 0%Z /\
  let srcX := (x - ex_at i)%Z in
  let srcY := (y - ey_at i)%Z in
  let after := ta_get (n0 (simulate 45 st)) ((y * COLS + x) * Q + i) in
  let streamed := n0 (collide (inflowSpeed 45) st) in
  ((srcX < 0)%Z -> (0 <= srcY < ROWS)%Z -> after = fround (w_at i)) /\
  ((0 <= srcX < COLS)%Z -> srcY = (-1)%Z ->
   after = fround (ta_get streamed (((ROWS - 1) * COLS + srcX) * Q + i))) /\
  ((0 <= srcX < COLS)%Z -> srcY = ROWS ->
   after = fround (ta_get streamed ((0 * COLS + srcX) * Q + i))).
Proof.
  cbv zeta.
  split; [apply allocated_rest|].
  split; [vm_compute; split; [discriminate|reflexivity]|].
  split; [vm_compute; split; [discriminate|reflexivity]|].
  split; [vm_compute; split; [discriminate|reflexivity]|].
  split; [vm_compute; reflexivity|].
  apply (C9_edge_sources 45 Samples.rest 0 0 8).
  - apply allocated_rest.
  - vm_compute; split; [discriminate|reflexivity].
  - vm_compute; split; [discriminate|reflexivity].
  - vm_compute; split; [discriminate|reflexivity].
  - vm_compute; reflexivity.
Defined.

End StreamingClaims.

(* ===================================================================== *)
(** * Rounding to binary32 and the velocity clamp                         *)
(* ===================================================================== *)


Section RoundingFacts.
Import JS.

Local Open Scope Z_scope.

Lemma digits2_pos_bounds (m : positive) :
  2 ^ (Zpos (digits2_pos m) - 1) <= Zpos m < 2 ^ Zpos (digits2_pos m).
Proof.
  induction m as [m IH|m IH|]; cbn [digits2_pos].
  - rewrite Pos2Z.inj_succ.
    replace (Z.succ (Zpos (digits2_pos m)) - 1) with (Z.succ (Zpos (digits2_pos m) - 1)) by lia.
    rewrite !Z.pow_succ_r by lia. lia.
  - rewrite Pos2Z.inj_succ.
    replace (Z.succ (Zpos (digits2_pos m)) - 1) with (Z.succ (Zpos (digits2_pos m) - 1)) by lia.
    rewrite !Z.pow_succ_r by lia. lia.
  - cbn. lia.
Qed.

Lemma iter_pos_nat {A} (f : A -> A) (p : positive) (a : A) :
  SpecFloat.iter_pos f p a = Nat.iter (Pos.to_nat p) f a.
Proof.
  revert a. induction p as [p IH|p IH|]; intros a; cbn [SpecFloat.iter_pos].
  - rewrite !IH, Pos2Nat.inj_xI.
    replace (S (2 * Pos.to_nat p)) with (Pos.to_nat p + (Pos.to_nat p + 1))%nat by lia.
    rewrite !Nat.iter_add. reflexivity.
  - rewrite !IH, Pos2Nat.inj_xO.
    replace (2 * Pos.to_nat p)%nat with (Pos.to_nat p + Pos.to_nat p)%nat by lia.
    rewrite Nat.iter_add. reflexivity.
  - reflexivity.
Qed.

Lemma shr_1_spec (mrs : shr_record) :
  0 <= shr_m mrs ->
  shr_m (shr_1 mrs) = shr_m mrs / 2 /\
  shr_r (shr_1 mrs) = Z.odd (shr_m mrs).
Proof.
  destruct mrs as [m r s]. cbn [shr_m]. intros Hm.
  destruct m as [|[p|p|]|p]; cbn [shr_1 shr_m shr_r]; try lia.
  - split; reflexivity.
  - split; [|reflexivity]. rewrite Pos2Z.inj_xI. 
    rewrite <- (Z.div_unique (2 * Zpos p + 1) 2 (Zpos p) 1); lia.
  - split; [|reflexivity]. rewrite Pos2Z.inj_xO.
    rewrite <- (Z.div_unique (2 * Zpos p) 2 (Zpos p) 0); lia.
  - split; reflexivity.
Qed.

Lemma shr_iter_spec (k : nat) (mrs : shr_record) :
  0 <= shr_m mrs ->
  shr_m (Nat.iter k shr_1 mrs) = shr_m mrs / 2 ^ Z.of_nat k /\
  ((1 <= k)%nat -> shr_r (Nat.iter k shr_1 mrs) = true ->
   2 ^ (Z.of_nat k - 1) <= shr_m mrs mod 2 ^ Z.of_nat k).
Proof.
  intros Hm. induction k as [|k IH].
  - cbn. split; [now rewrite Z.div_1_r|lia].
  - rewrite Nat.iter_succ. destruct IH as [IHm _].
    assert (Hk : 0 <= shr_m (Nat.iter k shr_1 mrs)).
    { rewrite IHm. apply Z.div_pos; [assumption|]. apply Z.pow_pos_nonneg; lia. }
    destruct (shr_1_spec _ Hk) as [H1 H2].
    rewrite H1, H2, IHm. rewrite Nat2Z.inj_succ, Z.pow_succ_r by lia.
    split.
    + rewrite Z.div_div by (try apply Z.pow_pos_nonneg; lia). f_equal. lia.
    + intros _ Hodd.
      replace (Z.succ (Z.of_nat k) - 1) with (Z.of_nat k) by lia.
      rewrite (Z.mul_comm 2).
      rewrite Z.rem_mul_r by (try apply Z.pow_nonzero; lia).
      rewrite Zodd_mod in Hodd. apply Z.eqb_eq in Hodd.
      rewrite Hodd.
      pose proof (Z.mod_pos_bound (shr_m mrs) (2 ^ Z.of_nat k)
                    (Z.pow_pos_nonneg 2 (Z.of_nat k) ltac:(lia) ltac:(lia))).
      lia.
Qed.


Lemma round_nearest_even_bounds (mrs : shr_record) :
  shr_m mrs <= round_nearest_even (shr_m mrs) (loc_of_shr_record mrs)
            <= shr_m mrs + (if shr_r mrs then 1 else 0).
Proof.
  destruct mrs as [m [] []]; cbn; try destruct (Z.even m); lia.
Qed.

Lemma shr_spec (mrs : shr_record) (e n : Z) :
  0 <= shr_m mrs ->
  snd (shr mrs e n) = e + Z.max n 0 /\
  shr_m (fst (shr mrs e n)) = shr_m mrs / 2 ^ Z.max n 0 /\
  (0 < n -> shr_r (fst (shr mrs e n)) = true ->
   2 ^ (n - 1) <= shr_m mrs mod 2 ^ n).
Proof.
  intros Hm. destruct n as [|p|p]; cbn [shr fst snd].
  - rewrite Z.max_id, Z.add_0_r, Z.div_1_r. repeat split; lia.
  - rewrite iter_pos_nat.
    destruct (shr_iter_spec (Pos.to_nat p) mrs Hm) as [H1 H2].
    rewrite positive_nat_Z in H1, H2.
    replace (Z.max (Zpos p) 0) with (Zpos p) by lia.
    repeat split; [assumption|]. intros _. apply H2. lia.
  - replace (Z.max (Zneg p) 0) with 0 by lia.
    rewrite Z.add_0_r, Z.div_1_r. repeat split; lia.
Qed.

(** The steps of rounding the binary64 number [m * 2^e] to binary32. *)
Lemma binary_round32_spec (s : bool) (m : positive) (e : Z) :
  let d := Zpos (digits2_pos m) in
  let e1 := Z.max (d + e - 24) (-149) in
  0 < e1 - e ->
  exists m1,
    0 <= m1 /\
    m1 * 2 ^ (e1 - e) <= Zpos m + 2 ^ (e1 - e - 1) /\
    let n2 := Z.max (Z.max (Zdigits2 m1 + e1 - 24) (-149) - e1) 0 in
    binary_round 24 128 s m e
    = match m1 / 2 ^ n2 with
      | Z0 => S754_zero s
      | Zpos m2 =>
          if e1 + n2 <=? 104 then S754_finite s m2 (e1 + n2) else S754_infinity s
      | Zneg _ => S754_nan
      end.
Proof.
  intros d e1 Hn.
  unfold binary_round.
  change (fexp 24 128 (Zpos (digits2_pos m) + e)) with e1.
  unfold shl_align.
  destruct (e1 - e) as [|p|p] eqn:Hp; try lia.
  unfold binary_round_aux, shr_fexp.
  change (Zdigits2 (Zpos m)) with d.
  change (fexp 24 128 (d + e)) with e1.
  rewrite Hp.
  set (start := shr_record_of_loc (Zpos m) loc_Exact).
  assert (Hstart : 0 <= shr_m start) by (cbn; lia).
  destruct (shr_spec start e (Zpos p) Hstart) as (He' & Hq & Hr).
  destruct (shr start e (Zpos p)) as [mrs' e'] eqn:Hshr.
  cbn [fst snd] in He', Hq, Hr.
  replace (Z.max (Zpos p) 0) with (Zpos p) in He', Hq by lia.
  change (shr_m start) with (Zpos m) in Hq, Hr.
  set (m1 := round_nearest_even (shr_m mrs') (loc_of_shr_record mrs')).
  pose proof (round_nearest_even_bounds mrs') as Hm1. fold m1 in Hm1.
  assert (Hpow : 0 < 2 ^ Zpos p) by (apply Z.pow_pos_nonneg; lia).
  assert (Hq0 : 0 <= shr_m mrs').
  { rewrite Hq. apply Z.div_pos; lia. }
  assert (He1 : e' = e1) by lia.
  exists m1. split; [lia|]. split.
  - pose proof (Z.div_mod (Zpos m) (2 ^ Zpos p) ltac:(lia)) as Hdm.
    pose proof (Z.mod_pos_bound (Zpos m) (2 ^ Zpos p) Hpow) as Hmod.
    rewrite <- Hq in Hdm.
    assert (Hhalf : 2 ^ Zpos p = 2 * 2 ^ (Zpos p - 1)).
    { rewrite <- Z.pow_succ_r by lia. f_equal. lia. }
    destruct (shr_r mrs') eqn:Hrb.
    + specialize (Hr ltac:(lia) eq_refl). nia.
    + nia.
  - cbv zeta.
    set (start2 := shr_record_of_loc m1 loc_Exact).
    assert (Hstart2 : 0 <= shr_m start2) by (cbn; lia).
    change (fexp 24 128 (Zdigits2 m1 + e')) with (Z.max (Zdigits2 m1 + e' - 24) (-149)).
    rewrite He1.
    destruct (shr_spec start2 e1 (Z.max (Zdigits2 m1 + e1 - 24) (-149) - e1) Hstart2)
      as (He2 & Hq2 & _).
    destruct (shr start2 e1 _) as [mrs2 e2] eqn:Hshr2.
    cbn [fst snd] in He2, Hq2.
    change (shr_m start2) with m1 in Hq2.
    rewrite Hq2, He2. reflexivity.
Qed.


Lemma Prim2SF_035 : Prim2SF 0.35 = S754_finite false m035 (-54).
Proof. vm_compute. reflexivity. Qed.

Lemma bounded_binary64 (m : positive) (e : Z) :
  bounded prec emax m e = true ->
  let d := Zpos (digits2_pos m) in
  d <= 53 /\ -1074 <= e <= 971 /\ (d = 53 \/ e = -1074).
Proof.
  unfold bounded, canonical_mantissa.
  change (fexp prec emax (Zpos (digits2_pos m) + e))
    with (Z.max (Zpos (digits2_pos m) + e - 53) (-1074)).
  change (emax - prec) with 971.
  intros H. apply andb_true_iff in H. destruct H as [H1 H2].
  apply Z.eqb_eq in H1. apply Z.leb_le in H2. cbv zeta. lia.
Qed.

(** A binary64 number of magnitude at most 0.35 rounds to zero or to a
    binary32 number of magnitude at most [11744051 * 2^-25], the largest
    binary32 number below 0.35. *)
Lemma binary_round32_small (s : bool) (m : positive) (e : Z) :
  bounded prec emax m e = true ->
  e < -54 \/ (e = -54 /\ Zpos m <= Zpos m035) ->
  binary_round 24 128 s m e = S754_zero s \/
  exists m2 e2,
    binary_round 24 128 s m e = S754_finite s m2 e2 /\
    -149 <= e2 <= -24 /\
    Zpos m2 <= 2 ^ 24 /\
    Zpos m2 * 2 ^ (e2 + 149) <= 11744051 * 2 ^ 124.
Proof.
  intros Hb Hle.
  destruct (bounded_binary64 m e Hb) as (Hd & He & Hcanon).
  pose proof (digits2_pos_bounds m) as Hm.
  set (d := Zpos (digits2_pos m)) in *.
  set (e1 := Z.max (d + e - 24) (-149)).
  assert (Hn : 0 < e1 - e) by lia.
  destruct (binary_round32_spec s m e Hn) as (m1 & Hm1 & Hround & Hres).
  fold d in Hround, Hres. fold e1 in Hround, Hres. cbv zeta in Hres.
  set (n := e1 - e) in *.
  assert (Hpn : 0 < 2 ^ (n - 1)) by (apply Z.pow_pos_nonneg; lia).
  assert (Hhalf : 2 ^ n = 2 * 2 ^ (n - 1)).
  { rewrite <- Z.pow_succ_r by lia. f_equal. lia. }
  (* the rounded mantissa has at most 24 bits, or is 2^24 *)
  assert (Hm1le : m1 <= 2 ^ 24).
  { assert (Hdn : 2 ^ d <= 2 ^ 24 * 2 ^ n).
    { rewrite <- Z.pow_add_r by lia. apply Z.pow_le_mono_r; lia. }
    change (2 ^ 24) with 16777216 in *. nia. }
  assert (He1 : -149 <= e1 <= -25) by lia.
  (* the bound on the rounded value, in units of 2^-149 *)
  assert (Hval : m1 * 2 ^ (e1 + 149) <= 11744051 * 2 ^ 124).
  { destruct Hle as [Hlt|[Heq Hmle]].
    - assert (e1 + 149 <= 123) by lia.
      assert (2 ^ (e1 + 149) <= 2 ^ 123) by (apply Z.pow_le_mono_r; lia).
      assert (0 < 2 ^ (e1 + 149)) by (apply Z.pow_pos_nonneg; lia).
      change (2 ^ 24) with 16777216 in *.
      change (2 ^ 123) with 10633823966279326983230456482242756608 in *.
      change (2 ^ 124) with 21267647932558653966460912964485513216.
      nia.
    - assert (Hd53 : d = 53) by lia.
      assert (He1' : e1 = -25) by lia.
      assert (Hn29 : n = 29) by lia.
      rewrite Hn29 in Hround.
      change (2 ^ 29) with 536870912 in Hround.
      change (2 ^ (29 - 1)) with 268435456 in Hround.
      rewrite He1'. change (2 ^ (-25 + 149)) with (2 ^ 124).
      unfold m035 in Hmle.
      assert (m1 <= 11744051) by lia.
      assert (0 < 2 ^ 124) by (apply Z.pow_pos_nonneg; lia).
      nia. }
  set (n2 := Z.max (Z.max (Zdigits2 m1 + e1 - 24) (-149) - e1) 0) in *.
  assert (Hn2 : 0 <= n2 <= 1).
  { assert (Zdigits2 m1 <= 25); [|lia].
    destruct m1 as [|p|p]; cbn [Zdigits2]; try lia.
    pose proof (digits2_pos_bounds p) as Hp.
    destruct (Z.le_gt_cases (Zpos (digits2_pos p)) 25) as [|Hbig]; [assumption|].
    assert (2 ^ 25 <= 2 ^ (Zpos (digits2_pos p) - 1))
      by (apply Z.pow_le_mono_r; lia).
    change (2 ^ 24) with 16777216 in *. change (2 ^ 25) with 33554432 in *. lia. }
  assert (Hp2 : 0 < 2 ^ n2) by (apply Z.pow_pos_nonneg; lia).
  pose proof (Z.mul_div_le m1 (2 ^ n2) Hp2) as Hdiv.
  pose proof (Z.div_pos m1 (2 ^ n2) Hm1 Hp2) as Hdiv0.
  destruct (m1 / 2 ^ n2) as [|m2|m2] eqn:Hq; [now left| |lia].
  right. exists m2, (e1 + n2).
  destruct (Z.leb_spec (e1 + n2) 104); [|lia].
  split; [assumption|]. split; [lia|]. split.
  - assert (1 <= 2 ^ n2) by lia. nia.
  - replace (e1 + n2 + 149) with (n2 + (e1 + 149)) by lia.
    rewrite Z.pow_add_r by lia.
    assert (0 < 2 ^ (e1 + 149)) by (apply Z.pow_pos_nonneg; lia).
    nia.
Qed.


Lemma iter_xO_spec (m k : positive) :
  digits2_pos (Pos.iter xO m k) = (digits2_pos m + k)%positive /\
  Zpos (Pos.iter xO m k) = Zpos m * 2 ^ Zpos k.
Proof.
  induction k as [|k IH] using Pos.peano_ind.
  - cbn [Pos.iter digits2_pos]. split; [lia|]. change (2 ^ 1) with 2. lia.
  - rewrite Pos.iter_succ. cbn [digits2_pos]. destruct IH as [-> IH2].
    split; [lia|].
    rewrite Pos2Z.inj_xO, IH2, Pos2Z.inj_succ, Z.pow_succ_r by lia. lia.
Qed.

(** A mantissa with fewer than 53 bits is brought to 53 bits exactly. *)
Lemma binary_round64_exact (s : bool) (m : positive) (e : Z) :
  let d := Zpos (digits2_pos m) in
  d < 53 -> -1074 <= d + e - 53 <= 971 ->
  binary_round prec emax s m e
  = S754_finite s (Pos.iter xO m (Z.to_pos (53 - d))) (d + e - 53).
Proof.
  intros d Hd He. unfold binary_round.
  change (fexp prec emax (Zpos (digits2_pos m) + e))
    with (Z.max (d + e - 53) (-1074)).
  replace (Z.max (d + e - 53) (-1074)) with (d + e - 53) by lia.
  unfold shl_align.
  destruct (d + e - 53 - e) as [|p|p] eqn:Hp; try lia.
  assert (Hpd : Z.to_pos (53 - d) = p) by lia. rewrite Hpd.
  destruct (iter_xO_spec m p) as [Hdig Hval].
  unfold binary_round_aux, shr_fexp.
  cbn [Zdigits2]. rewrite Hdig.
  change (fexp prec emax (Zpos (digits2_pos m + p) + (d + e - 53)))
    with (Z.max (Zpos (digits2_pos m + p) + (d + e - 53) - 53) (-1074)).
  replace (Z.max (Zpos (digits2_pos m + p) + (d + e - 53) - 53) (-1074)
           - (d + e - 53)) with 0 by (unfold d in *; lia).
  cbn [shr shr_record_of_loc loc_of_shr_record shr_m shr_r shr_s
       round_nearest_even Zdigits2].
  rewrite Hdig.
  change (fexp prec emax (Zpos (digits2_pos m + p) + (d + e - 53)))
    with (Z.max (Zpos (digits2_pos m + p) + (d + e - 53) - 53) (-1074)).
  replace (Z.max (Zpos (digits2_pos m + p) + (d + e - 53) - 53) (-1074)
           - (d + e - 53)) with 0 by (unfold d in *; lia).
  cbn [shr shr_m].
  change (emax - prec) with 971.
  destruct (Z.leb_spec (d + e - 53) 971); [reflexivity|lia].
Qed.

(** A mantissa of 53 bits with an exponent in range is left as it is. *)
Lemma binary_round64_canonical (s : bool) (m : positive) (e : Z) :
  Zpos (digits2_pos m) = 53 -> -1074 <= e <= 971 ->
  binary_round prec emax s m e = S754_finite s m e.
Proof.
  intros Hd He. unfold binary_round.
  change (fexp prec emax (Zpos (digits2_pos m) + e))
    with (Z.max (Zpos (digits2_pos m) + e - 53) (-1074)).
  rewrite Hd. replace (Z.max (53 + e - 53) (-1074)) with e by lia.
  unfold shl_align. rewrite Z.sub_diag.
  unfold binary_round_aux, shr_fexp.
  cbn [Zdigits2]. rewrite Hd.
  change (fexp prec emax (53 + e)) with (Z.max (53 + e - 53) (-1074)).
  replace (Z.max (53 + e - 53) (-1074) - e) with 0 by lia.
  cbn [shr shr_record_of_loc loc_of_shr_record shr_m shr_r shr_s
       round_nearest_even Zdigits2].
  rewrite Hd.
  change (fexp prec emax (53 + e)) with (Z.max (53 + e - 53) (-1074)).
  replace (Z.max (53 + e - 53) (-1074) - e) with 0 by lia.
  cbn [shr shr_m].
  change (emax - prec) with 971.
  destruct (Z.leb_spec e 971); [reflexivity|lia].
Qed.

(** The binary64 number that [SF2Prim] makes of a short mantissa. *)
Lemma Prim2SF_SF2Prim_short (s : bool) (m : positive) (e : Z) :
  let d := Zpos (digits2_pos m) in
  d < 53 -> -1074 <= d + e - 53 <= 971 ->
  Prim2SF (SF2Prim (S754_finite s m e))
  = S754_finite s (Pos.iter xO m (Z.to_pos (53 - d))) (d + e - 53).
Proof.
  intros d Hd He.
  assert (Hbase :
    Prim2SF (Z.ldexp (of_uint63 (Uint63Axioms.of_Z (Zpos m))) e)
    = S754_finite false (Pos.iter xO m (Z.to_pos (53 - d))) (d + e - 53)).
  { rewrite Z_ldexp_spec, of_uint63_spec, Uint63.of_Z_spec.
    pose proof (digits2_pos_bounds m) as Hm. fold d in Hm.
    assert (Hsmall : Zpos m < Uint63Axioms.wB).
    { assert (2 ^ d <= 2 ^ 63) by (apply Z.pow_le_mono_r; lia).
      change Uint63Axioms.wB with (2 ^ 63). lia. }
    rewrite Z.mod_small by lia.
    cbn [binary_normalize].
    rewrite binary_round64_exact by (fold d; lia).
    fold d. cbn [SFldexp].
    destruct (iter_xO_spec m (Z.to_pos (53 - d))) as [Hdig _].
    rewrite binary_round64_canonical.
    - f_equal. lia.
    - rewrite Hdig. unfold d in *. lia.
    - lia. }
  unfold SF2Prim. cbv zeta. destruct s.
  - rewrite FloatAxioms.opp_spec, Hbase. reflexivity.
  - exact Hbase.
Qed.


(** The comparison of a positive binary64 number with 0.35, on mantissa
    and exponent. *)
Lemma SFleb_035 (m : positive) (e : Z) :
  SFleb (S754_finite false m e) (S754_finite false m035 (-54)) = true <->
  (e < -54 \/ (e = -54 /\ Zpos m <= Zpos m035)).
Proof.
  unfold SFleb, SFcompare.
  destruct (Z.compare_spec e (-54)) as [Heq|Hlt|Hgt].
  - rewrite Pos.compare_cont_spec. cbn [Pos.switch_Eq].
    rewrite Pos2Z.inj_compare.
    destruct (Z.compare_spec (Zpos m) (Zpos m035)) as [Hm|Hm|Hm]; split;
      intros H; try discriminate; try reflexivity.
    + right. split; [assumption|]. rewrite Hm. apply Z.le_refl.
    + right. split; [assumption|]. now apply Z.lt_le_incl.
    + exfalso. destruct H as [H|[_ H]].
      * rewrite Heq in H. now apply Z.lt_irrefl in H.
      * now apply Z.lt_nge in Hm.
  - split; [intros _; now left|reflexivity].
  - split; [discriminate|].
    intros [H|[H _]]; exfalso.
    + apply (Z.lt_irrefl e). now transitivity (-54).
    + rewrite H in Hgt. now apply Z.lt_irrefl in Hgt.
Qed.

(** A number that is neither above 0.35 nor below -0.35 has a mantissa and
    an exponent of magnitude at most 0.35. *)
Lemma SFltb_035_false (m : positive) (e : Z) :
  SFltb (S754_finite false m035 (-54)) (S754_finite false m e) = false ->
  e < -54 \/ (e = -54 /\ Zpos m <= Zpos m035).
Proof.
  unfold SFltb, SFcompare.
  destruct (Z.compare_spec (-54) e) as [Heq|Hlt|Hgt].
  - rewrite Pos.compare_cont_spec. cbn [Pos.switch_Eq].
    rewrite Pos2Z.inj_compare.
    destruct (Z.compare_spec (Zpos m035) (Zpos m)) as [Hm|Hm|Hm];
      intros H; try discriminate.
    + right. split; [now symmetry|]. rewrite Hm. apply Z.le_refl.
    + right. split; [now symmetry|]. now apply Z.lt_le_incl.
  - discriminate.
  - intros _. now left.
Qed.

Lemma SFltb_neg035_false (m : positive) (e : Z) :
  SFltb (S754_finite true m e) (S754_finite true m035 (-54)) = false ->
  e < -54 \/ (e = -54 /\ Zpos m <= Zpos m035).
Proof.
  unfold SFltb, SFcompare.
  destruct (Z.compare_spec e (-54)) as [Heq|Hlt|Hgt].
  - rewrite Pos.compare_cont_spec. cbn [Pos.switch_Eq].
    rewrite Pos2Z.inj_compare.
    destruct (Z.compare_spec (Zpos m) (Zpos m035)) as [Hm|Hm|Hm];
      cbn [CompOpp]; intros H; try discriminate.
    + right. split; [assumption|]. rewrite Hm. apply Z.le_refl.
    + right. split; [assumption|]. now apply Z.lt_le_incl.
  - intros _. now left.
  - discriminate.
Qed.

Lemma abs_fround_small (s : bool) (m2 : positive) (e2 : Z) :
  -149 <= e2 <= -24 ->
  Zpos m2 <= 2 ^ 24 ->
  Zpos m2 * 2 ^ (e2 + 149) <= 11744051 * 2 ^ 124 ->
  SFleb (SFabs (Prim2SF (SF2Prim (S754_finite s m2 e2))))
        (S754_finite false m035 (-54)) = true.
Proof.
  intros He2 Hm2 Hval.
  pose proof (digits2_pos_bounds m2) as Hdig.
  set (d := Zpos (digits2_pos m2)) in *.
  assert (Hd : d <= 25).
  { destruct (Z.le_gt_cases d 25) as [|Hbig]; [assumption|].
    assert (2 ^ 25 <= 2 ^ (d - 1)) by (apply Z.pow_le_mono_r; lia).
    change (2 ^ 24) with 16777216 in *. change (2 ^ 25) with 33554432 in *. lia. }
  assert (Hd1 : 1 <= d) by (unfold d; lia).
  rewrite Prim2SF_SF2Prim_short by (fold d; lia). fold d.
  cbn [SFabs]. apply SFleb_035.
  destruct (iter_xO_spec m2 (Z.to_pos (53 - d))) as [_ HM].
  rewrite HM. rewrite Z2Pos.id by lia.
  set (k := 53 - d) in *.
  assert (Hk : 28 <= k <= 52) by lia.
  assert (Hpk : 0 < 2 ^ k) by (apply Z.pow_pos_nonneg; lia).
  (* the mantissa has 53 bits *)
  assert (Hbig : 2 ^ 52 <= Zpos m2 * 2 ^ k).
  { replace 52 with ((d - 1) + k) by lia. rewrite Z.pow_add_r by lia. nia. }
  replace (d + e2 - 53) with (e2 - k) by lia.
  destruct (Z.lt_ge_cases (e2 - k) (-54)) as [|Hge]; [now left|].
  right.
  assert (Hmono : 2 ^ k * 2 ^ 95 <= 2 ^ (e2 + 149)).
  { rewrite <- Z.pow_add_r by lia. apply Z.pow_le_mono_r; lia. }
  assert (HM95 : Zpos m2 * 2 ^ k * 2 ^ 95 <= 11744051 * 2 ^ 124) by nia.
  change (2 ^ 124) with (536870912 * 2 ^ 95) in HM95.
  assert (H95 : 0 < 2 ^ 95) by (apply Z.pow_pos_nonneg; lia).
  assert (HMle : Zpos m2 * 2 ^ k <= 11744051 * 536870912) by nia.
  unfold m035. split; [|lia].
  destruct (Z.eq_dec (e2 - k) (-54)) as [|Hne]; [assumption|].
  exfalso.
  assert (Hmono2 : 2 ^ k * 2 ^ 96 <= 2 ^ (e2 + 149)).
  { rewrite <- Z.pow_add_r by lia. apply Z.pow_le_mono_r; lia. }
  assert (HM96 : Zpos m2 * 2 ^ k * 2 ^ 96 <= 11744051 * 2 ^ 124) by nia.
  change (2 ^ 124) with (268435456 * 2 ^ 96) in HM96.
  assert (H96 : 0 < 2 ^ 96) by (apply Z.pow_pos_nonneg; lia).
  assert (Zpos m2 * 2 ^ k <= 11744051 * 268435456) by nia.
  change (2 ^ 52) with 4503599627370496 in Hbig. lia.
Qed.

Local Open Scope float_scope.

(** Storing a number of magnitude at most 0.35 in a [Float32Array] leaves
    a number of magnitude at most 0.35. *)
Lemma fround_keeps_bound (v : float) :
  (abs v <=? 0.35) = true -> (abs (fround v) <=? 0.35) = true.
Proof.
  rewrite !leb_spec, !abs_spec, Prim2SF_035.
  unfold fround.
  pose proof (Prim2SF_valid v) as Hvalid.
  destruct (Prim2SF v) as [s|s| |s m e] eqn:Hv; intros Hle.
  - rewrite Hv. exact Hle.
  - discriminate.
  - discriminate.
  - cbn [SFabs] in Hle. apply SFleb_035 in Hle.
    cbn [valid_binary] in Hvalid.
    destruct (binary_round32_small s m e Hvalid Hle) as [Hz|(m2 & e2 & Hr & He2 & Hm2 & Hval)].
    + rewrite Hz. destruct s; vm_compute; reflexivity.
    + rewrite Hr. now apply abs_fround_small.
Qed.

Lemma is_nan_Prim2SF (v : float) : is_nan v = true -> Prim2SF v = S754_nan.
Proof.
  unfold is_nan. rewrite FloatAxioms.eqb_spec.
  destruct (Prim2SF v) as [[]|[]| |s m e]; try (cbn; intros; congruence).
  unfold SFeqb, SFcompare.
  destruct s; rewrite Z.compare_refl, Pos.compare_cont_refl; discriminate.
Qed.

Lemma fround_nan (v : float) : is_nan v = true -> is_nan (fround v) = true.
Proof.
  intros H. unfold fround. now rewrite (is_nan_Prim2SF v H).
Qed.

(** The clamped velocity is not a number, or its magnitude is at most
    0.35. *)
Lemma clamp_bound (u : float) :
  is_nan (WindTunnel.clamp u) = true \/ (abs (WindTunnel.clamp u) <=? 0.35) = true.
Proof.
  unfold WindTunnel.clamp. cbv zeta.
  destruct (0.35 <? u) eqn:Hhi.
  - right. vm_compute. reflexivity.
  - destruct (u <? opp 0.35) eqn:Hlo.
    + right. vm_compute. reflexivity.
    + rewrite leb_spec, abs_spec, Prim2SF_035.
      revert Hhi Hlo. rewrite !ltb_spec, FloatAxioms.opp_spec, Prim2SF_035.
      cbn [SFopp negb].
      unfold is_nan. rewrite FloatAxioms.eqb_spec.
      destruct (Prim2SF u) as [s|s| |s m e].
      * intros _ _. right. now destruct s.
      * destruct s; intros Hhi Hlo; [discriminate Hlo|discriminate Hhi].
      * intros _ _. now left.
      * destruct s.
        -- intros _ Hlo. right. cbn [SFabs]. apply SFleb_035.
           now apply SFltb_neg035_false.
        -- intros Hhi _. right. cbn [SFabs]. apply SFleb_035.
           now apply SFltb_035_false.
Qed.

Lemma stored_velocity_bound (u : float) :
  let v := fround (WindTunnel.clamp u) in
  is_nan v = true \/ (abs v <=? 0.35) = true.
Proof.
  cbv zeta. destruct (clamp_bound u) as [Hnan|Hle].
  - left. now apply fround_nan.
  - right. now apply fround_keeps_bound.
Qed.

End RoundingFacts.

Section VelocityClaims.
Import JS WindTunnel Views.

Local Open Scope float_scope.

(** C7 (counterexample). In the sample state one population of the fluid
    cell [(5, 0)], which is not in the inflow column, is NaN; after the
    step the velocity stored for the cell is NaN, and NaN is not within
    0.35 of zero. *)
Lemma C7_velocity_of_diverged_cell_is_nan :
  let st := Samples.diverged in
  let v := ta_get (ux (simulate 45 st)) (0 * COLS + 5) in
  u8_get (barrier st) (0 * COLS + 5) = 0%Z /\
  v = nan /\
  (Math_abs v <=? 0.35) = false.
Proof.
  cbv zeta.
  destruct (simulate_velocity 45 Samples.diverged 5 0) as [Hux _];
    [unfold COLS; lia|unfold ROWS; lia|].
  rewrite Hux.
  repeat apply conj; vm_compute; reflexivity.
Qed.

(** C7 (amended). After a simulation step, for every fluid cell outside
    the inflow column each stored velocity component is NaN or has a
    magnitude of at most 0.35. *)
Theorem C7_velocity_clamp (windSpeed : number) (st : Tunnel) (x y : Z) :
  allocated st ->
  (0 < x < COLS)%Z -> (0 <= y < ROWS)%Z ->
  u8_get (barrier st) (y * COLS + x) = 0%Z ->
  let vx := ta_get (ux (simulate windSpeed st)) (y * COLS + x) in
  let vy := ta_get (uy (simulate windSpeed st)) (y * COLS + x) in
  (is_nan vx = true \/ (Math_abs vx <=? 0.35) = true) /\
  (is_nan vy = true \/ (Math_abs vy <=? 0.35) = true).
Proof.
  intros Hal Hx Hy Hfluid. cbv zeta.
  destruct (simulate_velocity windSpeed st x y) as [Hux Huy]; [lia|lia|].
  rewrite Hux, Huy. unfold collideCell. rewrite Hfluid.
  change (0 =? 0)%Z with true. cbv iota.
  destruct (moments (n0 st) (y * COLS + x)) as [[d u_x] u_y].
  destruct (Z.eqb_spec x 0) as [Hx0|_]; [lia|].
  cbn [ux uy].
  destruct (allocated_index st x y 0 Hal) as (_ & _ & Hix & Hiy);
    [lia|lia|unfold Q; lia|].
  rewrite !written_value by assumption.
  split; apply stored_velocity_bound.
Qed.

(** C7 (witness): the cell [(5, 0)] of the fluid at rest. *)
Lemma C7_velocity_clamp_witness :
  let st := Samples.rest in
  let x := 5%Z in let y := 0%Z in
  allocated st /\
  (0 < x < COLS)%Z /\ (0 <= y < ROWS)%Z /\
  u8_get (barrier st) (y * COLS + x) = 0%Z /\
  let vx := ta_get (ux (simulate 45 st)) (y * COLS + x) in
  let vy := ta_get (uy (simulate 45 st)) (y * COLS + x) in
  (is_nan vx = true \/ (Math_abs vx <=? 0.35) = true) /\
  (is_nan vy = true \/ (Math_abs vy <=? 0.35) = true).
Proof.
  cbv zeta.
  split; [apply allocated_rest|].
  split; [vm_compute; split; reflexivity|].
  split; [vm_compute; split; [discriminate|reflexivity]|].
  split; [vm_compute; reflexivity|].
  apply (C7_velocity_clamp 45 Samples.rest 5 0).
  - apply allocated_rest.
  - vm_compute; split; reflexivity.
  - vm_compute; split; [discriminate|reflexivity].
  - vm_compute; reflexivity.
Defined.

End VelocityClaims.

(* ===================================================================== *)
(** * The barrier rasterizer                                              *)
(* ===================================================================== *)

Section RasterFacts.
Import JS Types WindTunnel Views.

Local Open Scope float_scope.

Lemma u8_get_u8_set (b : list Z) (k k' v : Z) :
  u8_get (u8_set b k v) k'
  = if ((k =? k') && (0 <=? k) && (k <? Z.of_nat (length b)))%Z
    then (v mod 256)%Z else u8_get b k'.
Proof.
  unfold u8_get, u8_set.
  destruct (Z.eqb_spec k k') as [->|Hne]; cbn [andb].
  - destruct (Z.ltb_spec k' 0) as [Hneg|Hpos].
    + destruct (Z.leb_spec 0 k'); [lia|reflexivity].
    + destruct (Z.leb_spec 0 k'); [|lia]. cbn [andb].
      destruct (Z.ltb_spec k' (Z.of_nat (length b))).
      * rewrite list_lookup_insert_eq by lia. reflexivity.
      * rewrite list_insert_ge by lia. reflexivity.
  - destruct (Z.ltb_spec k' 0); [reflexivity|].
    destruct (Z.ltb_spec k 0); [reflexivity|].
    rewrite list_lookup_insert_ne by lia. reflexivity.
Qed.

Lemma u8_set_length (b : list Z) (k v : Z) : length (u8_set b k v) = length b.
Proof. unfold u8_set. destruct (k <? 0)%Z; [reflexivity|apply length_insert]. Qed.

Lemma u8_get_replicate (n : nat) (k : Z) : u8_get (replicate n 0%Z) k = 0%Z.
Proof.
  unfold u8_get. destruct (k <? 0)%Z; [reflexivity|].
  destruct (replicate n 0%Z !! Z.to_nat k) as [v|] eqn:E; [|reflexivity].
  apply lookup_replicate in E. now destruct E as [-> _].
Qed.


Lemma rasterRow_only_marked (fuel : nat) (gridPoly : list Point)
    (py px maxX : number) (b b' : list Z) :
  rasterRow fuel gridPoly py px maxX b = Some b' ->
  only_marked gridPoly b ->
  only_marked gridPoly b' /\ length b' = length b.
Proof.
  revert px b. induction fuel as [|fuel IH]; intros px b Hrun Hb; [discriminate|].
  cbn [rasterRow] in Hrun.
  destruct (px <=? maxX); [|injection Hrun as <-; now split].
  apply IH in Hrun.
  - destruct Hrun as [Hm Hl]. split; [assumption|]. rewrite Hl.
    destruct (inside gridPoly px py); [|reflexivity].
    unfold barrier_set. destruct (to_int _); [apply u8_set_length|reflexivity].
  - destruct (inside gridPoly px py) eqn:Hin; [|assumption].
    unfold barrier_set. destruct (to_int _) as [k0|] eqn:Hkey; [|assumption].
    intros k. rewrite u8_get_u8_set.
    destruct (Z.eqb_spec k0 k) as [->|Hne]; cbn [andb]; [|apply Hb].
    destruct ((0 <=? k) && (k <? Z.of_nat (length b)))%Z; [|apply Hb].
    right. split; [reflexivity|]. now exists px, py.
Qed.

Lemma rasterRows_only_marked (fuel : nat) (gridPoly : list Point)
    (py maxY minX maxX : number) (b b' : list Z) :
  rasterRows fuel gridPoly py maxY minX maxX b = Some b' ->
  only_marked gridPoly b ->
  only_marked gridPoly b' /\ length b' = length b.
Proof.
  revert py b. induction fuel as [|fuel IH]; intros py b Hrun Hb; [discriminate|].
  cbn [rasterRows] in Hrun.
  destruct (py <=? maxY); [|injection Hrun as <-; now split].
  destruct (rasterRow (S fuel) gridPoly py minX maxX b) as [b1|] eqn:Hrow;
    [|discriminate].
  apply rasterRow_only_marked in Hrow; [|assumption].
  destruct Hrow as [Hm1 Hl1].
  apply IH in Hrun; [|assumption].
  destruct Hrun as [Hm Hl]. split; [assumption|congruence].
Qed.

Lemma rasterize_cleared (fuel : nat) (polygon : list Point)
    (gridWidth gridHeight : number) (st : Tunnel) :
  rasterizePolygon fuel polygon gridWidth gridHeight st
  = rasterizePolygon fuel polygon gridWidth gridHeight (clearBarrier st).
Proof.
  unfold rasterizePolygon.
  assert (H : clearBarrier (clearBarrier st) = clearBarrier st).
  { unfold clearBarrier. cbn [n0 n1 density ux uy barrier].
    now rewrite length_replicate. }
  now rewrite H.
Qed.

End RasterFacts.

(** ** The rasterizer returns

    The two loops of the rasterizer count with numbers.  Their first
    values are [Math.max(0, Math.floor(..))] and their bounds
    [Math.min(size - 1, Math.ceil(..))]: the facts below show that such a
    counter steps through the integers of the grid and passes its bound. *)

Section OrderFacts.
Import JS Views.
Local Open Scope Z_scope.

Lemma SFcompare_key (a b : spec_float) :
  is_number a -> is_number b ->
  exists c, SFcompare a b = Some c /\
    match c with
    | Lt => key_lt (order_key a) (order_key b)
    | Eq => order_key a = order_key b
    | Gt => key_lt (order_key b) (order_key a)
    end.
Proof.
  destruct a as [[]|[]| |[] m1 e1], b as [[]|[]| |[] m2 e2];
    cbn [is_number]; intros Ha Hb; try contradiction;
    cbn [SFcompare order_key key_lt];
    try (eexists; split; [reflexivity|]; cbn [key_lt]; lia || reflexivity).
  - rewrite Pos.compare_cont_spec, Pos2Z.inj_compare.
    destruct (Z.compare_spec e1 e2);
      [destruct (Z.compare_spec (Zpos m1) (Zpos m2))| |];
      cbn [Pos.switch_Eq CompOpp]; eexists; (split; [reflexivity|]);
      cbn beta iota; try lia.
    f_equal; [f_equal|]; lia.
  - rewrite Pos.compare_cont_spec, Pos2Z.inj_compare.
    destruct (Z.compare_spec e1 e2);
      [destruct (Z.compare_spec (Zpos m1) (Zpos m2))| |];
      cbn [Pos.switch_Eq CompOpp]; eexists; (split; [reflexivity|]);
      cbn beta iota; try lia.
    f_equal; [f_equal|]; lia.
Qed.

Lemma SFcompare_nan_l (b : spec_float) : SFcompare S754_nan b = None.
Proof. reflexivity. Qed.

Lemma SFcompare_nan_r (a : spec_float) : SFcompare a S754_nan = None.
Proof. now destruct a. Qed.

(** Facts about keys are facts of linear arithmetic on triples. *)
Ltac key_lia :=
  repeat match goal with
         | |- context [order_key ?f] =>
             generalize (order_key f); intros [[? ?] ?]
         end;
  unfold key_lt; intros;
  repeat match goal with
         | H : (_, _, _) = (_, _, _) |- _ => injection H as ? ? ?
         end;
  lia.

Lemma SFltb_key (a b : spec_float) :
  SFltb a b = true <->
  is_number a /\ is_number b /\ key_lt (order_key a) (order_key b).
Proof.
  unfold SFltb.
  destruct a as [sa|sa| |sa ma ea] eqn:Ea;
    try (rewrite SFcompare_nan_l; cbn [is_number]; intuition congruence);
  (destruct b as [sb|sb| |sb mb eb] eqn:Eb;
    try (rewrite SFcompare_nan_r; cbn [is_number]; intuition congruence));
  rewrite <- Ea, <- Eb;
  (destruct (SFcompare_key a b) as (c & Hc & Hk);
   [subst; exact I|subst; exact I|]);
  rewrite Hc; (assert (Na : is_number a) by (subst; exact I));
  (assert (Nb : is_number b) by (subst; exact I));
  clear Ea Eb Hc; destruct c; split; intros H; try discriminate;
    try reflexivity; try (repeat split; assumption);
    destruct H as (_ & _ & H); exfalso; revert Hk H; clear; key_lia.
Qed.

Lemma SFleb_key (a b : spec_float) :
  SFleb a b = true <->
  is_number a /\ is_number b /\ ~ key_lt (order_key b) (order_key a).
Proof.
  unfold SFleb.
  destruct a as [sa|sa| |sa ma ea] eqn:Ea;
    try (rewrite SFcompare_nan_l; cbn [is_number]; intuition congruence);
  (destruct b as [sb|sb| |sb mb eb] eqn:Eb;
    try (rewrite SFcompare_nan_r; cbn [is_number]; intuition congruence));
  rewrite <- Ea, <- Eb;
  (destruct (SFcompare_key a b) as (c & Hc & Hk);
   [subst; exact I|subst; exact I|]);
  rewrite Hc; (assert (Na : is_number a) by (subst; exact I));
  (assert (Nb : is_number b) by (subst; exact I));
  clear Ea Eb Hc; destruct c; split; intros H; try discriminate;
    try reflexivity;
    try (repeat split; try assumption; revert Hk; clear; key_lia);
    destruct H as (_ & _ & H); exfalso; apply H; exact Hk.
Qed.


Local Open Scope float_scope.

Lemma nan_or_number (v : float) :
  (is_nan v = true /\ Prim2SF v = S754_nan) \/
  (is_nan v = false /\ is_number (Prim2SF v)).
Proof.
  destruct (is_nan v) eqn:Hn.
  - left. split; [reflexivity|]. now apply is_nan_Prim2SF.
  - right. split; [reflexivity|].
    unfold is_nan in Hn. rewrite FloatAxioms.eqb_spec in Hn.
    destruct (Prim2SF v); try exact I. discriminate Hn.
Qed.

Lemma ltb_key (a b : float) :
  (a <? b) = true <->
  is_number (Prim2SF a) /\ is_number (Prim2SF b) /\
  key_lt (order_key (Prim2SF a)) (order_key (Prim2SF b)).
Proof. rewrite ltb_spec. apply SFltb_key. Qed.

Lemma leb_key (a b : float) :
  (a <=? b) = true <->
  is_number (Prim2SF a) /\ is_number (Prim2SF b) /\
  ~ key_lt (order_key (Prim2SF b)) (order_key (Prim2SF a)).
Proof. rewrite leb_spec. apply SFleb_key. Qed.

Lemma leb_nan_l (a b : float) : is_nan a = true -> (a <=? b) = false.
Proof.
  intros H. rewrite leb_spec, (is_nan_Prim2SF a H). reflexivity.
Qed.

Lemma leb_nan_r (a b : float) : is_nan b = true -> (a <=? b) = false.
Proof.
  intros H. rewrite leb_spec, (is_nan_Prim2SF b H).
  unfold SFleb. now rewrite SFcompare_nan_r.
Qed.

(** Below a number that is below the limit. *)
Lemma leb_false_below (lim hi c : float) :
  (hi <? lim) = true -> (c <=? hi) = true -> (lim <=? c) = false.
Proof.
  intros H1 H2. apply ltb_key in H1. apply leb_key in H2.
  destruct (lim <=? c) eqn:H3; [|reflexivity].
  apply leb_key in H3. exfalso.
  destruct H1 as (_ & _ & H1), H2 as (_ & _ & H2), H3 as (_ & _ & H3).
  revert H1 H2 H3. key_lia.
Qed.

(** Above a number that is above the limit. *)
Lemma leb_false_above (lim s M : float) :
  (lim <? s) = true -> (lim <=? M) = false -> (s <=? M) = false.
Proof.
  intros H1 H2. destruct (s <=? M) eqn:H3; [|reflexivity].
  apply ltb_key in H1. apply leb_key in H3.
  assert (H : (lim <=? M) = true); [|congruence].
  apply leb_key.
  destruct H1 as (N1 & _ & H1), H3 as (_ & N3 & H3).
  split; [assumption|]. split; [assumption|].
  revert H1 H3. key_lia.
Qed.

(** [Math.min(hi, c)] is below every limit above [hi], or NaN. *)
Lemma Math_min_below (lim hi c : float) :
  (hi <? lim) = true -> (lim <=? Math_min hi c) = false.
Proof.
  intros Hlim. unfold Math_min.
  destruct (nan_or_number hi) as [[Hh _]|[Hh Nh]]; rewrite Hh; cbn [orb].
  { now apply leb_nan_r. }
  destruct (nan_or_number c) as [[Hc _]|[Hc Nc]]; rewrite Hc.
  { now apply leb_nan_r. }
  assert (Hhi : (lim <=? hi) = false).
  { apply (leb_false_below lim hi hi Hlim). apply leb_key.
    split; [assumption|]. split; [assumption|]. key_lia. }
  destruct (hi <? c) eqn:H1; [assumption|].
  assert (Hle : (c <=? hi) = true).
  { apply leb_key. split; [assumption|]. split; [assumption|].
    intros Hlt. assert (H : (hi <? c) = true); [|congruence].
    apply ltb_key. now repeat split. }
  assert (Hc' : (lim <=? c) = false) by now apply (leb_false_below lim hi c).
  destruct (c <? hi); [assumption|].
  now destruct (get_sign hi).
Qed.

End OrderFacts.

Section IntegerFacts.
Import JS Views.
Local Open Scope Z_scope.

(** The number of binary digits is determined by the power-of-two
    bracket. *)
Lemma digits_unique (x a b : Z) :
  2 ^ (a - 1) <= x < 2 ^ a -> 2 ^ (b - 1) <= x < 2 ^ b ->
  0 <= a -> 0 <= b -> a = b.
Proof.
  intros Ha Hb Ha0 Hb0.
  destruct (Z.lt_trichotomy a b) as [Hlt|[Heq|Hgt]]; [|assumption|].
  - assert (2 ^ a <= 2 ^ (b - 1)) by (apply Z.pow_le_mono_r; lia). lia.
  - assert (2 ^ b <= 2 ^ (a - 1)) by (apply Z.pow_le_mono_r; lia). lia.
Qed.

Lemma digits_mono (p q : positive) :
  Zpos p <= Zpos q -> Zpos (digits2_pos p) <= Zpos (digits2_pos q).
Proof.
  intros Hle.
  pose proof (digits2_pos_bounds p) as Hp.
  pose proof (digits2_pos_bounds q) as Hq.
  destruct (Z.le_gt_cases (Zpos (digits2_pos p)) (Zpos (digits2_pos q)))
    as [|Hgt]; [assumption|].
  assert (2 ^ Zpos (digits2_pos q) <= 2 ^ (Zpos (digits2_pos p) - 1))
    by (apply Z.pow_le_mono_r; lia).
  lia.
Qed.

Lemma digits_below (p : positive) (n : Z) :
  0 <= n -> Zpos p < 2 ^ n -> Zpos (digits2_pos p) <= n.
Proof.
  intros Hn Hlt. pose proof (digits2_pos_bounds p) as Hp.
  destruct (Z.le_gt_cases (Zpos (digits2_pos p)) n) as [|Hgt]; [assumption|].
  assert (2 ^ n <= 2 ^ (Zpos (digits2_pos p) - 1))
    by (apply Z.pow_le_mono_r; lia).
  lia.
Qed.

(** An integer below 2^53 is a number exactly: its mantissa is the integer
    shifted to 53 bits. *)
Lemma Prim2SF_of_int (p : positive) :
  Zpos p < 2 ^ 53 ->
  let d := Zpos (digits2_pos p) in
  Prim2SF (of_int (Zpos p))
  = S754_finite false (Z.to_pos (Zpos p * 2 ^ (53 - d))) (d - 53).
Proof.
  intros Hlt d. unfold of_int.
  rewrite of_uint63_spec, Uint63.of_Z_spec.
  assert (Hsmall : Zpos p < Uint63Axioms.wB).
  { change Uint63Axioms.wB with (2 ^ 63).
    assert (2 ^ 53 <= 2 ^ 63) by (apply Z.pow_le_mono_r; lia). lia. }
  rewrite Z.mod_small by lia.
  cbn [binary_normalize].
  pose proof (digits_below p 53 ltac:(lia) Hlt) as Hd. fold d in Hd.
  destruct (Z.eq_dec d 53) as [H53|Hne].
  - rewrite binary_round64_canonical by (fold d; lia).
    rewrite H53. change (2 ^ (53 - 53)) with 1. rewrite Z.mul_1_r.
    reflexivity.
  - rewrite binary_round64_exact by (fold d; lia). fold d.
    destruct (iter_xO_spec p (Z.to_pos (53 - d))) as [_ Hval].
    rewrite Z2Pos.id in Hval by lia.
    rewrite <- Hval, Pos2Z.id. f_equal; lia.
Qed.


Lemma Prim2SF_zero : Prim2SF 0%float = S754_zero false.
Proof. reflexivity. Qed.

(** On integers below 2^53 the order of the numbers is the order of the
    integers. *)
Lemma of_int_lt (k q : Z) :
  0 <= k < q -> q < 2 ^ 53 -> (of_int k <? of_int q)%float = true.
Proof.
  intros Hk Hq. apply ltb_key.
  destruct q as [|pq|pq]; try lia.
  rewrite (Prim2SF_of_int pq Hq).
  pose proof (digits2_pos_bounds pq) as Bq.
  pose proof (digits_below pq 53 ltac:(lia) Hq) as Dq.
  assert (Pq : 0 < 2 ^ (53 - Zpos (digits2_pos pq)))
    by (apply Z.pow_pos_nonneg; lia).
  destruct k as [|pk|pk]; try lia.
  - change (of_int 0) with 0%float. rewrite Prim2SF_zero.
    cbn [is_number order_key key_lt]. repeat split. left. lia.
  - assert (Hk53 : Zpos pk < 2 ^ 53) by lia.
    rewrite (Prim2SF_of_int pk Hk53).
    pose proof (digits2_pos_bounds pk) as Bk.
    pose proof (digits_mono pk pq ltac:(lia)) as Dm.
    assert (Pk : 0 < 2 ^ (53 - Zpos (digits2_pos pk)))
      by (apply Z.pow_pos_nonneg; lia).
    cbn [is_number order_key key_lt]. repeat split.
    right. split; [reflexivity|].
    destruct (Z.eq_dec (Zpos (digits2_pos pk)) (Zpos (digits2_pos pq)))
      as [Heq|Hne]; [|left; lia].
    right. split; [lia|].
    rewrite !Z2Pos.id by nia. rewrite Heq. nia.
Qed.

End IntegerFacts.

Section FloorFacts.
Import JS Views.
Local Open Scope Z_scope.

(** A positive number with an integer value below 2^53 is that integer. *)
Lemma integral_is_of_int (a : float) (m : positive) (e : Z) :
  Prim2SF a = S754_finite false m e -> e < 0 ->
  let q := Z.shiftr (Zpos m) (- e) in
  Z.shiftl q (- e) = Zpos m ->
  0 < q < 2 ^ 53 /\ a = of_int q.
Proof.
  intros Hv He q Hint.
  pose proof (Prim2SF_valid a) as Hvalid. rewrite Hv in Hvalid.
  cbn [valid_binary] in Hvalid.
  destruct (bounded_binary64 m e Hvalid) as (Hd & Hrange & Hcanon).
  pose proof (digits2_pos_bounds m) as Bm.
  set (d := Zpos (digits2_pos m)) in *.
  rewrite Z.shiftl_mul_pow2 in Hint by lia.
  assert (Pe : 0 < 2 ^ (- e)) by (apply Z.pow_pos_nonneg; lia).
  assert (Hq0 : 0 < q) by nia.
  assert (Hm53 : Zpos m < 2 ^ 53).
  { assert (2 ^ d <= 2 ^ 53) by (apply Z.pow_le_mono_r; lia). lia. }
  assert (Hq53 : q < 2 ^ 53) by nia.
  split; [lia|].
  destruct q as [|pq|pq] eqn:Eq; try lia.
  pose proof (digits2_pos_bounds pq) as Bq.
  set (dq := Zpos (digits2_pos pq)) in *.
  (* the mantissa has 53 bits *)
  assert (Hd53 : d = 53).
  { destruct Hcanon as [|Hmin]; [assumption|]. exfalso.
    assert (2 ^ 53 <= 2 ^ (- e)) by (apply Z.pow_le_mono_r; lia). nia. }
  assert (Hdq : dq - e = 53).
  { apply (digits_unique (Zpos m)); try lia.
    - replace (dq - e - 1) with ((dq - 1) + (- e)) by lia.
      replace (dq - e) with (dq + (- e)) by lia.
      rewrite !Z.pow_add_r by (unfold dq; lia). nia.
    - rewrite <- Hd53. exact Bm. }
  apply Prim2SF_inj. rewrite Hv, (Prim2SF_of_int pq Hq53). fold dq.
  replace (53 - dq) with (- e) by lia. rewrite Hint, Pos2Z.id.
  f_equal. lia.
Qed.

Lemma floor_counts (L : Z) (a : float) :
  0 < L < 2 ^ 52 ->
  (0 <? Math_floor a)%float = true -> counts_to L (Math_floor a).
Proof.
  intros HL. unfold Math_floor.
  assert (HL53 : L < 2 ^ 53) by lia.
  destruct L as [|pL|pL] eqn:EL; try lia.
  pose proof (digits_below pL 52 ltac:(lia) ltac:(lia)) as DL.
  pose proof (Prim2SF_valid a) as Hvalid.
  destruct (Prim2SF a) as [s|s| |s m e] eqn:Hv.
  - rewrite ltb_spec, Hv, Prim2SF_zero. discriminate.
  - rewrite ltb_spec, Hv, Prim2SF_zero. destruct s; [discriminate|].
    intros _. right. right. apply ltb_key.
    rewrite Hv, (Prim2SF_of_int pL HL53).
    cbn [is_number order_key key_lt]. repeat split. left. lia.
  - rewrite ltb_spec, Hv, Prim2SF_zero. discriminate.
  - cbn [valid_binary] in Hvalid.
    destruct (bounded_binary64 m e Hvalid) as (Hd & Hrange & Hcanon).
    pose proof (digits2_pos_bounds m) as Bm.
    assert (Hm53 : Zpos m < 2 ^ 53).
    { assert (2 ^ Zpos (digits2_pos m) <= 2 ^ 53)
        by (apply Z.pow_le_mono_r; lia). lia. }
    destruct (Z.leb_spec 0 e) as [He|He].
    + rewrite ltb_spec, Hv, Prim2SF_zero. destruct s; [discriminate|].
      intros _. right. right. apply ltb_key.
      rewrite Hv, (Prim2SF_of_int pL HL53).
      cbn [is_number order_key key_lt]. repeat split.
      right. split; [reflexivity|]. left. lia.
    + cbv zeta.
      assert (Pe : 2 <= 2 ^ (- e)).
      { change 2 with (2 ^ 1) at 1. apply Z.pow_le_mono_r; lia. }
      assert (Hq : 0 <= Z.shiftr (Zpos m) (- e) < 2 ^ 52).
      { rewrite Z.shiftr_div_pow2 by lia. split.
        - apply Z.div_pos; lia.
        - apply Z.div_lt_upper_bound; [lia|].
          change (2 ^ 53) with (2 * 2 ^ 52) in Hm53.
          assert (0 < 2 ^ 52) by (apply Z.pow_pos_nonneg; lia). nia. }
      set (q := Z.shiftr (Zpos m) (- e)) in *.
      destruct (Z.eqb_spec (Z.shiftl q (- e)) (Zpos m)) as [Hint|Hfrac].
      * rewrite ltb_spec, Hv, Prim2SF_zero. destruct s; [discriminate|].
        intros _.
        destruct (integral_is_of_int a m e Hv He Hint) as [Hq' Ha].
        fold q in Hq', Ha.
        destruct (Z.le_gt_cases q (Zpos pL)) as [Hle|Hgt].
        -- left. exists q. split; [lia|assumption].
        -- right. right. rewrite Ha. apply of_int_lt; lia.
      * destruct s.
        -- rewrite ltb_spec, FloatAxioms.opp_spec, Prim2SF_zero.
           destruct (q + 1) as [|p1|p1] eqn:E1; try lia.
           rewrite (Prim2SF_of_int p1) by lia. discriminate.
        -- intros _.
           destruct (Z.le_gt_cases q (Zpos pL)) as [Hle|Hgt].
           ++ left. exists q. split; [lia|reflexivity].
           ++ right. right. apply of_int_lt; lia.
Qed.

Local Open Scope float_scope.

Lemma Math_max_0 (x : float) :
  Math_max 0 x = if is_nan x then nan else if 0 <? x then x else 0.
Proof.
  unfold Math_max. change (is_nan 0) with false. cbn [orb].
  change (get_sign 0) with false.
  destruct (is_nan x); [reflexivity|].
  destruct (0 <? x); [reflexivity|]. now destruct (x <? 0).
Qed.

(** The first value of a rasterizing loop. *)
Lemma start_counts (L : Z) (a : float) :
  (0 < L < 2 ^ 52)%Z -> counts_to L (Math_max 0 (Math_floor a)).
Proof.
  intros HL. rewrite Math_max_0.
  destruct (is_nan (Math_floor a)) eqn:Hn.
  - right. left. reflexivity.
  - destruct (0 <? Math_floor a) eqn:Hpos.
    + now apply floor_counts.
    + left. exists 0%Z. split; [lia|reflexivity].
Qed.

End FloorFacts.

Section RasterTermination.
Import JS Types WindTunnel Views.
Local Open Scope float_scope.

(** Adding one to a loop counter of the grid gives the next integer. *)
Lemma of_int_succ (k : Z) :
  (0 <= k < COLS)%Z -> of_int k + 1 = of_int (k + 1).
Proof.
  intros Hk.
  assert (H : forallb (fun k => Leibniz.eqb (of_int k + 1) (of_int (k + 1)))
                      (range COLS) = true) by (vm_compute; reflexivity).
  rewrite forallb_forall in H. apply FloatAxioms.Leibniz.eqb_spec, H.
  unfold range. apply in_map_iff. exists (Z.to_nat k).
  split; [lia|]. apply in_seq. unfold COLS in *. lia.
Qed.

Lemma rasterRow_steps (gridPoly : list Point) (py M : float) (L : Z) :
  (L <= COLS)%Z -> (of_int L <=? M) = false ->
  forall (n : nat) (k : Z) (fuel : nat) (b : list Z),
    (0 <= k)%Z -> Z.of_nat n = (L - k)%Z -> (n + 1 <= fuel)%nat ->
    exists b', rasterRow fuel gridPoly py (of_int k) M b = Some b'.
Proof.
  intros HL HM. induction n as [|n IH]; intros k fuel b Hk Hn Hfuel;
    (destruct fuel as [|fuel]; [lia|]); cbn [rasterRow].
  - replace k with L by lia. rewrite HM. now eexists.
  - destruct (of_int k <=? M); [|now eexists].
    rewrite of_int_succ by lia. apply IH; lia.
Qed.

Lemma rasterRow_returns (gridPoly : list Point) (py s M : float) (L : Z)
    (fuel : nat) (b : list Z) :
  (0 <= L <= COLS)%Z -> counts_to L s -> (of_int L <=? M) = false ->
  (Z.to_nat L + 1 <= fuel)%nat ->
  exists b', rasterRow fuel gridPoly py s M b = Some b'.
Proof.
  intros HL [(k & Hk & ->)|[Hnan|Habove]] HM Hfuel.
  - apply (rasterRow_steps gridPoly py M L) with (n := Z.to_nat (L - k));
      try assumption; lia.
  - destruct fuel as [|fuel]; [lia|]. cbn [rasterRow].
    rewrite (leb_nan_l s M Hnan). now eexists.
  - destruct fuel as [|fuel]; [lia|]. cbn [rasterRow].
    rewrite (leb_false_above (of_int L) s M Habove HM). now eexists.
Qed.

Lemma rasterRows_steps (gridPoly : list Point) (M minX maxX : float) (L : Z) :
  (L <= COLS)%Z -> (of_int L <=? M) = false ->
  counts_to COLS minX -> (of_int COLS <=? maxX) = false ->
  forall (n : nat) (k : Z) (fuel : nat) (b : list Z),
    (0 <= k)%Z -> Z.of_nat n = (L - k)%Z ->
    (n + 1 + Z.to_nat COLS <= fuel)%nat ->
    exists b', rasterRows fuel gridPoly (of_int k) M minX maxX b = Some b'.
Proof.
  intros HL HM Hmin Hmax.
  induction n as [|n IH]; intros k fuel b Hk Hn Hfuel;
    (destruct fuel as [|fuel]; [lia|]); cbn [rasterRows].
  - replace k with L by lia. rewrite HM. now eexists.
  - destruct (of_int k <=? M); [|now eexists].
    destruct (rasterRow_returns gridPoly (of_int k) minX maxX COLS (S fuel) b)
      as [b1 Hb1]; try assumption; [unfold COLS; lia|lia|].
    rewrite Hb1. rewrite of_int_succ by lia. apply IH; lia.
Qed.

Lemma rasterRows_returns (gridPoly : list Point) (s M minX maxX : float)
    (L : Z) (fuel : nat) (b : list Z) :
  (0 <= L <= COLS)%Z -> counts_to L s -> (of_int L <=? M) = false ->
  counts_to COLS minX -> (of_int COLS <=? maxX) = false ->
  (Z.to_nat L + 1 + Z.to_nat COLS <= fuel)%nat ->
  exists b', rasterRows fuel gridPoly s M minX maxX b = Some b'.
Proof.
  intros HL [(k & Hk & ->)|[Hnan|Habove]] HM Hmin Hmax Hfuel.
  - apply (rasterRows_steps gridPoly M minX maxX L) with (n := Z.to_nat (L - k));
      try assumption; lia.
  - destruct fuel as [|fuel]; [lia|]. cbn [rasterRows].
    rewrite (leb_nan_l s M Hnan). now eexists.
  - destruct fuel as [|fuel]; [lia|]. cbn [rasterRows].
    rewrite (leb_false_above (of_int L) s M Habove HM). now eexists.
Qed.

(** On the grid of the wind tunnel the rasterizer returns, whatever the
    polygon: 302 units of fuel are enough for its two loops. *)
Lemma rasterizePolygon_returns (fuel : nat) (polygon : list Point)
    (st : Tunnel) :
  (302 <= fuel)%nat ->
  exists st',
    rasterizePolygon fuel polygon (of_int COLS) (of_int ROWS) st = Some st'.
Proof.
  intros Hfuel. unfold rasterizePolygon.
  destruct (length polygon <? 3)%nat; [now eexists|].
  destruct (bounds (toGrid polygon) (of_int COLS) (of_int ROWS))
    as [[[minX maxX] minY] maxY].
  destruct (rasterRows_returns (toGrid polygon)
              (Math_max 0 (Math_floor minY))
              (Math_min (of_int ROWS - 1) (Math_ceil maxY))
              (Math_max 0 (Math_floor minX))
              (Math_min (of_int COLS - 1) (Math_ceil maxX))
              ROWS fuel (barrier (clearBarrier st))) as [b' Hb'].
  - unfold ROWS, COLS. lia.
  - apply start_counts. unfold ROWS. lia.
  - apply Math_min_below. vm_compute. reflexivity.
  - apply start_counts. unfold COLS. lia.
  - apply Math_min_below. vm_compute. reflexivity.
  - unfold ROWS, COLS. lia.
  - rewrite Hb'. now eexists.
Qed.

End RasterTermination.

(* ===================================================================== *)
(** * Further properties of the panel solver *)
(* ===================================================================== *)

(** Facts about order keys are facts of linear arithmetic on triples. *)
Ltac key_arith :=
  repeat match goal with
         | |- context [Views.order_key ?f] =>
             generalize (Views.order_key f); intros [[? ?] ?]
         end;
  unfold Views.key_lt; cbv beta iota zeta; intros;
  repeat match goal with
         | H : (_, _, _) = (_, _, _) |- _ => injection H as ? ? ?
         end;
  lia.

Section OrderMore.
Import JS Views.
Local Open Scope float_scope.

Lemma ltb_irrefl (a : float) : (a <? a) = false.
Proof.
  destruct (a <? a) eqn:H; [|reflexivity].
  apply ltb_key in H. destruct H as (_ & _ & H). exfalso. revert H. key_arith.
Qed.

Lemma ltb_asym (a b : float) : (a <? b) = true -> (b <? a) = false.
Proof.
  intros H. destruct (b <? a) eqn:H'; [|reflexivity].
  apply ltb_key in H, H'. destruct H as (_ & _ & H), H' as (_ & _ & H').
  exfalso. revert H H'. key_arith.
Qed.

(** What is not above [a] is not above anything above [a]. *)
Lemma ltb_false_trans (a b c : float) :
  (a <? b) = false -> (a <? c) = true -> (c <? b) = false.
Proof.
  intros Hab Hac. destruct (c <? b) eqn:Hcb; [|reflexivity].
  apply ltb_key in Hac, Hcb.
  destruct Hac as (Na & Nc & Hac), Hcb as (_ & Nb & Hcb).
  assert (H : (a <? b) = true); [|congruence].
  apply ltb_key. split; [assumption|]. split; [assumption|].
  revert Hac Hcb. key_arith.
Qed.

(** What is not above [a] is a NaN or below everything above [a]. *)
Lemma ltb_false_below (a b c : float) :
  (a <? b) = false -> (a <? c) = true ->
  is_nan b = true \/ (b <? c) = true.
Proof.
  intros Hab Hac.
  destruct (nan_or_number b) as [[Hb _]|[_ Nb]]; [now left|right].
  apply ltb_key in Hac. destruct Hac as (Na & Nc & Hac).
  apply ltb_key. split; [assumption|]. split; [assumption|].
  assert (Hn : ~ key_lt (order_key (Prim2SF a)) (order_key (Prim2SF b))).
  { intros H. assert (H' : (a <? b) = true); [|congruence].
    apply ltb_key. now repeat split. }
  revert Hac Hn. key_arith.
Qed.

End OrderMore.

Section PivotFacts.
Import JS Physics.
Local Open Scope float_scope.

Lemma foldM_snoc {A S} (f : S -> A -> completion S) (s : S) (l : list A) (a : A) :
  foldM f s (l ++ [a]) = bind (foldM f s l) (fun s' => f s' a).
Proof.
  revert s. induction l as [|b l IH]; intros s; cbn [foldM app bind].
  - destruct (f s a); reflexivity.
  - destruct (f s b) as [s'|e]; cbn [bind]; [apply IH|reflexivity].
Qed.

(** The pivot search over the rows [i .. i + c]: the row it holds has an
    entry that no row seen so far exceeds in magnitude, and that every
    earlier row seen is strictly below, NaN entries apart. *)
Lemma pivot_scan (M : list (list number)) (i c : nat) :
  (i + c < length M)%nat ->
  let magnitude := fun k => Math_abs (get_num (default [] (M !! k)) i) in
  exists r,
    foldM (fun maxRow k =>
             let! rk := get_obj M k in
             let! rm := get_obj M maxRow in
             Normal (if Math_abs (get_num rm i) <? Math_abs (get_num rk i)
                     then k else maxRow))
          i (seq (i + 1) c) = Normal r /\
    (i <= r <= i + c)%nat /\
    (forall k, (i <= k <= i + c)%nat -> (magnitude r <? magnitude k) = false) /\
    (forall k, (i <= k < r)%nat ->
               is_nan (magnitude k) = true \/ (magnitude k <? magnitude r) = true).
Proof.
  intros Hc magnitude. induction c as [|c IH].
  - exists i. cbn [seq foldM]. split; [reflexivity|]. split; [lia|]. split.
    + intros k Hk. replace k with i by lia. apply ltb_irrefl.
    + intros k Hk. lia.
  - destruct IH as (r & Hr & Hrange & Hmax & Hfirst); [lia|].
    rewrite seq_S, foldM_snoc, Hr. cbn [bind].
    destruct (get_obj_Normal M (i + 1 + c)) as [rk Hrk]; [lia|].
    destruct (get_obj_Normal M r) as [rm Hrm]; [lia|].
    rewrite Hrk, Hrm. cbn [bind].
    assert (Ek : magnitude (i + 1 + c)%nat = Math_abs (get_num rk i)).
    { unfold magnitude, get_obj in *.
      destruct (M !! (i + 1 + c)%nat); [|discriminate]. now injection Hrk as ->. }
    assert (Er : magnitude r = Math_abs (get_num rm i)).
    { unfold magnitude, get_obj in *.
      destruct (M !! r); [|discriminate]. now injection Hrm as ->. }
    rewrite <- Ek, <- Er.
    destruct (magnitude r <? magnitude (i + 1 + c)%nat) eqn:Hlt.
    + exists (i + 1 + c)%nat. split; [reflexivity|]. split; [lia|]. split.
      * intros k Hk. destruct (Nat.eq_dec k (i + 1 + c)%nat) as [->|Hne].
        -- apply ltb_irrefl.
        -- apply (ltb_false_trans (magnitude r)); [apply Hmax; lia|assumption].
      * intros k Hk.
        apply (ltb_false_below (magnitude r)); [apply Hmax; lia|assumption].
    + exists r. split; [reflexivity|]. split; [lia|]. split.
      * intros k Hk. destruct (Nat.eq_dec k (i + 1 + c)%nat) as [->|Hne].
        -- assumption.
        -- apply Hmax. lia.
      * assumption.
Qed.

End PivotFacts.

Section RoundingSign.
Local Open Scope Z_scope.

(** Rounding keeps the sign and makes no NaN. *)
Lemma binary_round_aux_class (prec emax : Z) (sx : bool) (mx ex : Z) (lx : location) :
  0 <= mx ->
  match binary_round_aux prec emax sx mx ex lx with
  | S754_zero s | S754_infinity s | S754_finite s _ _ => s = sx
  | S754_nan => False
  end.
Proof.
  intros Hm. unfold binary_round_aux, shr_fexp.
  set (start := shr_record_of_loc mx lx).
  assert (Hstart : 0 <= shr_m start) by (subst start; now destruct lx as [|[]]).
  destruct (shr_spec start ex (fexp prec emax (Zdigits2 mx + ex) - ex) Hstart)
    as (_ & Hq & _).
  destruct (shr start ex _) as [mrs' e'].
  cbn [fst] in Hq.
  pose proof (round_nearest_even_bounds mrs') as Hr.
  set (m1 := round_nearest_even (shr_m mrs') (loc_of_shr_record mrs')) in *.
  assert (Hq0 : 0 <= shr_m mrs').
  { rewrite Hq. apply Z.div_pos; [assumption|]. apply Z.pow_pos_nonneg; lia. }
  set (start2 := shr_record_of_loc m1 loc_Exact).
  assert (Hstart2 : 0 <= shr_m start2) by (cbn; lia).
  destruct (shr_spec start2 e' (fexp prec emax (Zdigits2 m1 + e') - e') Hstart2)
    as (_ & Hq2 & _).
  destruct (shr start2 e' _) as [mrs2 e2].
  cbn [fst] in Hq2. change (shr_m start2) with m1 in Hq2.
  assert (Hq20 : 0 <= shr_m mrs2).
  { rewrite Hq2. apply Z.div_pos; [lia|]. apply Z.pow_pos_nonneg; lia. }
  destruct (shr_m mrs2); try lia; [reflexivity|].
  now destruct (_ <=? _).
Qed.

End RoundingSign.

Section PanelExtras.
Import JS Types Physics.
Local Open Scope float_scope.

Lemma div_core_nonneg (m1 : positive) (e1 : Z) (m2 : positive) (e2 : Z) :
  (0 <= fst (fst (SFdiv_core_binary prec emax (Zpos m1) e1 (Zpos m2) e2)))%Z.
Proof.
  unfold SFdiv_core_binary.
  set (s := (e1 - e2 - _)%Z).
  set (m' := match s with Zpos _ => Z.shiftl (Zpos m1) s | Z0 => Zpos m1 | Zneg _ => 0%Z end).
  assert (Hm' : (0 <= m')%Z).
  { subst m'. destruct s; try lia. apply Z.shiftl_nonneg. lia. }
  pose proof (Z.div_eucl_eq m' (Zpos m2) ltac:(lia)) as Heq.
  pose proof (Z.mod_pos_bound m' (Zpos m2) ltac:(lia)) as Hmod.
  unfold Z.modulo in Hmod.
  destruct (Z.div_eucl m' (Zpos m2)) as [q r]. cbn [fst snd]. nia.
Qed.

(** A quotient of two numbers is NaN only for 0/0 and for two
    infinities. *)
Lemma div_nan_cases (a b : float) :
  is_nan a = false -> is_nan b = false -> is_nan (a / b) = true ->
  ((a =? 0) = true /\ (b =? 0) = true) \/
  (is_infinity a = true /\ is_infinity b = true).
Proof.
  intros Ha Hb Hq.
  apply is_nan_Prim2SF in Hq. rewrite div_spec in Hq.
  unfold is_infinity. rewrite !FloatAxioms.eqb_spec, !abs_spec.
  unfold is_nan in Ha, Hb. rewrite FloatAxioms.eqb_spec in Ha, Hb.
  change (Prim2SF 0) with (S754_zero false).
  change (Prim2SF infinity) with (S754_infinity false).
  destruct (Prim2SF a) as [sa|sa| |sa ma ea], (Prim2SF b) as [sb|sb| |sb mb eb];
    try discriminate; try (left; split; reflexivity);
    try (right; split; reflexivity).
  exfalso. unfold SF64div, SFdiv in Hq.
  pose proof (div_core_nonneg ma ea mb eb) as Hnn.
  destruct (SFdiv_core_binary prec emax (Zpos ma) ea (Zpos mb) eb) as [[mz ez] lz].
  cbn [fst] in Hnn.
  pose proof (binary_round_aux_class prec emax (xorb sa sb) mz ez lz Hnn) as Hc.
  now rewrite Hq in Hc.
Qed.

End PanelExtras.

Section DifferenceSign.
Import JS Views.
Local Open Scope Z_scope.

(** Rounding a positive integer whose exponent is not below the least
    exponent never gives zero. *)
Lemma binary_round_aux_positive (sx : bool) (mx : positive) (ex : Z) :
  -1074 <= ex ->
  match binary_round_aux prec emax sx (Zpos mx) ex loc_Exact with
  | S754_infinity s | S754_finite s _ _ => s = sx
  | _ => False
  end.
Proof.
  intros Hex. unfold binary_round_aux, shr_fexp.
  pose proof (digits2_pos_bounds mx) as Bm.
  cbn [Zdigits2].
  set (d := Zpos (digits2_pos mx)) in *.
  change (fexp prec emax (d + ex)) with (Z.max (d + ex - 53) (-1074)).
  set (n := Z.max (d + ex - 53) (-1074) - ex).
  set (start := shr_record_of_loc (Zpos mx) loc_Exact).
  assert (Hstart : 0 <= shr_m start) by (cbn; lia).
  destruct (shr_spec start ex n Hstart) as (He' & Hq & _).
  destruct (shr start ex n) as [mrs' e'].
  cbn [fst snd] in He', Hq. change (shr_m start) with (Zpos mx) in Hq.
  pose proof (round_nearest_even_bounds mrs') as Hr.
  set (m1 := round_nearest_even (shr_m mrs') (loc_of_shr_record mrs')) in *.
  (* the first shift leaves at least one bit *)
  assert (Hq1 : 1 <= shr_m mrs').
  { rewrite Hq. apply Z.div_le_lower_bound; [apply Z.pow_pos_nonneg; lia|].
    rewrite Z.mul_1_r.
    destruct (Z.le_gt_cases n 0) as [Hn|Hn].
    - replace (Z.max n 0) with 0 by lia. change (2 ^ 0) with 1. lia.
    - replace (Z.max n 0) with n by lia.
      assert (2 ^ n <= 2 ^ (d - 1)) by (apply Z.pow_le_mono_r; lia). lia. }
  assert (Hm1 : 1 <= m1) by lia.
  destruct m1 as [|p1|p1] eqn:Em1; try lia.
  pose proof (digits2_pos_bounds p1) as B1.
  cbn [Zdigits2].
  set (d1 := Zpos (digits2_pos p1)) in *.
  change (fexp prec emax (d1 + e')) with (Z.max (d1 + e' - 53) (-1074)).
  set (n2 := Z.max (d1 + e' - 53) (-1074) - e').
  set (start2 := shr_record_of_loc (Zpos p1) loc_Exact).
  assert (Hstart2 : 0 <= shr_m start2) by (cbn; lia).
  destruct (shr_spec start2 e' n2 Hstart2) as (_ & Hq2 & _).
  destruct (shr start2 e' n2) as [mrs2 e2].
  cbn [fst] in Hq2. change (shr_m start2) with (Zpos p1) in Hq2.
  assert (Hq21 : 1 <= shr_m mrs2).
  { rewrite Hq2. apply Z.div_le_lower_bound; [apply Z.pow_pos_nonneg; lia|].
    rewrite Z.mul_1_r.
    destruct (Z.le_gt_cases n2 0) as [Hn|Hn].
    - replace (Z.max n2 0) with 0 by lia. change (2 ^ 0) with 1. lia.
    - replace (Z.max n2 0) with n2 by lia.
      assert (2 ^ n2 <= 2 ^ (d1 - 1)) by (apply Z.pow_le_mono_r; lia). lia. }
  destruct (shr_m mrs2); try lia.
  now destruct (_ <=? _).
Qed.

Lemma shl_align_value (m : positive) (e ez : Z) :
  ez <= e ->
  Zpos (fst (shl_align m e ez)) = Zpos m * 2 ^ (e - ez) /\
  snd (shl_align m e ez) = ez.
Proof.
  intros Hle. unfold shl_align.
  destruct (ez - e) as [|p|p] eqn:Hp; try lia; cbn [fst snd].
  - replace (e - ez) with 0 by lia. change (2 ^ 0) with 1. lia.
  - destruct (iter_xO_spec m p) as [_ ->]. split; [|reflexivity].
    f_equal. f_equal. lia.
Qed.

Lemma binary_round_positive (sx : bool) (m : positive) (e : Z) :
  -1074 <= e ->
  match binary_round prec emax sx m e with
  | S754_infinity s | S754_finite s _ _ => s = sx
  | _ => False
  end.
Proof.
  intros He. unfold binary_round.
  change (fexp prec emax (Zpos (digits2_pos m) + e))
    with (Z.max (Zpos (digits2_pos m) + e - 53) (-1074)).
  set (e1 := Z.max (Zpos (digits2_pos m) + e - 53) (-1074)).
  unfold shl_align.
  destruct (e1 - e) as [|p|p] eqn:Hp.
  - now apply binary_round_aux_positive.
  - now apply binary_round_aux_positive.
  - apply binary_round_aux_positive. lia.
Qed.

(** The aligned mantissas of two numbers compare as the numbers do. *)
Lemma aligned_order (m1 : positive) (e1 : Z) (m2 : positive) (e2 : Z) :
  bounded prec emax m1 e1 = true -> bounded prec emax m2 e2 = true ->
  let ez := Z.min e1 e2 in
  let v1 := Zpos m1 * 2 ^ (e1 - ez) in
  let v2 := Zpos m2 * 2 ^ (e2 - ez) in
  (e1 < e2 \/ (e1 = e2 /\ Zpos m1 < Zpos m2) -> v1 < v2) /\
  (e1 = e2 -> Zpos m1 = Zpos m2 -> v1 = v2).
Proof.
  intros H1 H2 ez v1 v2.
  destruct (bounded_binary64 m1 e1 H1) as (D1 & R1 & C1).
  destruct (bounded_binary64 m2 e2 H2) as (D2 & R2 & C2).
  pose proof (digits2_pos_bounds m1) as B1.
  pose proof (digits2_pos_bounds m2) as B2.
  split.
  - intros [Hlt|[Heq Hm]].
    + subst v1 v2 ez. replace (Z.min e1 e2) with e1 by lia.
      rewrite Z.sub_diag. change (2 ^ 0) with 1. rewrite Z.mul_1_r.
      assert (H53 : Zpos (digits2_pos m2) = 53) by lia.
      rewrite H53 in B2. change (2 ^ (53 - 1)) with 4503599627370496 in B2.
      assert (Zpos m1 < 2 ^ 53).
      { assert (2 ^ Zpos (digits2_pos m1) <= 2 ^ 53)
          by (apply Z.pow_le_mono_r; lia). lia. }
      change (2 ^ 53) with 9007199254740992 in *.
      assert (2 ^ 1 <= 2 ^ (e2 - e1)) by (apply Z.pow_le_mono_r; lia).
      change (2 ^ 1) with 2 in *. nia.
    + subst v1 v2 ez. rewrite Heq, Z.min_id, Z.sub_diag.
      change (2 ^ 0) with 1. lia.
  - intros Heq Hm. subst v1 v2. now rewrite Heq, Hm.
Qed.

Local Open Scope float_scope.

(** The difference [a - b] is positive exactly when [b] is below [a]:
    this is the test of a comparator [(a, b) => a - b]. *)
Lemma sub_pos_iff (a b : float) : (0 <? a - b) = (b <? a).
Proof.
  rewrite !ltb_spec, sub_spec, Prim2SF_zero.
  pose proof (Prim2SF_valid a) as Va. pose proof (Prim2SF_valid b) as Vb.
  destruct (Prim2SF a) as [sa|sa| |sa ma ea], (Prim2SF b) as [sb|sb| |sb mb eb];
    try reflexivity;
    try (destruct sa; reflexivity);
    try (destruct sb; reflexivity);
    try (destruct sa, sb; reflexivity).
  cbn [valid_binary] in Va, Vb.
  unfold SF64sub, SFsub.
  set (ez := Z.min ea eb).
  destruct (shl_align_value ma ea ez ltac:(lia)) as [Ha _].
  destruct (shl_align_value mb eb ez ltac:(lia)) as [Hb _].
  rewrite Ha, Hb.
  destruct (bounded_binary64 ma ea Va) as (_ & Ra & _).
  destruct (bounded_binary64 mb eb Vb) as (_ & Rb & _).
  destruct (aligned_order ma ea mb eb Va Vb) as [Hlt1 Heq1].
  destruct (aligned_order mb eb ma ea Vb Va) as [Hlt2 _].
  rewrite (Z.min_comm eb ea) in Hlt2. fold ez in Hlt1, Heq1, Hlt2.
  assert (Pa : (0 < Zpos ma * 2 ^ (ea - ez))%Z).
  { apply Z.mul_pos_pos; [lia|]. apply Z.pow_pos_nonneg; lia. }
  assert (Pb : (0 < Zpos mb * 2 ^ (eb - ez))%Z).
  { apply Z.mul_pos_pos; [lia|]. apply Z.pow_pos_nonneg; lia. }
  set (va := (Zpos ma * 2 ^ (ea - ez))%Z) in *.
  set (vb := (Zpos mb * 2 ^ (eb - ez))%Z) in *.
  assert (Hez : (-1074 <= ez)%Z) by lia.
  (* the sign of the rounded difference is the sign of the integer *)
  assert (Hpos : forall z, (0 < z)%Z ->
            SFltb (S754_zero false) (binary_normalize prec emax z ez false) = true).
  { intros [|p|p] Hz; try lia. cbn [binary_normalize].
    pose proof (binary_round_positive false p ez Hez) as Hc.
    destruct (binary_round prec emax false p ez) as [s|s| |s m e];
      try contradiction; now subst s. }
  assert (Hneg : forall z, (z <= 0)%Z ->
            SFltb (S754_zero false) (binary_normalize prec emax z ez false) = false).
  { intros [|p|p] Hz; try lia; [reflexivity|]. cbn [binary_normalize].
    pose proof (binary_round_positive true p ez Hez) as Hc.
    destruct (binary_round prec emax true p ez) as [s|s| |s m e];
      try contradiction; now subst s. }
  unfold SFltb at 2. cbn [SFcompare].
  destruct sa, sb; cbn [cond_Zopp].
  - (* both negative *)
    rewrite Pos.compare_cont_spec, Pos2Z.inj_compare.
    destruct (Z.compare_spec eb ea) as [He|He|He].
    + destruct (Z.compare_spec (Zpos mb) (Zpos ma)) as [Hm|Hm|Hm];
        cbn [Pos.switch_Eq CompOpp].
      * apply Hneg. rewrite (Heq1 (eq_sym He) (eq_sym Hm)). lia.
      * apply Hneg. assert (vb < va)%Z by (apply Hlt2; lia). lia.
      * apply Hpos. assert (va < vb)%Z by (apply Hlt1; lia). lia.
    + apply Hneg. assert (vb < va)%Z by (apply Hlt2; lia). lia.
    + apply Hpos. assert (va < vb)%Z by (apply Hlt1; lia). lia.
  - apply Hneg. lia.
  - apply Hpos. lia.
  - (* both positive *)
    rewrite Pos.compare_cont_spec, Pos2Z.inj_compare.
    destruct (Z.compare_spec eb ea) as [He|He|He].
    + destruct (Z.compare_spec (Zpos mb) (Zpos ma)) as [Hm|Hm|Hm];
        cbn [Pos.switch_Eq].
      * apply Hneg. rewrite (Heq1 (eq_sym He) (eq_sym Hm)). lia.
      * apply Hpos. assert (vb < va)%Z by (apply Hlt2; lia). lia.
      * apply Hneg. assert (va < vb)%Z by (apply Hlt1; lia). lia.
    + apply Hpos. assert (vb < va)%Z by (apply Hlt2; lia). lia.
    + apply Hneg. assert (va < vb)%Z by (apply Hlt1; lia). lia.
Qed.

End DifferenceSign.

Section SortFacts.
Import JS Types Physics Reading.
Local Open Scope float_scope.

Lemma insertByX_test (a b : CpPoint.t) :
  (0 <? CpPoint.x a - CpPoint.x b) = (CpPoint.x b <? CpPoint.x a).
Proof. apply sub_pos_iff. Qed.

Lemma insertByX_perm (a : CpPoint.t) (l : list CpPoint.t) :
  Permutation (insertByX a l) (a :: l).
Proof.
  induction l as [|b l IH]; cbn [insertByX]; [reflexivity|].
  destruct (0 <? _); [|reflexivity].
  rewrite IH. apply perm_swap.
Qed.

Lemma sortByX_perm (l : list CpPoint.t) : Permutation (sortByX l) l.
Proof.
  induction l as [|a l IH]; cbn [sortByX fold_right]; [reflexivity|].
  fold (sortByX l). rewrite insertByX_perm. now apply perm_skip.
Qed.

Lemma insertByX_head (a : CpPoint.t) (l : list CpPoint.t) (b : CpPoint.t) :
  not_left_of b a -> HdRel not_left_of b l ->
  HdRel not_left_of b (insertByX a l).
Proof.
  intros Hba Hl. destruct l as [|c l]; cbn [insertByX]; [now constructor|].
  destruct (0 <? _); constructor; [|assumption].
  now inversion Hl.
Qed.

Lemma insertByX_sorted (a : CpPoint.t) (l : list CpPoint.t) :
  Sorted not_left_of l -> Sorted not_left_of (insertByX a l).
Proof.
  induction 1 as [|b l Hs IH Hhd]; cbn [insertByX].
  - repeat constructor.
  - rewrite insertByX_test.
    destruct (CpPoint.x b <? CpPoint.x a) eqn:Hlt.
    + constructor; [assumption|]. apply insertByX_head; [|assumption].
      unfold not_left_of. now apply ltb_asym.
    + constructor; [now constructor|]. constructor. exact Hlt.
Qed.

Lemma sortByX_sorted (l : list CpPoint.t) : Sorted not_left_of (sortByX l).
Proof.
  induction l as [|a l IH]; cbn [sortByX fold_right]; [constructor|].
  fold (sortByX l). now apply insertByX_sorted.
Qed.

Lemma leb_trans (a b c : float) :
  (a <=? b) = true -> (b <=? c) = true -> (a <=? c) = true.
Proof.
  intros H1 H2. apply leb_key in H1, H2. apply leb_key.
  destruct H1 as (Na & _ & H1), H2 as (_ & Nc & H2).
  split; [assumption|]. split; [assumption|].
  revert H1 H2. key_arith.
Qed.

Lemma not_below_le (a b : float) :
  is_nan a = false -> is_nan b = false -> (b <? a) = false -> (a <=? b) = true.
Proof.
  intros Ha Hb Hlt.
  destruct (nan_or_number a) as [[Ha' _]|[_ Na]]; [congruence|].
  destruct (nan_or_number b) as [[Hb' _]|[_ Nb]]; [congruence|].
  apply leb_key. split; [assumption|]. split; [assumption|].
  intros H. assert (H' : (b <? a) = true); [|congruence].
  apply ltb_key. now repeat split.
Qed.

(** Without NaN abscissas, a list in which no point is left of its
    predecessor is in ascending order throughout. *)
Lemma sorted_ascending (l : list CpPoint.t) :
  Forall (fun c => is_nan (CpPoint.x c) = false) l ->
  Sorted not_left_of l -> StronglySorted x_le l.
Proof.
  intros Hnum Hs. induction Hs as [|a l Hs IH Hhd]; [constructor|].
  inversion Hnum as [|? ? Ha Hl]; subst.
  specialize (IH Hl). constructor; [assumption|].
  destruct l as [|b l]; [constructor|].
  inversion Hhd as [|? ? Hab]; subst.
  inversion Hl as [|? ? Hb Hl']; subst.
  assert (Hle : x_le a b) by (apply not_below_le; assumption).
  constructor; [assumption|].
  inversion IH as [|? ? _ Hall]; subst.
  eapply Forall_impl; [exact Hall|].
  intros c Hbc. unfold x_le in *. now apply (leb_trans _ (CpPoint.x b)).
Qed.

End SortFacts.

Section MidpointFacts.
Import JS Types Physics Reading.
Local Open Scope float_scope.

Lemma binary_normalize_class (z e : Z) (szero : bool) :
  binary_normalize prec emax z e szero <> S754_nan.
Proof.
  destruct z as [|p|p]; cbn [binary_normalize]; [discriminate| |];
    unfold binary_round;
    destruct (shl_align p e _) as [mz ez];
    match goal with
    | |- binary_round_aux _ _ ?s ?m ?e ?l <> _ =>
        pose proof (binary_round_aux_class prec emax s m e l ltac:(lia)) as Hc;
        intros Heq; now rewrite Heq in Hc
    end.
Qed.

Lemma is_finite_class (v : float) :
  is_finite v = true ->
  match Prim2SF v with
  | S754_zero _ | S754_finite _ _ _ => True
  | _ => False
  end.
Proof.
  unfold is_finite, is_nan, is_infinity.
  rewrite !FloatAxioms.eqb_spec, abs_spec.
  change (Prim2SF infinity) with (S754_infinity false).
  destruct (Prim2SF v) as [s|[]| |s m e]; try discriminate; intros _; exact I.
Qed.

(** The midpoint of two finite coordinates is a number (it may be an
    infinity, when the sum overflows). *)
Lemma midpoint_number (a b : float) :
  is_finite a = true -> is_finite b = true -> is_nan ((a + b) / 2) = false.
Proof.
  intros Ha Hb. apply is_finite_class in Ha, Hb.
  destruct (is_nan ((a + b) / 2)) eqn:Hn; [|reflexivity]. exfalso.
  apply is_nan_Prim2SF in Hn. rewrite div_spec, add_spec in Hn.
  change (Prim2SF 2) with (S754_finite false 4503599627370496 (-51)) in Hn.
  assert (Hsum : SF64add (Prim2SF a) (Prim2SF b) <> S754_nan).
  { unfold SF64add, SFadd.
    destruct (Prim2SF a) as [sa|sa| |sa ma ea], (Prim2SF b) as [sb|sb| |sb mb eb];
      try contradiction; try discriminate.
    - destruct sa, sb; discriminate.
    - apply binary_normalize_class. }
  unfold SF64div, SFdiv in Hn.
  destruct (SF64add (Prim2SF a) (Prim2SF b)) as [s|s| |s m e];
    try discriminate; [now apply Hsum|].
  pose proof (div_core_nonneg m e 4503599627370496 (-51)) as Hnn.
  destruct (SFdiv_core_binary prec emax (Zpos m) e _ (-51)) as [[mz ez] lz].
  cbn [fst] in Hnn.
  pose proof (binary_round_aux_class prec emax (xorb s false) mz ez lz Hnn) as Hc.
  now rewrite Hn in Hc.
Qed.

End MidpointFacts.

Section ForcesFacts.
Import JS Types Physics Reading.
Local Open Scope float_scope.

Variable Math : MathLib.

Lemma mapM_ext {A B} (f g : A -> completion B) (l : list A) :
  (forall a, f a = g a) -> mapM f l = mapM g l.
Proof.
  intros H. induction l as [|a l IH]; cbn [mapM]; [reflexivity|].
  now rewrite H, IH.
Qed.

Lemma mapM_map {A B C} (f : B -> completion C) (h : A -> B) (l : list A) :
  mapM f (map h l) = mapM (fun a => f (h a)) l.
Proof.
  induction l as [|a l IH]; cbn [mapM map]; [reflexivity|]. now rewrite IH.
Qed.

(** Reading an array at every index, in order. *)
Lemma mapM_get_obj {A B} (g : nat -> A -> B) (l : list A) :
  mapM (fun i => let! c := get_obj l i in Normal (g i c)) (seq 0 (length l))
  = Normal (imap g l).
Proof.
  revert g. induction l as [|a l IH]; intros g; [reflexivity|].
  cbn [length seq mapM get_obj lookup list_lookup bind].
  rewrite <- seq_shift, mapM_map.
  rewrite (mapM_ext _ (fun i => let! c := get_obj l i in Normal (g (S i) c)))
    by reflexivity.
  rewrite (IH (fun i => g (S i))). reflexivity.
Qed.

(** The pressure distribution that [calculatePhysics] holds at its
    [return]: one point per panel, at the panel's midpoint, sorted. *)
Lemma forces_cpDist (shape : list Point) (speed alphaDeg : number)
    (chordLength : option number) :
  (1 <= length shape)%nat ->
  exists f panels,
    forces Math shape speed alphaDeg chordLength = Normal f /\
    panelsOf shape (Z.of_nat (length shape) - 1) = Normal panels /\
    length panels = (length shape - 1)%nat /\
    cpDist f = sortByX (imap (pressurePoint Math speed (gamma f))
                             (map controlPoint panels)).
Proof.
  intros Hlen. unfold forces.
  destruct (panelsOf_returns shape Hlen) as [panels [Hp Hpl]].
  rewrite Hp. cbn [bind].
  destruct (Z.ltb_spec (Z.of_nat (length shape) - 1) 0) as [Hneg|_]; [lia|].
  set (n := Z.to_nat (Z.of_nat (length shape) - 1)).
  assert (Hn : n = length (map controlPoint panels)).
  { rewrite length_map, Hpl. subst n. lia. }
  destruct (mapM_Normal
              (fun i => mapM (influence Math (map controlPoint panels)
                                (map (panelLength Math) panels)
                                (map (panelAngle Math) panels) i) (seq 0 n))
              (seq 0 n)) as [A [HA _]].
  { intros i Hi. apply elem_of_seq in Hi.
    destruct (mapM_Normal
                (influence Math (map controlPoint panels)
                   (map (panelLength Math) panels)
                   (map (panelAngle Math) panels) i) (seq 0 n)) as [row [Hrow _]].
    - intros j Hj. apply elem_of_seq in Hj.
      apply influence_returns; lia.
    - now exists row. }
  rewrite HA. cbn [bind].
  set (gam := solveGamma A _ n).
  pose proof (mapM_get_obj (pressurePoint Math speed gam)
                (map controlPoint panels)) as Hcp.
  rewrite <- Hn in Hcp. unfold pressurePoint in Hcp.
  cbv zeta. cbv zeta in Hcp. rewrite Hcp. cbn [bind].
  eexists. exists panels. split; [reflexivity|]. split; [reflexivity|].
  split; [assumption|]. reflexivity.
Qed.

End ForcesFacts.

Section PhysicsExtras.
Import JS Types Physics Reading.
Local Open Scope float_scope.

(** X1. Partial pivoting: for column [i] the solver's pivot search returns
    a row between [i] and the last row whose entry in that column is not
    exceeded in magnitude by the entry of any row from [i] on, and it is
    the first such row: every earlier candidate has a strictly smaller
    entry (or a NaN). *)
Theorem X1_pivot_row_has_largest_magnitude (M : list (list number)) (i : nat) :
  (i < length M)%nat ->
  let magnitude := fun k => Math_abs (get_num (default [] (M !! k)) i) in
  exists r,
    pivotRow M (length M) i = Normal r /\
    (i <= r < length M)%nat /\
    (forall k, (i <= k < length M)%nat ->
               (magnitude r <? magnitude k) = false) /\
    (forall k, (i <= k < r)%nat ->
               is_nan (magnitude k) = true \/
               (magnitude k <? magnitude r) = true).
Proof.
  intros Hi magnitude. unfold pivotRow.
  destruct (pivot_scan M i (length M - (i + 1))) as (r & Hr & Hrange & Hmax & Hfirst);
    [lia|].
  exists r. split; [exact Hr|]. split; [lia|]. split.
  - intros k Hk. apply Hmax. lia.
  - exact Hfirst.
Qed.

(** X1 (witness): a system of three equations whose second row has the
    largest entry in the first column. *)
Lemma X1_pivot_row_has_largest_magnitude_witness :
  let M := [[1; 2; 3]; [-4; 5; 6]; [2; 8; 9]] in
  (0 < length M)%nat /\
  let magnitude := fun k => Math_abs (get_num (default [] (M !! k)) 0) in
  exists r,
    pivotRow M (length M) 0 = Normal r /\
    (0 <= r < length M)%nat /\
    (forall k, (0 <= k < length M)%nat ->
               (magnitude r <? magnitude k) = false) /\
    (forall k, (0 <= k < r)%nat ->
               is_nan (magnitude k) = true \/
               (magnitude k <? magnitude r) = true).
Proof.
  cbv zeta. split.
  - simpl. lia.
  - apply (X1_pivot_row_has_largest_magnitude
             [[1; 2; 3]; [-4; 5; 6]; [2; 8; 9]] 0).
    simpl. lia.
Defined.

(** X2. The solver has no failure path: for every matrix and right-hand
    side (square or ragged, singular or not, empty) it returns one unknown
    per row of the matrix; the empty system has the empty solution and a
    single equation [a * x = c] the solution [c / a]. *)
Theorem X2_solver_returns_for_every_system :
  (forall (A : list (list number)) (b : list number),
     exists sol, solveLinearSystem A b = Normal sol /\ length sol = length A) /\
  (forall b : list number, solveLinearSystem [] b = Normal []) /\
  (forall a c : number, solveLinearSystem [[a]] [c] = Normal [c / a]).
Proof.
  split; [|split].
  - intros A b. apply solveLinearSystem_returns.
  - intros b. reflexivity.
  - intros a c. reflexivity.
Qed.

(** X3. The empty polygon makes [calculatePhysics] throw a [RangeError]
    (the allocation [Array(-1)]); a polygon with at least one vertex makes
    it return, with one point of the pressure distribution per panel, that
    is one less than there are vertices. *)
Theorem X3_only_the_empty_polygon_throws (Math : MathLib)
    (speed alphaDeg : number) (chordLength : option number) :
  calculatePhysics Math [] speed alphaDeg chordLength = Throw RangeError /\
  (forall (p : Point) (rest : list Point),
     exists r,
       calculatePhysics Math (p :: rest) speed alphaDeg chordLength = Normal r /\
       length (cpDistribution r) = length rest).
Proof.
  split; [reflexivity|]. intros p rest.
  destruct (forces_cpDist Math (p :: rest) speed alphaDeg chordLength)
    as (f & panels & Hf & _ & Hlen & Hcp); [cbn; lia|].
  unfold calculatePhysics. rewrite Hf. cbn [bind].
  eexists. split; [reflexivity|]. cbn [cpDistribution].
  rewrite Hcp, (Permutation_length (sortByX_perm _)).
  rewrite length_imap, length_map, Hlen. cbn [length]. lia.
Qed.

(** X4. Whatever the polygon (with at least one vertex), the speed and the
    angle, the returned lift coefficient is not NaN and the returned drag
    coefficient is neither NaN nor zero, so the ratio L/D that the analysis
    panel shows is NaN only when both coefficients are infinite. *)
Theorem X4_returned_coefficients_guarded (Math : MathLib) (p : Point)
    (rest : list Point) (speed alphaDeg : number) (chordLength : option number) :
  exists r,
    calculatePhysics Math (p :: rest) speed alphaDeg chordLength = Normal r /\
    is_nan (liftCoefficient r) = false /\
    is_nan (dragCoefficient r) = false /\
    (dragCoefficient r =? 0) = false /\
    (is_nan (liftCoefficient r / dragCoefficient r) = true ->
     is_infinity (liftCoefficient r) = true /\
     is_infinity (dragCoefficient r) = true).
Proof.
  destruct (calculatePhysics_returns Math (p :: rest) speed alphaDeg chordLength)
    as (f & r & _ & Hr & Hl & Hd & _); [cbn; lia|].
  exists r. split; [assumption|].
  assert (Hlift : is_nan (liftCoefficient r) = false).
  { rewrite Hl. unfold logical_or, truthy.
    destruct (is_nan (Cl f)) eqn:Hn; cbn [orb negb]; [reflexivity|].
    destruct (Cl f =? 0); cbn [negb]; [reflexivity|assumption]. }
  assert (Hdrag : is_nan (dragCoefficient r) = false /\
                  (dragCoefficient r =? 0) = false).
  { rewrite Hd. unfold logical_or, truthy.
    destruct (is_nan (Cd f)) eqn:Hn; cbn [orb negb]; [split; reflexivity|].
    destruct (Cd f =? 0) eqn:Hz; cbn [negb]; [split; reflexivity|now split]. }
  destruct Hdrag as [Hdn Hdz].
  split; [assumption|]. split; [assumption|]. split; [assumption|].
  intros Hq.
  destruct (div_nan_cases _ _ Hlift Hdn Hq) as [[_ Hz]|Hinf]; [congruence|assumption].
Qed.

Lemma mapM_elem {A B} (f : A -> completion B) (l : list A) (bs : list B) :
  mapM f l = Normal bs ->
  forall b, b ∈ bs -> exists a, a ∈ l /\ f a = Normal b.
Proof.
  revert bs. induction l as [|a l IH]; intros bs; cbn [mapM].
  - intros [= <-] b Hb. now apply elem_of_nil in Hb.
  - destruct (f a) as [b0|e] eqn:Hfa; cbn [bind]; [|discriminate].
    destruct (mapM f l) as [bs0|e]; cbn [bind]; [|discriminate].
    intros [= <-] b Hb. apply elem_of_cons in Hb. destruct Hb as [->|Hb].
    + exists a. split; [left|assumption].
    + destruct (IH bs0 eq_refl b Hb) as (a' & Ha' & Hf').
      exists a'. split; [now right|assumption].
Qed.

Lemma panelsOf_elem (shape : list Point) (n : Z) (panels : list (Point * Point)) :
  panelsOf shape n = Normal panels ->
  forall pr, pr ∈ panels -> fst pr ∈ shape /\ snd pr ∈ shape.
Proof.
  intros Hp pr Hpr. unfold panelsOf in Hp.
  destruct (mapM_elem _ _ _ Hp pr Hpr) as (i & _ & Hi).
  unfold get_obj in Hi.
  destruct (shape !! i) as [p1|] eqn:H1; cbn [bind] in Hi; [|discriminate].
  destruct (shape !! (i + 1)%nat) as [p2|] eqn:H2; cbn [bind] in Hi; [|discriminate].
  injection Hi as <-. cbn [fst snd].
  split; eapply list_elem_of_lookup_2; eassumption.
Qed.

(** X5. For a polygon whose vertices have finite abscissas, the returned
    pressure distribution is the list of the panels' points (abscissa of
    the panel's midpoint, pressure coefficient of the panel) rearranged in
    ascending order of abscissa. *)
Theorem X5_pressure_distribution_sorted (Math : MathLib) (p : Point)
    (rest : list Point) (speed alphaDeg : number) (chordLength : option number) :
  Forall (fun v => is_finite (x v) = true) (p :: rest) ->
  exists f r panels,
    forces Math (p :: rest) speed alphaDeg chordLength = Normal f /\
    calculatePhysics Math (p :: rest) speed alphaDeg chordLength = Normal r /\
    panelsOf (p :: rest) (Z.of_nat (length rest)) = Normal panels /\
    Permutation (cpDistribution r)
      (imap (pressurePoint Math speed (gamma f)) (map controlPoint panels)) /\
    StronglySorted x_le (cpDistribution r).
Proof.
  intros Hfin.
  destruct (forces_cpDist Math (p :: rest) speed alphaDeg chordLength)
    as (f & panels & Hf & Hp & Hlen & Hcp); [cbn; lia|].
  replace (Z.of_nat (length (p :: rest)) - 1)%Z with (Z.of_nat (length rest)) in Hp
    by (cbn [length]; lia).
  exists f. unfold calculatePhysics. rewrite Hf. cbn [bind].
  eexists. exists panels. split; [reflexivity|]. split; [reflexivity|].
  split; [assumption|]. cbn [cpDistribution]. rewrite Hcp.
  split; [apply sortByX_perm|].
  apply sorted_ascending; [|apply sortByX_sorted].
  rewrite (sortByX_perm _).
  apply Forall_forall. intros c Hc.
  apply elem_of_lookup_imap in Hc. destruct Hc as (i & cp & -> & Hi).
  cbn [pressurePoint CpPoint.x].
  apply list_elem_of_lookup_2 in Hi. apply list_elem_of_fmap in Hi.
  destruct Hi as (pr & -> & Hpr).
  destruct (panelsOf_elem _ _ _ Hp pr Hpr) as [H1 H2].
  rewrite Forall_forall in Hfin.
  cbn [controlPoint x]. apply midpoint_number; apply Hfin; assumption.
Qed.

(** X5 (witness): the flat plate. *)
Lemma X5_pressure_distribution_sorted_witness :
  Forall (fun v => is_finite (x v) = true) Samples.plate /\
  exists f r panels,
    forces RefMath.lib Samples.plate 45 5 None = Normal f /\
    calculatePhysics RefMath.lib Samples.plate 45 5 None = Normal r /\
    panelsOf Samples.plate 3 = Normal panels /\
    Permutation (cpDistribution r)
      (imap (pressurePoint RefMath.lib 45 (gamma f)) (map controlPoint panels)) /\
    StronglySorted x_le (cpDistribution r).
Proof.
  assert (H : Forall (fun v => is_finite (x v) = true) Samples.plate)
    by (repeat constructor).
  split; [exact H|].
  exact (X5_pressure_distribution_sorted RefMath.lib _ _ 45 5 None H).
Defined.

(** X6. For an angle of a whole number of degrees between -180 and 180, as
    the angle slider produces them, the stall branch of the lift and of
    the drag is taken exactly when the angle exceeds 15 degrees in
    magnitude: 15 degrees itself is not stalled, 16 degrees is. *)
Theorem X6_stall_threshold_in_whole_degrees (Math : MathLib) (p : Point)
    (rest : list Point) (speed : number) (k : Z) (chordLength : option number) :
  (-180 <= k <= 180)%Z ->
  exists f,
    forces Math (p :: rest) speed (of_int k) chordLength = Normal f /\
    let alpha := of_int k * (Math_PI / 180) in
    let kuttaJoukowski := (2 * Circulation f) / (speed * 200) in
    let Cd0 := 2 * (0.074 / Math_pow Math (Re f) 0.2)
               * (1 + 2 * 0.12 + 60 * Math_pow Math 0.12 4) in
    Cl f = (if (15 <? Z.abs k)%Z
            then kuttaJoukowski * (Math_cos Math alpha * 0.8)
            else kuttaJoukowski) /\
    Cd f = (if (15 <? Z.abs k)%Z
            then Cd0 + 1.8 * Math_pow Math (Math_sin Math alpha) 2
            else Cd0 + (Cl f * Cl f) / (Math_PI * 50)).
Proof.
  intros Hk.
  destruct (forces_returns Math (p :: rest) speed (of_int k) chordLength)
    as (f & Hf & _ & HCl & HCd); [cbn; lia|].
  exists f. split; [assumption|]. cbv zeta.
  assert (Hst : stalled (of_int k * (Math_PI / 180)) = (15 <? Z.abs k)%Z).
  { pose proof stalled_whole_degrees as H. rewrite forallb_forall in H.
    apply Bool.eqb_prop, H. apply in_map_iff.
    exists (Z.to_nat (k + 180)). split; [lia|]. apply in_seq. lia. }
  rewrite HCd, HCl. unfold liftOf, dragOf. cbv zeta. rewrite Hst.
  split; reflexivity.
Qed.

(** X6 (witness): 16 degrees. *)
Lemma X6_stall_threshold_in_whole_degrees_witness :
  (-180 <= 16 <= 180)%Z /\
  exists f,
    forces RefMath.lib Samples.plate 45 (of_int 16) None = Normal f /\
    let alpha := of_int 16 * (Math_PI / 180) in
    let kuttaJoukowski := (2 * Circulation f) / (45 * 200) in
    let Cd0 := 2 * (0.074 / Math_pow RefMath.lib (Re f) 0.2)
               * (1 + 2 * 0.12 + 60 * Math_pow RefMath.lib 0.12 4) in
    Cl f = (if (15 <? Z.abs 16)%Z
            then kuttaJoukowski * (Math_cos RefMath.lib alpha * 0.8)
            else kuttaJoukowski) /\
    Cd f = (if (15 <? Z.abs 16)%Z
            then Cd0 + 1.8 * Math_pow RefMath.lib (Math_sin RefMath.lib alpha) 2
            else Cd0 + (Cl f * Cl f) / (Math_PI * 50)).
Proof.
  split; [lia|].
  apply (X6_stall_threshold_in_whole_degrees RefMath.lib _ _ 45 16 None). lia.
Defined.

End PhysicsExtras.

(* ===================================================================== *)
(** * Further properties of the lattice engine *)
(* ===================================================================== *)

Ltac settle_tests :=
  repeat match goal with
    | |- context [(?a <=? ?b)%Z] =>
        first [ rewrite (proj2 (Z.leb_le a b)) by lia
              | rewrite (proj2 (Z.leb_gt a b)) by lia ]
    | |- context [(?a <? ?b)%Z] =>
        first [ rewrite (proj2 (Z.ltb_lt a b)) by lia
              | rewrite (proj2 (Z.ltb_ge a b)) by lia ]
    end.

Section TunnelFacts.
Import JS Types WindTunnel Views.
Local Open Scope float_scope.

Lemma streamCell_length n0 b n1 x y :
  length (streamCell n0 b n1 x y) = length n1.
Proof.
  unfold streamCell. destruct (_ =? _)%Z; [|reflexivity].
  apply (fold_left_kept (@length number)). intros s k _. apply streamDir_length.
Qed.

Lemma resetSolid_length b n1 x y : length (resetSolid b n1 x y) = length n1.
Proof.
  unfold resetSolid. destruct (_ =? _)%Z; [reflexivity|].
  apply (fold_left_kept (@length number)). intros s k _. apply f32_set_length.
Qed.

Lemma collideCell_sizes (u0 : number) st x y :
  length (density (collideCell u0 st x y)) = length (density st) /\
  length (ux (collideCell u0 st x y)) = length (ux st) /\
  length (uy (collideCell u0 st x y)) = length (uy st).
Proof.
  unfold collideCell. destruct (_ =? _)%Z; [|auto].
  destruct (moments (n0 st) (y * COLS + x)) as [[d u_x] u_y].
  destruct (x =? 0)%Z; cbn [density ux uy]; rewrite !f32_set_length; auto.
Qed.

Lemma collide_sizes (u0 : number) st :
  length (density (collide u0 st)) = length (density st) /\
  length (ux (collide u0 st)) = length (ux st) /\
  length (uy (collide u0 st)) = length (uy st).
Proof.
  unfold collide. repeat split.
  - apply (forCells_kept (fun s => length (density s))). intros s x y _ _.
    apply (collideCell_sizes u0 s x y).
  - apply (forCells_kept (fun s => length (ux s))). intros s x y _ _.
    apply (collideCell_sizes u0 s x y).
  - apply (forCells_kept (fun s => length (uy s))). intros s x y _ _.
    apply (collideCell_sizes u0 s x y).
Qed.

(** A step keeps the sizes of the arrays and the mask. *)
Lemma simulate_allocated (windSpeed : number) st :
  allocated st ->
  allocated (simulate windSpeed st) /\
  barrier (simulate windSpeed st) = barrier st.
Proof.
  intros (H0 & H1 & Hd & Hux & Huy & Hb).
  destruct (collide_frame (inflowSpeed windSpeed) st) as (Eb & En1 & El0).
  destruct (collide_sizes (inflowSpeed windSpeed) st) as (Ed & Eux & Euy).
  unfold simulate, allocated. cbn [n0 n1 density ux uy barrier].
  rewrite Eb, En1, El0, Ed, Eux, Euy.
  rewrite (forCells_kept (@length number)) by (intros; apply resetSolid_length).
  rewrite (forCells_kept (@length number)) by (intros; apply streamCell_length).
  repeat split; assumption.
Qed.

Lemma steps_allocated (windSpeed : number) (n : nat) st :
  allocated st ->
  allocated (Nat.iter n (simulate windSpeed) st) /\
  barrier (Nat.iter n (simulate windSpeed) st) = barrier st.
Proof.
  intros Hal. induction n as [|n [IHa IHb]]; [now split|].
  rewrite Nat.iter_succ.
  destruct (simulate_allocated windSpeed _ IHa) as [Ha Hb].
  split; [assumption|congruence].
Qed.

Lemma cell_view_density idx st :
  view_density (cell_view idx st) = at_index idx (density st).
Proof. reflexivity. Qed.

Lemma simulate_density (windSpeed : number) st x y :
  (0 <= x < COLS)%Z -> (0 <= y < ROWS)%Z ->
  ta_get (density (simulate windSpeed st)) (y * COLS + x)
  = ta_get (density (collideCell (inflowSpeed windSpeed) st x y)) (y * COLS + x).
Proof.
  intros Hx Hy.
  change (density (simulate windSpeed st))
    with (density (collide (inflowSpeed windSpeed) st)).
  pose proof (collide_at (inflowSpeed windSpeed) st x y Hx Hy) as H.
  pose proof (f_equal view_density H) as Hd.
  rewrite !cell_view_density in Hd. exact (at_index_value _ _ _ Hd).
Qed.

Lemma allocated_cell st x y :
  allocated st -> (0 <= x < COLS)%Z -> (0 <= y < ROWS)%Z ->
  (0 <= y * COLS + x < Z.of_nat (length (density st)))%Z /\
  (0 <= y * COLS + x < Z.of_nat (length (barrier st)))%Z.
Proof.
  intros (_ & _ & Hd & _ & _ & Hb) Hx Hy. rewrite Hd, Hb.
  clear Hd Hb. unfold ROWS, COLS in *. lia.
Qed.

(** A source beyond the right edge: the streaming loop writes nothing, the
    population is what the next buffer held. *)
Lemma stream_from_right (windSpeed : number) st x y i :
  (0 <= x < COLS)%Z -> (0 <= y < ROWS)%Z -> (0 <= i < Q)%Z ->
  u8_get (barrier st) (y * COLS + x) = 0%Z ->
  (COLS <= x - ex_at i)%Z ->
  ta_get (n0 (simulate windSpeed st)) ((y * COLS + x) * Q + i)
  = ta_get (n1 st) ((y * COLS + x) * Q + i).
Proof.
  intros Hx Hy Hi Hfluid Hsx.
  rewrite simulate_population by assumption.
  unfold streamDir.
  destruct (Z.ltb_spec (y - ey_at i) 0) as [Hlo|Hlo];
    destruct (Z.leb_spec ROWS (y - ey_at i)) as [Hhi|Hhi];
    try (exfalso; unfold ROWS in *; lia);
    settle_tests; cbn [andb orb]; reflexivity.
Qed.

Lemma simulate_barrier (windSpeed : number) st :
  barrier (simulate windSpeed st) = barrier st.
Proof.
  change (barrier (simulate windSpeed st))
    with (barrier (collide (inflowSpeed windSpeed) st)).
  apply collide_frame.
Qed.

Lemma simulate_next (windSpeed : number) st :
  n1 (simulate windSpeed st) = n0 (collide (inflowSpeed windSpeed) st).
Proof. reflexivity. Qed.

(** [Math.min(hi, c)] is never above [hi]. *)
Lemma Math_min_not_above (hi c : float) : (hi <? Math_min hi c) = false.
Proof.
  unfold Math_min.
  destruct (is_nan hi || is_nan c).
  - destruct (hi <? nan) eqn:H; [|reflexivity].
    apply ltb_key in H. now destruct H as (_ & H & _).
  - destruct (hi <? c) eqn:H1; [apply ltb_irrefl|].
    destruct (c <? hi) eqn:H2; [now apply ltb_asym|].
    destruct (get_sign hi); [apply ltb_irrefl|assumption].
Qed.

(** The velocity a step stores for a fluid cell outside the inflow column
    is the clamped velocity, rounded. *)
Lemma step_velocity_bounded (windSpeed : number) st x y :
  allocated st -> (0 < x < COLS)%Z -> (0 <= y < ROWS)%Z ->
  u8_get (barrier st) (y * COLS + x) = 0%Z ->
  let vx := ta_get (ux (simulate windSpeed st)) (y * COLS + x) in
  is_nan vx = true \/ (Math_abs vx <=? 0.35) = true.
Proof.
  intros Hal Hx Hy Hfluid. cbv zeta.
  destruct (simulate_velocity windSpeed st x y) as [Hux _]; [lia|lia|].
  rewrite Hux. unfold collideCell. rewrite Hfluid.
  change (0 =? 0)%Z with true. cbv iota.
  destruct (moments (n0 st) (y * COLS + x)) as [[d u_x] u_y].
  destruct (Z.eqb_spec x 0) as [Hx0|_]; [lia|].
  cbn [ux].
  destruct (allocated_index st x y 0 Hal) as (_ & _ & Hix & _);
    [lia|lia|unfold Q; lia|].
  rewrite written_value by assumption.
  apply stored_velocity_bound.
Qed.

Lemma small_is_finite (v : float) :
  (Math_abs v <=? 0.35) = true -> is_nan v = false /\ is_finite v = true.
Proof.
  unfold Math_abs. rewrite leb_spec, abs_spec, Prim2SF_035. intros H.
  assert (Hn : is_nan v = false).
  { destruct (is_nan v) eqn:E; [|reflexivity].
    apply is_nan_Prim2SF in E. rewrite E in H. discriminate H. }
  split; [assumption|].
  unfold is_finite. rewrite Hn. cbn [orb].
  unfold is_infinity. rewrite FloatAxioms.eqb_spec, abs_spec.
  change (Prim2SF infinity) with (S754_infinity false).
  destruct (Prim2SF v) as [s|s| |s m e]; cbn [SFabs] in *;
    try reflexivity; discriminate H.
Qed.

(** Rasterizing touches the mask only. *)
Lemma rasterize_frame (fuel : nat) (polygon : list Point)
    (gridWidth gridHeight : number) (st st' : Tunnel) :
  rasterizePolygon fuel polygon gridWidth gridHeight st = Some st' ->
  clearBarrier st' = clearBarrier st.
Proof.
  intros Hrun. unfold rasterizePolygon in Hrun.
  destruct (length polygon <? 3)%nat.
  - injection Hrun as <-. unfold clearBarrier. cbn [n0 n1 density ux uy barrier].
    now rewrite length_replicate.
  - destruct (bounds (toGrid polygon) gridWidth gridHeight)
      as [[[minX maxX] minY] maxY].
    destruct (rasterRows _ _ _ _ _ _ _) as [b'|] eqn:Hrows; [|discriminate].
    injection Hrun as <-.
    apply rasterRows_only_marked in Hrows.
    + destruct Hrows as [_ Hl]. unfold clearBarrier, withBarrier.
      cbn [n0 n1 density ux uy barrier]. rewrite Hl.
      cbn [clearBarrier barrier]. now rewrite length_replicate.
    + intros k. left. cbn [clearBarrier barrier]. apply u8_get_replicate.
Qed.

(** What a step stores in a fluid cell of the inflow column. *)
Lemma inflow_cell_stored (windSpeed : number) (st : Tunnel) (y : Z) :
  allocated st -> (0 <= y < ROWS)%Z ->
  u8_get (barrier st) (y * COLS + 0) = 0%Z ->
  ta_get (density (simulate windSpeed st)) (y * COLS + 0) = 1 /\
  ta_get (ux (simulate windSpeed st)) (y * COLS + 0)
  = fround (inflowSpeed windSpeed) /\
  ta_get (uy (simulate windSpeed st)) (y * COLS + 0) = 0.
Proof.
  intros Hal Hy Hfluid.
  assert (Hx : (0 <= 0 < COLS)%Z) by (unfold COLS; lia).
  destruct (simulate_velocity windSpeed st 0 y Hx Hy) as [Hux Huy].
  rewrite simulate_density, Hux, Huy by assumption.
  unfold collideCell. rewrite Hfluid.
  change (0 =? 0)%Z with true. cbv iota.
  destruct (moments (n0 st) (y * COLS + 0)) as [[d u_x] u_y].
  cbn [density ux uy].
  destruct (allocated_index st 0 y 0 Hal Hx Hy) as (_ & _ & Hix & Hiy);
    [unfold Q; lia|].
  destruct (allocated_cell st 0 y Hal Hx Hy) as [Hid _].
  rewrite !written_value by assumption.
  split; [vm_compute; reflexivity|]. split; [reflexivity|].
  vm_compute; reflexivity.
Qed.

End TunnelFacts.

Section TunnelExtras.
Import JS Types WindTunnel Views Render.
Local Open Scope float_scope.

Lemma allocated_newTunnel : allocated newTunnel.
Proof. unfold allocated. repeat apply conj; vm_compute; reflexivity. Qed.

Lemma fill_weights_at (a : list number) (k : Z) :
  (0 <= k < ROWS * COLS * Q)%Z -> (k < Z.of_nat (length a))%Z ->
  ta_get (fold_left (fun a i => f32_set a i (w_at (Z.rem i Q)))
                    (range (ROWS * COLS * Q)) a) k
  = fround (w_at (Z.rem k Q)).
Proof.
  intros Hk Hlen.
  assert (H : at_index k (fold_left (fun a i => f32_set a i (w_at (Z.rem i Q)))
                                    (range (ROWS * COLS * Q)) a)
              = at_index k (f32_set a k (w_at (Z.rem k Q)))).
  { apply (fold_left_at (at_index k)
             (fun a i => f32_set a i (w_at (Z.rem i Q)))).
    - apply NoDup_range.
    - now apply elem_of_range.
    - intros s j _ Hne. now apply at_index_f32_set_kept.
    - intros s s' Hs. now apply at_index_f32_set_respects. }
  rewrite (at_index_value _ _ _ H). apply written_value. lia.
Qed.

Lemma fill_weights_length (a : list number) :
  length (fold_left (fun a i => f32_set a i (w_at (Z.rem i Q)))
                    (range (ROWS * COLS * Q)) a) = length a.
Proof.
  apply (fold_left_kept (@length number)). intros s k _. apply f32_set_length.
Qed.

(** X7. [initFluid] puts the fluid at rest: in both distribution buffers
    every population of every cell is the lattice weight of its direction
    (as a [Float32Array] holds it), no cell is solid, the arrays keep their
    sizes; the stored densities and velocities are not reset. *)
Theorem X7_initFluid_puts_fluid_at_rest (st : Tunnel) (x y i : Z) :
  allocated st ->
  (0 <= x < COLS)%Z -> (0 <= y < ROWS)%Z -> (0 <= i < Q)%Z ->
  let st' := initFluid st in
  let k := ((y * COLS + x) * Q + i)%Z in
  ta_get (n0 st') k = fround (w_at i) /\
  ta_get (n1 st') k = fround (w_at i) /\
  u8_get (barrier st') (y * COLS + x) = 0%Z /\
  allocated st' /\
  density st' = density st /\ ux st' = ux st /\ uy st' = uy st.
Proof.
  intros Hal Hx Hy Hi. cbv zeta.
  destruct (allocated_index st x y i Hal Hx Hy Hi) as (I1 & I0 & _).
  assert (Hk : (0 <= (y * COLS + x) * Q + i < ROWS * COLS * Q)%Z)
    by (unfold ROWS, COLS, Q in *; lia).
  assert (Hrem : Z.rem ((y * COLS + x) * Q + i) Q = i).
  { rewrite Z.rem_mod_nonneg by (unfold ROWS, COLS, Q in *; lia).
    rewrite Z.add_comm, Z.mod_add by (unfold Q; lia).
    apply Z.mod_small. lia. }
  unfold initFluid. cbn [n0 n1 density ux uy barrier].
  rewrite !fill_weights_at by lia. rewrite Hrem.
  destruct Hal as (H0 & H1 & Hd & Hux & Huy & Hb).
  unfold allocated. cbn [n0 n1 density ux uy barrier].
  rewrite !fill_weights_length, length_replicate.
  split; [reflexivity|]. split; [reflexivity|].
  split; [apply u8_get_replicate|].
  split; [|split; [reflexivity|split; reflexivity]].
  repeat apply conj; assumption.
Qed.

(** X7 (witness): the arrays as they are allocated, all zero. *)
Lemma X7_initFluid_puts_fluid_at_rest_witness :
  let st := newTunnel in
  let x := 3%Z in let y := 2%Z in let i := 1%Z in
  allocated st /\
  (0 <= x < COLS)%Z /\ (0 <= y < ROWS)%Z /\ (0 <= i < Q)%Z /\
  let st' := initFluid st in
  let k := ((y * COLS + x) * Q + i)%Z in
  ta_get (n0 st') k = fround (w_at i) /\
  ta_get (n1 st') k = fround (w_at i) /\
  u8_get (barrier st') (y * COLS + x) = 0%Z /\
  allocated st' /\
  density st' = density st /\ ux st' = ux st /\ uy st' = uy st.
Proof.
  cbv zeta.
  split; [apply allocated_newTunnel|].
  split; [unfold COLS; lia|]. split; [unfold ROWS; lia|].
  split; [unfold Q; lia|].
  apply (X7_initFluid_puts_fluid_at_rest newTunnel 3 2 1).
  - apply allocated_newTunnel.
  - unfold COLS; lia.
  - unfold ROWS; lia.
  - unfold Q; lia.
Defined.

(** X8. Steps of the lattice engine never change the obstacle mask and
    keep the sizes of all arrays, whatever the wind speed and however many
    steps are taken. *)
Theorem X8_steps_keep_mask_and_sizes (windSpeed : number) (n : nat) (st : Tunnel) :
  allocated st ->
  allocated (Nat.iter n (simulate windSpeed) st) /\
  barrier (Nat.iter n (simulate windSpeed) st) = barrier st.
Proof. apply steps_allocated. Qed.

(** X8 (witness): four steps on the sample state with one solid cell. *)
Lemma X8_steps_keep_mask_and_sizes_witness :
  allocated Samples.seam /\
  allocated (Nat.iter 4 (simulate 45) Samples.seam) /\
  barrier (Nat.iter 4 (simulate 45) Samples.seam) = barrier Samples.seam.
Proof.
  split; [apply allocated_seam|].
  apply (X8_steps_keep_mask_and_sizes 45 4 Samples.seam). apply allocated_seam.
Defined.

(** X9. A solid cell is inert: after a step its nine populations are the
    lattice weights, and its stored density and velocity are what they
    were before the step (the collision loop skips the cell). *)
Theorem X9_solid_cells_are_inert (windSpeed : number) (st : Tunnel) (x y : Z) :
  allocated st ->
  (0 <= x < COLS)%Z -> (0 <= y < ROWS)%Z ->
  u8_get (barrier st) (y * COLS + x) <> 0%Z ->
  let st' := simulate windSpeed st in
  let idx := (y * COLS + x)%Z in
  (forall i, (0 <= i < Q)%Z -> ta_get (n0 st') (idx * Q + i) = fround (w_at i)) /\
  ta_get (density st') idx = ta_get (density st) idx /\
  ta_get (ux st') idx = ta_get (ux st) idx /\
  ta_get (uy st') idx = ta_get (uy st) idx.
Proof.
  intros Hal Hx Hy Hsolid. cbv zeta.
  assert (Hcell : collideCell (inflowSpeed windSpeed) st x y = st).
  { unfold collideCell. destruct (Z.eqb_spec (u8_get (barrier st) (y * COLS + x)) 0);
      [contradiction|reflexivity]. }
  split; [|split; [|split]].
  - intros i Hi. now apply simulate_solid.
  - rewrite simulate_density by assumption. now rewrite Hcell.
  - destruct (simulate_velocity windSpeed st x y Hx Hy) as [H _].
    rewrite H. now rewrite Hcell.
  - destruct (simulate_velocity windSpeed st x y Hx Hy) as [_ H].
    rewrite H. now rewrite Hcell.
Qed.

(** X9 (witness): the solid cell of the sample state. *)
Lemma X9_solid_cells_are_inert_witness :
  let st := Samples.seam in
  let x := 5%Z in let y := (ROWS - 1)%Z in
  allocated st /\
  (0 <= x < COLS)%Z /\ (0 <= y < ROWS)%Z /\
  (u8_get (barrier st) (y * COLS + x) =? 0)%Z = false /\
  let st' := simulate 45 st in
  let idx := (y * COLS + x)%Z in
  (forall i, (0 <= i < Q)%Z -> ta_get (n0 st') (idx * Q + i) = fround (w_at i)) /\
  ta_get (density st') idx = ta_get (density st) idx /\
  ta_get (ux st') idx = ta_get (ux st) idx /\
  ta_get (uy st') idx = ta_get (uy st) idx.
Proof.
  cbv zeta.
  split; [apply allocated_seam|].
  split; [unfold COLS; lia|]. split; [unfold ROWS; lia|].
  split; [vm_compute; reflexivity|].
  apply (X9_solid_cells_are_inert 45 Samples.seam 5 (ROWS - 1)).
  - apply allocated_seam.
  - unfold COLS; lia.
  - unfold ROWS; lia.
  - vm_compute. discriminate.
Defined.

(** X10. Streaming inside the grid: a fluid cell receives in direction [i]
    the post-collision population [i] of its upstream neighbour when that
    neighbour is fluid, and its own post-collision population of the
    opposite direction when the neighbour is solid (bounce-back), each
    rounded by the store into the [Float32Array]. *)
Theorem X10_streaming_inside_the_grid (windSpeed : number) (st : Tunnel)
    (x y i : Z) :
  allocated st ->
  (0 <= x < COLS)%Z -> (0 <= y < ROWS)%Z -> (0 <= i < Q)%Z ->
  u8_get (barrier st) (y * COLS + x) = 0%Z ->
  (0 <= x - ex_at i < COLS)%Z -> (0 <= y - ey_at i < ROWS)%Z ->
  let idx := (y * COLS + x)%Z in
  let srcIdx := ((y - ey_at i) * COLS + (x - ex_at i))%Z in
  let collided := n0 (collide (inflowSpeed windSpeed) st) in
  ta_get (n0 (simulate windSpeed st)) (idx * Q + i)
  = fround (if (u8_get (barrier st) srcIdx =? 0)%Z
            then ta_get collided (srcIdx * Q + i)
            else ta_get collided (idx * Q + opp_at i)).
Proof.
  intros Hal Hx Hy Hi Hfluid Hsx Hsy. cbv zeta.
  destruct (Z.eqb_spec (u8_get (barrier st)
                          ((y - ey_at i) * COLS + (x - ex_at i))) 0) as [Hsrc|Hsrc].
  - now apply stream_from_fluid.
  - now apply stream_from_solid.
Qed.

(** X10 (witness): the cell [(5, 1)] of the fluid at rest and direction 2,
    whose upstream neighbour is the cell [(5, 0)]. *)
Lemma X10_streaming_inside_the_grid_witness :
  let st := Samples.rest in
  let x := 5%Z in let y := 1%Z in let i := 2%Z in
  allocated st /\
  (0 <= x < COLS)%Z /\ (0 <= y < ROWS)%Z /\ (0 <= i < Q)%Z /\
  u8_get (barrier st) (y * COLS + x) = 0%Z /\
  (0 <= x - ex_at i < COLS)%Z /\ (0 <= y - ey_at i < ROWS)%Z /\
  let idx := (y * COLS + x)%Z in
  let srcIdx := ((y - ey_at i) * COLS + (x - ex_at i))%Z in
  let collided := n0 (collide (inflowSpeed 45) st) in
  ta_get (n0 (simulate 45 st)) (idx * Q + i)
  = fround (if (u8_get (barrier st) srcIdx =? 0)%Z
            then ta_get collided (srcIdx * Q + i)
            else ta_get collided (idx * Q + opp_at i)).
Proof.
  cbv zeta.
  split; [apply allocated_rest|].
  split; [unfold COLS; lia|]. split; [unfold ROWS; lia|].
  split; [unfold Q; lia|].
  split; [vm_compute; reflexivity|].
  split; [vm_compute; split; [discriminate|reflexivity]|].
  split; [vm_compute; split; [discriminate|reflexivity]|].
  apply (X10_streaming_inside_the_grid 45 Samples.rest 5 1 2).
  - apply allocated_rest.
  - unfold COLS; lia.
  - unfold ROWS; lia.
  - unfold Q; lia.
  - vm_compute; reflexivity.
  - vm_compute; split; [discriminate|reflexivity].
  - vm_compute; split; [discriminate|reflexivity].
Defined.

(** X11. The outflow edge is never written: for a fluid cell of the last
    column and a direction that comes from beyond the right edge (3, 6 or
    7), streaming leaves the population of the next buffer as it was; so
    after two steps the cell holds its own post-collision population of
    the first step. *)
Theorem X11_outflow_edge_is_never_written (windSpeed windSpeed' : number)
    (st : Tunnel) (y i : Z) :
  (0 <= y < ROWS)%Z -> (0 <= i < Q)%Z -> ex_at i = (-1)%Z ->
  u8_get (barrier st) (y * COLS + (COLS - 1)) = 0%Z ->
  let k := ((y * COLS + (COLS - 1)) * Q + i)%Z in
  ta_get (n0 (simulate windSpeed st)) k = ta_get (n1 st) k /\
  ta_get (n0 (simulate windSpeed' (simulate windSpeed st))) k
  = ta_get (n0 (collide (inflowSpeed windSpeed) st)) k.
Proof.
  intros Hy Hi Hex Hfluid. cbv zeta.
  assert (Hx : (0 <= COLS - 1 < COLS)%Z) by (unfold COLS; lia).
  split.
  - apply stream_from_right; try assumption. rewrite Hex. lia.
  - rewrite stream_from_right; try assumption.
    + now rewrite simulate_next.
    + now rewrite simulate_barrier.
    + rewrite Hex. lia.
Qed.

(** X11 (witness): the last cell of row 7 of the fluid at rest, direction
    3. *)
Lemma X11_outflow_edge_is_never_written_witness :
  let st := Samples.rest in
  let y := 7%Z in let i := 3%Z in
  (0 <= y < ROWS)%Z /\ (0 <= i < Q)%Z /\ ex_at i = (-1)%Z /\
  u8_get (barrier st) (y * COLS + (COLS - 1)) = 0%Z /\
  let k := ((y * COLS + (COLS - 1)) * Q + i)%Z in
  ta_get (n0 (simulate 45 st)) k = ta_get (n1 st) k /\
  ta_get (n0 (simulate 20 (simulate 45 st))) k
  = ta_get (n0 (collide (inflowSpeed 45) st)) k.
Proof.
  cbv zeta.
  split; [unfold ROWS; lia|]. split; [unfold Q; lia|].
  split; [reflexivity|]. split; [vm_compute; reflexivity|].
  apply (X11_outflow_edge_is_never_written 45 20 Samples.rest 7 3).
  - unfold ROWS; lia.
  - unfold Q; lia.
  - reflexivity.
  - vm_compute; reflexivity.
Defined.

(** X12. The inflow column: after a step a fluid cell of column 0 stores
    density 1, the inflow speed [Math.min(0.12, windSpeed * 0.002)] as its
    x-velocity (rounded by the store) and 0 as its y-velocity; the inflow
    speed is never above 0.12. *)
Theorem X12_inflow_column_is_imposed (windSpeed : number) (st : Tunnel) (y : Z) :
  allocated st -> (0 <= y < ROWS)%Z ->
  u8_get (barrier st) (y * COLS + 0) = 0%Z ->
  let st' := simulate windSpeed st in
  let idx := (y * COLS + 0)%Z in
  ta_get (density st') idx = 1 /\
  ta_get (ux st') idx = fround (inflowSpeed windSpeed) /\
  ta_get (uy st') idx = 0 /\
  (0.12 <? inflowSpeed windSpeed) = false.
Proof.
  intros Hal Hy Hfluid. cbv zeta.
  destruct (inflow_cell_stored windSpeed st y Hal Hy Hfluid) as (Hd & Hux & Huy).
  split; [exact Hd|]. split; [exact Hux|]. split; [exact Huy|].
  apply Math_min_not_above.
Qed.

(** X12 (witness): row 50 of the fluid at rest. *)
Lemma X12_inflow_column_is_imposed_witness :
  let st := Samples.rest in
  let y := 50%Z in
  allocated st /\ (0 <= y < ROWS)%Z /\
  u8_get (barrier st) (y * COLS + 0) = 0%Z /\
  let st' := simulate 45 st in
  let idx := (y * COLS + 0)%Z in
  ta_get (density st') idx = 1 /\
  ta_get (ux st') idx = fround (inflowSpeed 45) /\
  ta_get (uy st') idx = 0 /\
  (0.12 <? inflowSpeed 45) = false.
Proof.
  cbv zeta.
  split; [apply allocated_rest|]. split; [unfold ROWS; lia|].
  split; [vm_compute; reflexivity|].
  apply (X12_inflow_column_is_imposed 45 Samples.rest 50).
  - apply allocated_rest.
  - unfold ROWS; lia.
  - vm_compute; reflexivity.
Defined.

(** X13. The stability check of a frame: when the simulation runs and the
    probed cell (column 20 of row 50) is fluid, the frame takes four steps
    and flags the simulation unstable exactly when the probed x-velocity is
    NaN (a stored velocity is never infinite); flagging stops the
    simulation, and an unflagged frame leaves a probed velocity of
    magnitude at most 0.35. *)
Theorem X13_frame_flags_exactly_nan (windSpeed : number) (c : Controls)
    (st : Tunnel) :
  allocated st ->
  u8_get (barrier st) testIdx = 0%Z ->
  isPlaying c = true -> isDrawing c = false -> isUnstable c = false ->
  let c' := fst (stepFrame windSpeed c st) in
  let st' := snd (stepFrame windSpeed c st) in
  let v := ta_get (ux st') testIdx in
  st' = Nat.iter 4 (simulate windSpeed) st /\
  isUnstable c' = is_nan v /\
  isPlaying c' = negb (is_nan v) /\
  (is_nan v = false -> (Math_abs v <=? 0.35) = true).
Proof.
  intros Hal Hfluid Hp Hd Hu. cbv zeta.
  unfold stepFrame. rewrite Hp, Hd, Hu. cbn [andb negb].
  set (st4 := Nat.iter 4 (simulate windSpeed) st).
  assert (Hv : is_nan (ta_get (ux st4) testIdx) = true \/
               (Math_abs (ta_get (ux st4) testIdx) <=? 0.35) = true).
  { subst st4. rewrite Nat.iter_succ.
    destruct (steps_allocated windSpeed 3 st Hal) as [Hal3 Hb3].
    change testIdx with (50 * COLS + 20)%Z.
    apply step_velocity_bounded; try assumption.
    - unfold COLS; lia.
    - unfold ROWS; lia.
    - rewrite Hb3. exact Hfluid. }
  destruct Hv as [Hnan|Hsmall].
  - rewrite Hnan. cbn [orb fst snd isUnstable isPlaying negb].
    rewrite ?Hnan. cbn [negb].
    split; [reflexivity|]. split; [reflexivity|]. split; [reflexivity|].
    intros H. discriminate H.
  - destruct (small_is_finite _ Hsmall) as [Hn Hf].
    rewrite Hn, Hf. cbn [orb negb fst snd].
    rewrite ?Hn, Hp, Hu. cbn [negb].
    split; [reflexivity|]. split; [reflexivity|]. split; [reflexivity|].
    intros _. exact Hsmall.
Qed.

(** X13 (witness): a running frame on the fluid at rest. *)
Lemma X13_frame_flags_exactly_nan_witness :
  let c := {| isPlaying := true; isDrawing := false; isUnstable := false |} in
  let st := Samples.rest in
  allocated st /\
  u8_get (barrier st) testIdx = 0%Z /\
  isPlaying c = true /\ isDrawing c = false /\ isUnstable c = false /\
  let c' := fst (stepFrame 45 c st) in
  let st' := snd (stepFrame 45 c st) in
  let v := ta_get (ux st') testIdx in
  st' = Nat.iter 4 (simulate 45) st /\
  isUnstable c' = is_nan v /\
  isPlaying c' = negb (is_nan v) /\
  (is_nan v = false -> (Math_abs v <=? 0.35) = true).
Proof.
  cbv zeta.
  split; [apply allocated_rest|]. split; [vm_compute; reflexivity|].
  split; [reflexivity|]. split; [reflexivity|]. split; [reflexivity|].
  apply (X13_frame_flags_exactly_nan 45
           {| isPlaying := true; isDrawing := false; isUnstable := false |}
           Samples.rest).
  - apply allocated_rest.
  - vm_compute; reflexivity.
  - reflexivity.
  - reflexivity.
  - reflexivity.
Defined.

(** X14. The mask depends on the last polygon only: on the grid of the
    wind tunnel, rasterizing a polygon after another one gives the state
    that rasterizing it alone gives. *)
Theorem X14_mask_of_last_polygon (fuel : nat) (first last : list Point)
    (st : Tunnel) :
  (302 <= fuel)%nat ->
  exists st1,
    rasterizePolygon fuel first (of_int COLS) (of_int ROWS) st = Some st1 /\
    rasterizePolygon fuel last (of_int COLS) (of_int ROWS) st1
    = rasterizePolygon fuel last (of_int COLS) (of_int ROWS) st.
Proof.
  intros Hfuel.
  destruct (rasterizePolygon_returns fuel first st Hfuel) as [st1 H1].
  exists st1. split; [assumption|].
  rewrite (rasterize_cleared fuel last _ _ st1).
  rewrite (rasterize_cleared fuel last _ _ st).
  now rewrite (rasterize_frame _ _ _ _ _ _ H1).
Qed.

(** X14 (witness): a triangle after the flat plate. *)
Lemma X14_mask_of_last_polygon_witness :
  let triangle :=
    [ {| x := 40; y := 40 |}; {| x := 80; y := 40 |}; {| x := 40; y := 80 |} ] in
  (302 <= 302)%nat /\
  exists st1,
    rasterizePolygon 302 Samples.plate (of_int COLS) (of_int ROWS) Samples.seam
    = Some st1 /\
    rasterizePolygon 302 triangle (of_int COLS) (of_int ROWS) st1
    = rasterizePolygon 302 triangle (of_int COLS) (of_int ROWS) Samples.seam.
Proof.
  cbv zeta. split; [lia|].
  apply (X14_mask_of_last_polygon 302 Samples.plate _ Samples.seam). lia.
Defined.

End TunnelExtras.

(* ===================================================================== *)
(** * The colour map                                                      *)
(* ===================================================================== *)

Section PaintFacts.
Import JS Types WindTunnel Paint.
Local Open Scope Z_scope.

Lemma wrap32_range (z : Z) : - 2 ^ 31 <= wrap32 z < 2 ^ 31.
Proof.
  unfold wrap32. pose proof (Z.mod_pos_bound (z + 2 ^ 31) (2 ^ 32)). lia.
Qed.

Lemma ToInt32_range (v : number) : - 2 ^ 31 <= ToInt32 v < 2 ^ 31.
Proof.
  unfold ToInt32. destruct (Prim2SF v); try lia. cbv zeta. apply wrap32_range.
Qed.

(** An integer whose bits from 24 on are all set lies between [-2^24] and
    [-1]. *)
Lemma high_bits_set (z : Z) :
  (forall n, 24 <= n -> Z.testbit z n = true) -> - 2 ^ 24 <= z < 0.
Proof.
  intros Hbits.
  assert (Hq : Z.shiftr z 24 = -1).
  { apply Z.bits_inj'. intros n Hn.
    rewrite Z.shiftr_spec by lia. rewrite Z.bits_m1 by lia.
    apply Hbits. lia. }
  rewrite Z.shiftr_div_pow2 in Hq by lia.
  pose proof (Z.div_mod z (2 ^ 24)) as Hdm.
  pose proof (Z.mod_pos_bound z (2 ^ 24)) as Hm.
  lia.
Qed.

Lemma or32_high_l (a b : Z) :
  (forall n, 24 <= n -> Z.testbit a n = true) ->
  forall n, 24 <= n -> Z.testbit (or32 a b) n = true.
Proof.
  intros Ha n Hn. unfold or32. rewrite Z.lor_spec, Ha by lia. reflexivity.
Qed.

Lemma shl32_alpha : forall n, 24 <= n -> Z.testbit (shl32 255 24) n = true.
Proof.
  intros n Hn. change (shl32 255 24) with (- 2 ^ 24).
  replace (- 2 ^ 24) with (Z.shiftl (-1) 24) by reflexivity.
  rewrite Z.shiftl_spec by lia. apply Z.bits_m1. lia.
Qed.

(** A packed colour always has the alpha byte 255. *)
Lemma packed_alpha (r g b : Z) :
  let p := ToUint32 (or32 (or32 (or32 (shl32 255 24) (shl32 b 16)) (shl32 g 8)) r) in
  2 ^ 32 - 2 ^ 24 <= p < 2 ^ 32.
Proof.
  cbv zeta.
  pose proof (high_bits_set _
    (or32_high_l _ r (or32_high_l _ (shl32 g 8)
       (or32_high_l _ (shl32 b 16) shl32_alpha)))) as Hz.
  unfold ToUint32.
  set (z := or32 _ r) in *.
  replace (z mod 2 ^ 32) with (z + 2 ^ 32).
  - lia.
  - apply Z.mod_unique with (q := -1); lia.
Qed.

Lemma pixelColour_range (solid : bool) (vx vy : number) :
  2 ^ 32 - 2 ^ 24 <= pixelColour solid vx vy < 2 ^ 32.
Proof.
  unfold pixelColour. destruct solid; [lia|]. cbv zeta.
  repeat match goal with
         | |- context [if ?c then _ else _] => destruct c
         end; apply packed_alpha.
Qed.

Lemma sqrt_nan : Math_sqrt nan = nan.
Proof. reflexivity. Qed.

Lemma ltb_nan_l (v : float) : (nan <? v)%float = false.
Proof.
  rewrite ltb_spec. change (Prim2SF nan) with S754_nan. reflexivity.
Qed.

Lemma ltb_nan_r (v : float) : (v <? nan)%float = false.
Proof.
  rewrite ltb_spec. change (Prim2SF nan) with S754_nan.
  unfold SFltb, SFcompare. now destruct (Prim2SF v) as [[]|[]| |[]].
Qed.

Lemma sub_nan_l (v : float) : (nan - v)%float = nan.
Proof. apply Prim2SF_inj. rewrite sub_spec. reflexivity. Qed.

Lemma is_nan_eq (v : float) : is_nan v = true -> v = nan.
Proof.
  intros H. apply Prim2SF_inj. rewrite (is_nan_Prim2SF _ H). reflexivity.
Qed.

Lemma square_sum_nan (vx vy : float) :
  is_nan vx || is_nan vy = true -> (vx * vx + vy * vy)%float = nan.
Proof.
  intros H. apply orb_true_iff in H. destruct H as [H|H];
    rewrite (is_nan_eq _ H).
  - rewrite mul_nan_l. apply Prim2SF_inj. rewrite add_spec. reflexivity.
  - rewrite mul_nan_l. apply add_nan_r.
Qed.

(** Above the limit of the colour map the colour is one constant. *)
Lemma saturated_pixel (vx vy : number) :
  (1.2 <? Math_sqrt (vx * vx + vy * vy) * 15)%float = true ->
  pixelColour false vx vy = 0xFFFF35FF.
Proof.
  intros Hfast. unfold pixelColour. cbv zeta. rewrite Hfast.
  vm_compute. reflexivity.
Qed.

Lemma inflow_colours_tested :
  forallb inflowColourTest (map (fun n : nat => Z.of_nat n + 17) (seq 0 104))
  = true.
Proof. vm_compute. reflexivity. Qed.

Lemma inflow_colour (k : Z) :
  17 <= k <= 120 ->
  let p := rgba (pixelColour false (fround (inflowSpeed (of_int k))) 0) in
  snd (fst p) = (if 34 <=? k then 255 else 0) /\
  (40 <= k -> p = (255, 53, 255, 255)).
Proof.
  intros Hk. cbv zeta.
  pose proof inflow_colours_tested as Hall.
  rewrite forallb_forall in Hall.
  specialize (Hall k).
  assert (Hin : In k (map (fun n : nat => Z.of_nat n + 17) (seq 0 104))).
  { apply in_map_iff. exists (Z.to_nat (k - 17)). split; [lia|].
    apply in_seq. lia. }
  specialize (Hall Hin). unfold inflowColourTest in Hall.
  destruct (rgba _) as [[[r g] b] a]. cbn [fst snd].
  apply andb_true_iff in Hall. destruct Hall as [Hb Hrest].
  apply Z.eqb_eq in Hb. split; [exact Hb|].
  intros H40. destruct (Z.leb_spec 40 k) as [_|]; [|lia].
  apply andb_true_iff in Hrest. destruct Hrest as [Hrg Ha].
  apply andb_true_iff in Hrg. destruct Hrg as [Hr Hg].
  apply Z.eqb_eq in Hr, Hg, Ha. destruct (Z.leb_spec 34 k); [|lia].
  congruence.
Qed.

End PaintFacts.

Section PaintExtras.
Import JS Types WindTunnel Paint.
Local Open Scope Z_scope.

(** X18. Every pixel that the render loop writes is opaque: whatever the
    state of the tunnel and the cell (solid or fluid, with any velocity, a
    [NaN] or an infinity included), the pixel is a 32-bit value whose alpha
    byte is 255. *)
Theorem X18_pixels_are_opaque (st : Tunnel) (i : Z) :
  0 <= pixelAt st i < 2 ^ 32 /\
  snd (rgba (pixelAt st i)) = 255.
Proof.
  pose proof (pixelColour_range (negb (u8_get (barrier st) i =? 0))
                (ta_get (ux st) i) (ta_get (uy st) i)) as H.
  fold (pixelAt st i) in H.
  split; [lia|]. unfold rgba. cbn [snd].
  replace (pixelAt st i / 2 ^ 24) with 255; [reflexivity|].
  apply Z.div_unique with (r := pixelAt st i - 255 * 2 ^ 24); lia.
Qed.

(** X19. A fluid cell whose stored velocity has a [NaN] component is
    painted pure red, the colour of the fastest flow: every comparison of
    the colour map fails on [NaN] and [NaN | 0] is 0. *)
Theorem X19_nan_velocity_is_painted_red (st : Tunnel) (i : Z) :
  u8_get (barrier st) i = 0 ->
  is_nan (ta_get (ux st) i) || is_nan (ta_get (uy st) i) = true ->
  pixelAt st i = 0xFF0000FF /\
  rgba (pixelAt st i) = (255, 0, 0, 255).
Proof.
  intros Hfluid Hnan.
  assert (Hp : pixelAt st i = 0xFF0000FF).
  { unfold pixelAt, pixelColour. rewrite Hfluid. cbn [Z.eqb negb]. cbv zeta.
    rewrite (square_sum_nan _ _ Hnan), sqrt_nan, mul_nan_l.
    rewrite !ltb_nan_r, !ltb_nan_l.
    rewrite sub_nan_l, mul_nan_l, sub_nan_r, mul_nan_r. reflexivity. }
  rewrite Hp. split; reflexivity.
Qed.

(** X19 (witness): the fluid at rest with a [NaN] stored as the x-velocity
    of the first cell. *)
Lemma X19_nan_velocity_is_painted_red_witness :
  let st := {| n0 := n0 Samples.rest; n1 := n1 Samples.rest;
               density := density Samples.rest;
               ux := <[0%nat := nan]> (ux Samples.rest);
               uy := uy Samples.rest; barrier := barrier Samples.rest |} in
  u8_get (barrier st) 0 = 0 /\
  (is_nan (ta_get (ux st) 0) || is_nan (ta_get (uy st) 0)) = true /\
  pixelAt st 0 = 0xFF0000FF /\
  rgba (pixelAt st 0) = (255, 0, 0, 255).
Proof.
  cbv zeta. split; [vm_compute; reflexivity|].
  split; [vm_compute; reflexivity|].
  apply X19_nan_velocity_is_painted_red; vm_compute; reflexivity.
Defined.

(** X20. The colour map wraps at its upper limit: for a fluid cell whose
    speed exceeds the limit ([Math.sqrt(v2) * 15 > 1.2], that is a velocity
    above 0.08) the green channel is [255 * (1 - (1.2 - 0.75) * 4) | 0],
    which is -203; its sign bits fill the blue byte, and the pixel is the
    magenta (255, 53, 255), not a red. *)
Theorem X20_fast_flow_is_painted_magenta (st : Tunnel) (i : Z) :
  u8_get (barrier st) i = 0 ->
  (1.2 <? Math_sqrt (ta_get (ux st) i * ta_get (ux st) i
                     + ta_get (uy st) i * ta_get (uy st) i) * 15)%float = true ->
  pixelAt st i = 0xFFFF35FF /\
  rgba (pixelAt st i) = (255, 53, 255, 255).
Proof.
  intros Hfluid Hfast.
  assert (Hp : pixelAt st i = 0xFFFF35FF).
  { unfold pixelAt. rewrite Hfluid. cbn [Z.eqb negb].
    apply saturated_pixel, Hfast. }
  rewrite Hp. split; reflexivity.
Qed.

(** X20 (witness): the fluid at rest with the inflow speed of the default
    wind (0.09, as the array holds it) stored as the x-velocity of the
    first cell. *)
Lemma X20_fast_flow_is_painted_magenta_witness :
  let st := {| n0 := n0 Samples.rest; n1 := n1 Samples.rest;
               density := density Samples.rest;
               ux := <[0%nat := fround 0.09]> (ux Samples.rest);
               uy := uy Samples.rest; barrier := barrier Samples.rest |} in
  u8_get (barrier st) 0 = 0 /\
  (1.2 <? Math_sqrt (ta_get (ux st) 0 * ta_get (ux st) 0
                     + ta_get (uy st) 0 * ta_get (uy st) 0) * 15)%float = true /\
  pixelAt st 0 = 0xFFFF35FF /\
  rgba (pixelAt st 0) = (255, 53, 255, 255).
Proof.
  cbv zeta. split; [vm_compute; reflexivity|].
  split; [vm_compute; reflexivity|].
  apply X20_fast_flow_is_painted_magenta; vm_compute; reflexivity.
Defined.

(** X21. What the user sees of the inflow: at a whole-number wind speed
    [k] from 17 to 120 (the sliders give whole numbers), after a step the
    pixel of every fluid cell of the inflow column has the blue byte 255
    when [k] is 34 or more, and 0 below; from 40 on (the default 45
    included) the pixel is the magenta (255, 53, 255). *)
Theorem X21_inflow_column_colour (k : Z) (st : Tunnel) (y : Z) :
  allocated st -> 0 <= y < ROWS ->
  u8_get (barrier st) (y * COLS + 0) = 0 ->
  17 <= k <= 120 ->
  let p := rgba (pixelAt (simulate (of_int k) st) (y * COLS + 0)) in
  snd (fst p) = (if 34 <=? k then 255 else 0) /\
  (40 <= k -> p = (255, 53, 255, 255)).
Proof.
  intros Hal Hy Hfluid Hk.
  destruct (inflow_cell_stored (of_int k) st y Hal Hy Hfluid) as (_ & Hux & Huy).
  unfold pixelAt. rewrite simulate_barrier, Hfluid, Hux, Huy.
  cbn [Z.eqb negb]. apply inflow_colour, Hk.
Qed.

(** X21 (witness): row 50 of the fluid at rest at the wind speed 45. *)
Lemma X21_inflow_column_colour_witness :
  let st := Samples.rest in
  let y := 50 in
  let k := 45 in
  allocated st /\ 0 <= y < ROWS /\
  u8_get (barrier st) (y * COLS + 0) = 0 /\
  17 <= k <= 120 /\
  let p := rgba (pixelAt (simulate (of_int k) st) (y * COLS + 0)) in
  snd (fst p) = (if 34 <=? k then 255 else 0) /\
  (40 <= k -> p = (255, 53, 255, 255)).
Proof.
  cbv zeta.
  split; [apply allocated_rest|]. split; [unfold ROWS; lia|].
  split; [vm_compute; reflexivity|]. split; [lia|].
  apply (X21_inflow_column_colour 45 Samples.rest 50).
  - apply allocated_rest.
  - unfold ROWS; lia.
  - vm_compute; reflexivity.
  - lia.
Defined.

End PaintExtras.

(* ===================================================================== *)
(** * What the rasterizer computes *)
(* ===================================================================== *)

Section ScanOrder.
Import JS Views.
Local Open Scope float_scope.

Lemma ltb_trans (a b c : float) :
  (a <? b) = true -> (b <? c) = true -> (a <? c) = true.
Proof.
  intros H1 H2. apply ltb_key in H1, H2. apply ltb_key.
  destruct H1 as (Na & _ & H1), H2 as (_ & Nc & H2).
  split; [assumption|]. split; [assumption|].
  revert H1 H2. key_arith.
Qed.

Lemma ltb_not_leb (a b : float) : (a <? b) = true -> (b <=? a) = false.
Proof.
  intros H. destruct (b <=? a) eqn:H'; [|reflexivity].
  apply ltb_key in H. apply leb_key in H'.
  destruct H as (_ & _ & H), H' as (_ & _ & H'). contradiction.
Qed.

Lemma ltb_leb (a b : float) : (a <? b) = true -> (a <=? b) = true.
Proof.
  intros H. apply ltb_key in H. apply leb_key.
  destruct H as (Na & Nb & H). split; [assumption|]. split; [assumption|].
  revert H. key_arith.
Qed.

Lemma of_int_number (k : Z) :
  (0 <= k < 2 ^ 53)%Z -> is_number (Prim2SF (of_int k)).
Proof.
  intros Hk. destruct k as [|p|p]; try lia.
  - exact I.
  - rewrite Prim2SF_of_int by lia. exact I.
Qed.

(** On integers below 2^53 the comparison of numbers is the comparison of
    integers. *)
Lemma of_int_leb (a b : Z) :
  (0 <= a < 2 ^ 53)%Z -> (0 <= b < 2 ^ 53)%Z ->
  (of_int a <=? of_int b) = (a <=? b)%Z.
Proof.
  intros Ha Hb. destruct (Z.leb_spec a b) as [Hle|Hgt].
  - destruct (Z.eq_dec a b) as [->|Hne].
    + apply leb_key. split; [now apply of_int_number|].
      split; [now apply of_int_number|]. key_arith.
    + apply ltb_leb, of_int_lt; lia.
  - apply ltb_not_leb, of_int_lt; lia.
Qed.

(** A counter that has passed the bound stays beyond it. *)
Lemma leb_false_mono (a b : Z) (M : float) :
  (0 <= a <= b)%Z -> (b < 2 ^ 53)%Z ->
  (of_int a <=? M) = false -> (of_int b <=? M) = false.
Proof.
  intros Hab Hb HM. destruct (Z.eq_dec a b) as [->|Hne]; [assumption|].
  apply (leb_false_above (of_int a)); [|assumption].
  apply of_int_lt; lia.
Qed.

End ScanOrder.

Section ScanFacts.
Import JS Types WindTunnel Views Scan.
Local Open Scope float_scope.

(** The key under which the loop writes the cell [(cx, cy)] is the index
    of the cell. *)
Lemma cell_key (cx cy : Z) :
  (0 <= cx < COLS)%Z -> (0 <= cy < ROWS)%Z ->
  to_int (of_int cy * of_int COLS + of_int cx) = Some (cy * COLS + cx)%Z.
Proof.
  intros Hx Hy.
  assert (H : forallb (fun cy =>
                forallb (fun cx =>
                  match to_int (of_int cy * of_int COLS + of_int cx) with
                  | Some k => (k =? cy * COLS + cx)%Z
                  | None => false
                  end) (range COLS)) (range ROWS) = true)
    by (vm_compute; reflexivity).
  rewrite forallb_forall in H.
  assert (Hin : forall n k, (0 <= k < n)%Z -> In k (range n)).
  { intros n k Hk. unfold range. apply in_map_iff. exists (Z.to_nat k).
    split; [lia|]. apply in_seq. lia. }
  specialize (H cy (Hin _ _ Hy)). rewrite forallb_forall in H.
  specialize (H cx (Hin _ _ Hx)).
  destruct (to_int _) as [k|]; [|discriminate].
  apply Z.eqb_eq in H. now subst k.
Qed.

Lemma cell_index_inj (cx cy cx' cy' : Z) :
  (0 <= cx < COLS)%Z -> (0 <= cx' < COLS)%Z ->
  (cy * COLS + cx = cy' * COLS + cx')%Z -> cx = cx' /\ cy = cy'.
Proof. unfold COLS. lia. Qed.

(** One row of the scan, from column [k] on. *)
Lemma rasterRow_steps_mask (gridPoly : list Point) (cy : Z) (M : float) :
  (0 <= cy < ROWS)%Z -> (of_int COLS <=? M) = false ->
  forall (n : nat) (k : Z) (fuel : nat) (b : list Z),
    (0 <= k)%Z -> Z.of_nat n = (COLS - k)%Z -> (n + 1 <= fuel)%nat ->
    Z.of_nat (length b) = (ROWS * COLS)%Z ->
    exists b',
      rasterRow fuel gridPoly (of_int cy) (of_int k) M b = Some b' /\
      length b' = length b /\
      forall cx' cy', (0 <= cx' < COLS)%Z -> (0 <= cy' < ROWS)%Z ->
        u8_get b' (cy' * COLS + cx')
        = if (cy' =? cy)%Z && (k <=? cx')%Z && (of_int cx' <=? M) &&
             inside gridPoly (of_int cx') (of_int cy)
          then 1%Z else u8_get b (cy' * COLS + cx').
Proof.
  intros Hcy HM.
  assert (Hstop : forall k b, (0 <= k <= COLS)%Z -> (of_int k <=? M) = false ->
            forall cx' cy', (0 <= cx' < COLS)%Z -> (0 <= cy' < ROWS)%Z ->
              u8_get b (cy' * COLS + cx')
              = if (cy' =? cy)%Z && (k <=? cx')%Z && (of_int cx' <=? M) &&
                   inside gridPoly (of_int cx') (of_int cy)
                then 1%Z else u8_get b (cy' * COLS + cx')).
  { intros k b Hk Hfalse cx' cy' Hx' Hy'.
    destruct (Z.leb_spec k cx') as [Hle|Hgt];
      [|now rewrite andb_false_r].
    rewrite (leb_false_mono k cx' M) by (unfold COLS in *; lia || assumption).
    now rewrite andb_false_r. }
  induction n as [|n IH]; intros k fuel b Hk Hn Hfuel Hlen;
    (destruct fuel as [|fuel]; [lia|]); cbn [rasterRow].
  - replace k with COLS by lia. rewrite HM. exists b.
    split; [reflexivity|]. split; [reflexivity|].
    apply Hstop; [unfold COLS; lia|assumption].
  - destruct (of_int k <=? M) eqn:Htest.
    2:{ exists b. split; [reflexivity|]. split; [reflexivity|].
        apply Hstop; [lia|assumption]. }
    rewrite of_int_succ by lia.
    set (b1 := if inside gridPoly (of_int k) (of_int cy)
               then barrier_set b (of_int cy * of_int COLS + of_int k) 1%Z
               else b).
    assert (Hb1 : b1 = if inside gridPoly (of_int k) (of_int cy)
                       then u8_set b (cy * COLS + k) 1%Z else b).
    { subst b1. destruct (inside _ _ _); [|reflexivity].
      unfold barrier_set. now rewrite cell_key by (lia || assumption). }
    assert (Hl1 : length b1 = length b).
    { rewrite Hb1. destruct (inside _ _ _); [apply u8_set_length|reflexivity]. }
    destruct (IH (k + 1)%Z fuel b1) as (b' & Hrun & Hl' & Hmask);
      [lia|lia|lia|now rewrite Hl1|].
    fold b1. exists b'. split; [exact Hrun|]. split; [congruence|].
    intros cx' cy' Hx' Hy'. rewrite (Hmask cx' cy' Hx' Hy').
    destruct (Z.eqb_spec cy' cy) as [->|Hny]; cbn [andb].
    + destruct (Z.eq_dec cx' k) as [->|Hnx].
      * rewrite Htest.
        rewrite (proj2 (Z.leb_gt (k + 1) k)) by lia.
        rewrite (proj2 (Z.leb_le k k)) by lia. cbn [andb].
        rewrite Hb1. destruct (inside gridPoly (of_int k) (of_int cy));
          [|reflexivity].
        rewrite u8_get_u8_set, Z.eqb_refl. cbn [andb].
        rewrite (proj2 (Z.leb_le 0 (cy * COLS + k))) by (unfold COLS in *; lia).
        rewrite (proj2 (Z.ltb_lt (cy * COLS + k) (Z.of_nat (length b))))
          by (rewrite Hlen; unfold ROWS, COLS in *; lia).
        reflexivity.
      * assert (Hsame : u8_get b1 (cy * COLS + cx') = u8_get b (cy * COLS + cx')).
        { rewrite Hb1. destruct (inside gridPoly (of_int k) (of_int cy));
            [|reflexivity].
          rewrite u8_get_u8_set.
          destruct (Z.eqb_spec (cy * COLS + k) (cy * COLS + cx')) as [E|_];
            [lia|reflexivity]. }
        rewrite Hsame.
        destruct (Z.leb_spec (k + 1) cx'), (Z.leb_spec k cx');
          try lia; reflexivity.
    + rewrite Hb1. destruct (inside gridPoly (of_int k) (of_int cy));
        [|reflexivity].
      rewrite u8_get_u8_set.
      destruct (Z.eqb_spec (cy * COLS + k) (cy' * COLS + cx')) as [E|_];
        [|reflexivity].
      apply cell_index_inj in E; [|lia|lia]. destruct E as [_ E]. congruence.
Qed.

Lemma counts_grid (L : Z) (s : float) (cx : Z) :
  (0 <= L)%Z -> (L < 2 ^ 52)%Z -> (0 <= cx < L)%Z ->
  (of_int L <? s) = true -> (s <=? of_int cx) = false.
Proof.
  intros HL HL' Hcx Habove.
  apply ltb_not_leb. apply (ltb_trans _ (of_int L)); [|assumption].
  apply of_int_lt; lia.
Qed.

(** One row of the scan, from its first column. *)
Lemma rasterRow_mask (gridPoly : list Point) (cy : Z) (s M : float)
    (fuel : nat) (b : list Z) :
  (0 <= cy < ROWS)%Z -> counts_to COLS s -> (of_int COLS <=? M) = false ->
  (Z.to_nat COLS + 1 <= fuel)%nat ->
  Z.of_nat (length b) = (ROWS * COLS)%Z ->
  exists b',
    rasterRow fuel gridPoly (of_int cy) s M b = Some b' /\
    length b' = length b /\
    forall cx' cy', (0 <= cx' < COLS)%Z -> (0 <= cy' < ROWS)%Z ->
      u8_get b' (cy' * COLS + cx')
      = if (cy' =? cy)%Z && ((s <=? of_int cx') && (of_int cx' <=? M)) &&
           inside gridPoly (of_int cx') (of_int cy)
        then 1%Z else u8_get b (cy' * COLS + cx').
Proof.
  intros Hcy [(k & Hk & ->)|[Hnan|Habove]] HM Hfuel Hlen.
  - destruct (rasterRow_steps_mask gridPoly cy M Hcy HM
                (Z.to_nat (COLS - k)) k fuel b) as (b' & Hrun & Hl & Hmask);
      [lia|lia|lia|assumption|].
    exists b'. split; [assumption|]. split; [assumption|].
    intros cx' cy' Hx' Hy'. rewrite (Hmask cx' cy' Hx' Hy').
    rewrite of_int_leb by (unfold COLS in *; lia).
    now rewrite !andb_assoc.
  - destruct fuel as [|fuel]; [lia|]. cbn [rasterRow].
    rewrite (leb_nan_l s M Hnan). exists b.
    split; [reflexivity|]. split; [reflexivity|].
    intros cx' cy' _ _. rewrite (leb_nan_l s _ Hnan).
    now rewrite andb_false_r.
  - destruct fuel as [|fuel]; [lia|]. cbn [rasterRow].
    rewrite (leb_false_above (of_int COLS) s M Habove HM). exists b.
    split; [reflexivity|]. split; [reflexivity|].
    intros cx' cy' Hx' _.
    rewrite (counts_grid COLS s cx') by (unfold COLS in *; lia || assumption).
    now rewrite andb_false_r.
Qed.

(** The rows of the scan, from row [k] on. *)
Lemma rasterRows_steps_mask (gridPoly : list Point) (M minX maxX : float) :
  (of_int ROWS <=? M) = false ->
  counts_to COLS minX -> (of_int COLS <=? maxX) = false ->
  forall (n : nat) (k : Z) (fuel : nat) (b : list Z),
    (0 <= k)%Z -> Z.of_nat n = (ROWS - k)%Z ->
    (n + 1 + Z.to_nat COLS <= fuel)%nat ->
    Z.of_nat (length b) = (ROWS * COLS)%Z ->
    exists b',
      rasterRows fuel gridPoly (of_int k) M minX maxX b = Some b' /\
      length b' = length b /\
      forall cx' cy', (0 <= cx' < COLS)%Z -> (0 <= cy' < ROWS)%Z ->
        u8_get b' (cy' * COLS + cx')
        = if (k <=? cy')%Z && (of_int cy' <=? M) &&
             ((minX <=? of_int cx') && (of_int cx' <=? maxX)) &&
             inside gridPoly (of_int cx') (of_int cy')
          then 1%Z else u8_get b (cy' * COLS + cx').
Proof.
  intros HM Hmin Hmax.
  assert (Hstop : forall k b, (0 <= k <= ROWS)%Z -> (of_int k <=? M) = false ->
            forall cx' cy', (0 <= cx' < COLS)%Z -> (0 <= cy' < ROWS)%Z ->
              u8_get b (cy' * COLS + cx')
              = if (k <=? cy')%Z && (of_int cy' <=? M) &&
                   ((minX <=? of_int cx') && (of_int cx' <=? maxX)) &&
                   inside gridPoly (of_int cx') (of_int cy')
                then 1%Z else u8_get b (cy' * COLS + cx')).
  { intros k b Hk Hfalse cx' cy' Hx' Hy'.
    destruct (Z.leb_spec k cy') as [Hle|Hgt]; [|reflexivity].
    rewrite (leb_false_mono k cy' M) by (unfold ROWS in *; lia || assumption).
    reflexivity. }
  induction n as [|n IH]; intros k fuel b Hk Hn Hfuel Hlen;
    (destruct fuel as [|fuel]; [lia|]); cbn [rasterRows].
  - replace k with ROWS by lia. rewrite HM. exists b.
    split; [reflexivity|]. split; [reflexivity|].
    apply Hstop; [unfold ROWS; lia|assumption].
  - destruct (of_int k <=? M) eqn:Htest.
    2:{ exists b. split; [reflexivity|]. split; [reflexivity|].
        apply Hstop; [lia|assumption]. }
    destruct (rasterRow_mask gridPoly k minX maxX (S fuel) b)
      as (b1 & Hrow & Hl1 & Hmask1); try assumption; [lia|lia|].
    rewrite Hrow. rewrite of_int_succ by (unfold ROWS, COLS in *; lia).
    destruct (IH (k + 1)%Z fuel b1) as (b' & Hrun & Hl' & Hmask);
      [lia|lia|lia|now rewrite Hl1|].
    exists b'. split; [exact Hrun|]. split; [congruence|].
    intros cx' cy' Hx' Hy'.
    rewrite (Hmask cx' cy' Hx' Hy'), (Hmask1 cx' cy' Hx' Hy').
    destruct (Z.eqb_spec cy' k) as [->|Hny]; cbn [andb].
    + rewrite Htest.
      rewrite (proj2 (Z.leb_gt (k + 1) k)) by lia.
      rewrite (proj2 (Z.leb_le k k)) by lia. cbn [andb]. reflexivity.
    + destruct (Z.leb_spec (k + 1) cy'), (Z.leb_spec k cy');
        try lia; reflexivity.
Qed.

(** The whole scan. *)
Lemma rasterRows_mask (gridPoly : list Point) (s M minX maxX : float)
    (fuel : nat) (b : list Z) :
  counts_to ROWS s -> (of_int ROWS <=? M) = false ->
  counts_to COLS minX -> (of_int COLS <=? maxX) = false ->
  (Z.to_nat ROWS + 1 + Z.to_nat COLS <= fuel)%nat ->
  Z.of_nat (length b) = (ROWS * COLS)%Z ->
  exists b',
    rasterRows fuel gridPoly s M minX maxX b = Some b' /\
    length b' = length b /\
    forall cx' cy', (0 <= cx' < COLS)%Z -> (0 <= cy' < ROWS)%Z ->
      u8_get b' (cy' * COLS + cx')
      = if (s <=? of_int cy') && (of_int cy' <=? M) &&
           ((minX <=? of_int cx') && (of_int cx' <=? maxX)) &&
           inside gridPoly (of_int cx') (of_int cy')
        then 1%Z else u8_get b (cy' * COLS + cx').
Proof.
  intros [(k & Hk & ->)|[Hnan|Habove]] HM Hmin Hmax Hfuel Hlen.
  - destruct (rasterRows_steps_mask gridPoly M minX maxX HM Hmin Hmax
                (Z.to_nat (ROWS - k)) k fuel b) as (b' & Hrun & Hl & Hmask);
      [lia|lia|lia|assumption|].
    exists b'. split; [assumption|]. split; [assumption|].
    intros cx' cy' Hx' Hy'. rewrite (Hmask cx' cy' Hx' Hy').
    now rewrite of_int_leb by (unfold ROWS in *; lia).
  - destruct fuel as [|fuel]; [lia|]. cbn [rasterRows].
    rewrite (leb_nan_l s M Hnan). exists b.
    split; [reflexivity|]. split; [reflexivity|].
    intros cx' cy' _ _. now rewrite (leb_nan_l s _ Hnan).
  - destruct fuel as [|fuel]; [lia|]. cbn [rasterRows].
    rewrite (leb_false_above (of_int ROWS) s M Habove HM). exists b.
    split; [reflexivity|]. split; [reflexivity|].
    intros cx' cy' _ Hy'.
    now rewrite (counts_grid ROWS s cy') by (unfold ROWS in *; lia || assumption).
Qed.

(** The mask that a run on the grid of the wind tunnel leaves, whatever
    the mask before it. *)
Lemma rasterize_mask (fuel : nat) (polygon : list Point) (st : Tunnel) :
  Z.of_nat (length (barrier st)) = (ROWS * COLS)%Z ->
  (3 <= length polygon)%nat -> (302 <= fuel)%nat ->
  exists st',
    rasterizePolygon fuel polygon (of_int COLS) (of_int ROWS) st = Some st' /\
    forall cx cy, (0 <= cx < COLS)%Z -> (0 <= cy < ROWS)%Z ->
      u8_get (barrier st') (cy * COLS + cx)
      = if marked (toGrid polygon)
             (scanWindow (toGrid polygon) (of_int COLS) (of_int ROWS)) cx cy
        then 1%Z else 0%Z.
Proof.
  intros Hlen Hpoly Hfuel.
  unfold rasterizePolygon, scanWindow, marked.
  destruct (Nat.ltb_spec (length polygon) 3) as [Hlt|_]; [lia|].
  destruct (bounds (toGrid polygon) (of_int COLS) (of_int ROWS))
    as [[[minX maxX] minY] maxY].
  destruct (rasterRows_mask (toGrid polygon)
              (Math_max 0 (Math_floor minY))
              (Math_min (of_int ROWS - 1) (Math_ceil maxY))
              (Math_max 0 (Math_floor minX))
              (Math_min (of_int COLS - 1) (Math_ceil maxX))
              fuel (barrier (clearBarrier st))) as (b' & Hrun & _ & Hmask).
  - apply start_counts. unfold ROWS. lia.
  - apply Math_min_below. vm_compute. reflexivity.
  - apply start_counts. unfold COLS. lia.
  - apply Math_min_below. vm_compute. reflexivity.
  - unfold ROWS, COLS. lia.
  - cbn [clearBarrier barrier]. now rewrite length_replicate.
  - rewrite Hrun. cbn [option_map]. eexists. split; [reflexivity|].
    intros cx cy Hx Hy.
    cbn [withBarrier barrier]. rewrite (Hmask cx cy Hx Hy).
    cbn [clearBarrier barrier]. now rewrite u8_get_replicate.
Qed.

End ScanFacts.

(* ===================================================================== *)
(** * The mask is reset before the scan marks                             *)
(* ===================================================================== *)

Section RasterClaims.
Import JS Types WindTunnel Views Scan.

Local Open Scope float_scope.

(** C6. Rasterizing resets the mask to all-fluid before it marks: the run
    on any state is the run on the state with its mask cleared, so no cell
    is solid because it was solid before; for a polygon with fewer than
    three vertices the call returns with the cleared mask, all cells
    fluid; on the grid of the wind tunnel the call returns for every
    polygon (the fuel of the model covering its two loops); every solid
    cell of a returned mask is one that the crossing test of this polygon
    has marked; and the marks are not reset: on the grid of the wind
    tunnel, for a polygon of at least three vertices, the cells that the
    scan marks are solid in the returned mask and all the others are
    fluid, whatever the mask was before.  The sample run shows both
    halves: a triangle on the state whose cell [(5, ROWS - 1)] is solid
    leaves that cell fluid and the marked cell [(12, 12)] solid. *)
Theorem C6_mask_reset_before_marking (fuel : nat) (polygon : list Point)
    (gridWidth gridHeight : number) (st : Tunnel) :
  rasterizePolygon fuel polygon gridWidth gridHeight st
  = rasterizePolygon fuel polygon gridWidth gridHeight (clearBarrier st) /\
  ((length polygon < 3)%nat ->
   rasterizePolygon fuel polygon gridWidth gridHeight st = Some (clearBarrier st) /\
   forall k, u8_get (barrier (clearBarrier st)) k = 0%Z) /\
  ((302 <= fuel)%nat ->
   exists st',
     rasterizePolygon fuel polygon (of_int COLS) (of_int ROWS) st = Some st') /\
  (forall st',
     rasterizePolygon fuel polygon gridWidth gridHeight st = Some st' ->
     length (barrier st') = length (barrier st) /\
     only_marked (toGrid polygon) (barrier st')) /\
  (Z.of_nat (length (barrier st)) = (ROWS * COLS)%Z ->
   (3 <= length polygon)%nat -> (302 <= fuel)%nat ->
   exists st',
     rasterizePolygon fuel polygon (of_int COLS) (of_int ROWS) st = Some st' /\
     forall cx cy, (0 <= cx < COLS)%Z -> (0 <= cy < ROWS)%Z ->
       u8_get (barrier st') (cy * COLS + cx)
       = if marked (toGrid polygon)
              (scanWindow (toGrid polygon) (of_int COLS) (of_int ROWS)) cx cy
         then 1%Z else 0%Z) /\
  (let triangle :=
     [ {| x := 40; y := 40 |}; {| x := 80; y := 40 |}; {| x := 40; y := 80 |} ] in
   u8_get (barrier Samples.seam) ((ROWS - 1) * COLS + 5) = 1%Z /\
   marked (toGrid triangle)
     (scanWindow (toGrid triangle) (of_int COLS) (of_int ROWS)) 12 12 = true /\
   marked (toGrid triangle)
     (scanWindow (toGrid triangle) (of_int COLS) (of_int ROWS)) 5 (ROWS - 1)
   = false /\
   option_map (fun st' => (u8_get (barrier st') (12 * COLS + 12),
                           u8_get (barrier st') ((ROWS - 1) * COLS + 5)))
     (rasterizePolygon 302 triangle (of_int COLS) (of_int ROWS) Samples.seam)
   = Some (1, 0)%Z).
Proof.
  split; [apply rasterize_cleared|]. split; [|split; [|split; [|split]]].
  - intros Hlen. split.
    + unfold rasterizePolygon.
      destruct (Nat.ltb_spec (length polygon) 3); [reflexivity|lia].
    + intros k. apply u8_get_replicate.
  - apply rasterizePolygon_returns.
  - intros st' Hrun. unfold rasterizePolygon in Hrun.
    destruct (length polygon <? 3)%nat.
    + injection Hrun as <-. cbn [clearBarrier barrier]. split.
      * apply length_replicate.
      * intros k. left. apply u8_get_replicate.
    + destruct (bounds (toGrid polygon) gridWidth gridHeight)
        as [[[minX maxX] minY] maxY].
      destruct (rasterRows _ _ _ _ _ _ _) as [b'|] eqn:Hrows; [|discriminate].
      injection Hrun as <-. cbn [withBarrier barrier].
      apply rasterRows_only_marked in Hrows.
      * destruct Hrows as [Hm Hl]. split; [|assumption].
        rewrite Hl. cbn [clearBarrier barrier]. apply length_replicate.
      * intros k. left. cbn [clearBarrier barrier]. apply u8_get_replicate.
  - apply rasterize_mask.
  - cbv zeta. repeat apply conj; vm_compute; reflexivity.
Qed.

(** Two runs on the sample state in which the cell [(5, ROWS - 1)] is
    solid: a stroke of two points clears the mask, and a triangle leaves 55
    solid cells, the stale one not among them. *)
Example rasterize_runs :
  let solidCells := fun st =>
    Z.of_nat (length (filter (fun v => v <> 0%Z) (barrier st))) in
  let stroke := [ {| x := 40; y := 40 |}; {| x := 80; y := 40 |} ] in
  let triangle :=
    [ {| x := 40; y := 40 |}; {| x := 80; y := 40 |}; {| x := 40; y := 80 |} ] in
  solidCells Samples.seam = 1%Z /\
  option_map solidCells
    (rasterizePolygon 0 stroke (of_int COLS) (of_int ROWS) Samples.seam)
  = Some 0%Z /\
  option_map (fun st => (solidCells st,
                         u8_get (barrier st) (12 * COLS + 12),
                         u8_get (barrier st) ((ROWS - 1) * COLS + 5)))
    (rasterizePolygon 300 triangle (of_int COLS) (of_int ROWS) Samples.seam)
  = Some (55, 1, 0)%Z.
Proof. cbv zeta. repeat apply conj; vm_compute; reflexivity. Qed.

End RasterClaims.

Section ScanExtras.
Import JS Types WindTunnel Views Scan.
Local Open Scope float_scope.

(** X15. What the rasterizer computes on the grid of the wind tunnel: for
    a polygon with at least three vertices the call returns, and a cell is
    solid afterwards exactly when it lies in the scanned window (the
    bounding box of the polygon, rounded outwards and clipped to the grid)
    and passes the even-odd crossing test; every other cell is fluid. *)
Theorem X15_mask_is_window_and_crossing_test (fuel : nat)
    (polygon : list Point) (st : Tunnel) (cx cy : Z) :
  Z.of_nat (length (barrier st)) = (ROWS * COLS)%Z ->
  (3 <= length polygon)%nat -> (302 <= fuel)%nat ->
  (0 <= cx < COLS)%Z -> (0 <= cy < ROWS)%Z ->
  exists st',
    rasterizePolygon fuel polygon (of_int COLS) (of_int ROWS) st = Some st' /\
    u8_get (barrier st') (cy * COLS + cx)
    = if marked (toGrid polygon)
           (scanWindow (toGrid polygon) (of_int COLS) (of_int ROWS)) cx cy
      then 1%Z else 0%Z.
Proof.
  intros Hlen Hpoly Hfuel Hx Hy.
  destruct (rasterize_mask fuel polygon st Hlen Hpoly Hfuel) as (st' & Hrun & Hmask).
  exists st'. split; [exact Hrun|]. apply Hmask; assumption.
Qed.

(** X15 (witness): a triangle, and the cell [(12, 12)] inside it. *)
Lemma X15_mask_is_window_and_crossing_test_witness :
  let triangle :=
    [ {| x := 40; y := 40 |}; {| x := 80; y := 40 |}; {| x := 40; y := 80 |} ] in
  Z.of_nat (length (barrier Samples.seam)) = (ROWS * COLS)%Z /\
  (3 <= length triangle)%nat /\ (302 <= 302)%nat /\
  (0 <= 12 < COLS)%Z /\ (0 <= 12 < ROWS)%Z /\
  exists st',
    rasterizePolygon 302 triangle (of_int COLS) (of_int ROWS) Samples.seam
    = Some st' /\
    u8_get (barrier st') (12 * COLS + 12)
    = if marked (toGrid triangle)
           (scanWindow (toGrid triangle) (of_int COLS) (of_int ROWS)) 12 12
      then 1%Z else 0%Z.
Proof.
  cbv zeta.
  assert (Hlen : Z.of_nat (length (barrier Samples.seam)) = (ROWS * COLS)%Z)
    by apply allocated_seam.
  split; [exact Hlen|]. split; [cbn; lia|]. split; [lia|].
  split; [unfold COLS; lia|]. split; [unfold ROWS; lia|].
  apply (X15_mask_is_window_and_crossing_test 302 _ Samples.seam 12 12 Hlen).
  - cbn; lia.
  - lia.
  - unfold COLS; lia.
  - unfold ROWS; lia.
Defined.

End ScanExtras.

(* ===================================================================== *)
(** * The bodies and the analysis button *)
(* ===================================================================== *)

Section ShapeExtras.
Import JS Types Physics WindTunnel Shapes.
Local Open Scope float_scope.

Variable Math : MathLib.
Variable Math_atan : number -> number.

Lemma getShapePoints_length (type : ShapeType) (width height : number) :
  length (getShapePoints Math Math_atan type width height) = vertexCount type.
Proof.
  destruct type; unfold getShapePoints; cbv zeta;
    rewrite ?length_app, ?length_map; unfold upTo, downFrom, degrees;
    rewrite ?length_rev, ?length_map; unfold range;
    rewrite ?length_map, ?length_seq; reflexivity.
Qed.

Lemma activePolygon_length (type : ShapeType) (angleOfAttack : number)
    (customPoints : list Point) :
  length (activePolygon Math Math_atan type angleOfAttack customPoints)
  = match type with
    | CUSTOM => length customPoints
    | _ => vertexCount type
    end.
Proof.
  destruct type; unfold activePolygon; cbv zeta;
    rewrite ?length_map, ?getShapePoints_length; reflexivity.
Qed.

(** X16. The polygon of every preset body has a fixed number of vertices,
    whatever the canvas and the [Math] library: 82 for the airfoil, 102
    for the paraglider wing, 36 for the pod, 24 for the cylinder and 4 for
    the plate; the rotation by the angle of incidence keeps it, and the
    free-hand type passes the drawn points on unchanged. *)
Theorem X16_preset_bodies_vertex_counts (type : ShapeType)
    (width height angleOfAttack : number) (customPoints : list Point) :
  length (getShapePoints Math Math_atan type width height) = vertexCount type /\
  activePolygon Math Math_atan CUSTOM angleOfAttack customPoints = customPoints /\
  (type <> CUSTOM ->
   length (activePolygon Math Math_atan type angleOfAttack customPoints)
   = vertexCount type /\
   (3 <= vertexCount type)%nat).
Proof.
  split; [apply getShapePoints_length|]. split; [reflexivity|].
  intros Hpreset. rewrite activePolygon_length.
  destruct type; try contradiction; cbn [vertexCount]; split; (reflexivity || lia).
Qed.

(** X17. Every polygon that the interaction effect reports to the parent
    can be analysed: the effect returns (on the grid of the wind tunnel),
    it reports a preset body whenever the user is not drawing, it never
    reports a polygon of fewer than three points, and for each reported
    polygon [handleAnalyze] calls [calculatePhysics], which returns a
    result without throwing; for the initial, empty shape [handleAnalyze]
    does nothing. *)
Theorem X17_reported_shapes_can_be_analysed (fuel : nat) (type : ShapeType)
    (angleOfAttack : number) (customPoints : list Point) (isDrawing : bool)
    (st : Tunnel) (windSpeed angle : number) :
  (302 <= fuel)%nat ->
  exists st' reported,
    shapeEffect Math Math_atan fuel type angleOfAttack customPoints isDrawing st
    = Some (st', reported) /\
    (type <> CUSTOM ->
     reported = if isDrawing then None
                else Some (activePolygon Math Math_atan type angleOfAttack
                             customPoints)) /\
    (forall p, reported = Some p ->
       (3 <= length p)%nat /\
       exists r, handleAnalyze Math p windSpeed angle = Some (Normal r)) /\
    handleAnalyze Math [] windSpeed angle = None.
Proof.
  intros Hfuel. unfold shapeEffect. cbv zeta.
  set (polygon := activePolygon Math Math_atan type angleOfAttack customPoints).
  destruct (rasterizePolygon_returns fuel polygon st Hfuel) as [st' Hrun].
  rewrite Hrun. eexists. eexists. split; [reflexivity|].
  split; [|split; [|reflexivity]].
  - intros Hpreset.
    assert (Hlen : (2 <? length polygon)%nat = true).
    { subst polygon. rewrite activePolygon_length.
      destruct type; try contradiction; reflexivity. }
    rewrite Hlen. now destruct isDrawing.
  - intros p Hp.
    destruct (negb isDrawing && (2 <? length polygon)%nat) eqn:Hcond;
      [|discriminate].
    injection Hp as <-.
    apply andb_true_iff in Hcond. destruct Hcond as [_ Hlen].
    apply Nat.ltb_lt in Hlen. split; [lia|].
    unfold handleAnalyze.
    destruct (Nat.ltb_spec (length polygon) 3) as [Hlt|_]; [lia|].
    destruct (calculatePhysics_returns Math polygon windSpeed angle None)
      as (f & r & _ & Hr & _); [lia|].
    exists r. now rewrite Hr.
Qed.

End ShapeExtras.

(** X17 (witness): the cylinder at 8 degrees on the fluid at rest, with
    the reference [Math] library. *)
Lemma X17_reported_shapes_can_be_analysed_witness :
  (302 <= 302)%nat /\
  exists st' reported,
    Shapes.shapeEffect RefMath.lib RefMath.atan 302 Shapes.CYLINDER 8 [] false
      Samples.rest
    = Some (st', reported) /\
    (Shapes.CYLINDER <> Shapes.CUSTOM ->
     reported = if false then None
                else Some (Shapes.activePolygon RefMath.lib RefMath.atan
                             Shapes.CYLINDER 8 [])) /\
    (forall p, reported = Some p ->
       (3 <= length p)%nat /\
       exists r, Shapes.handleAnalyze RefMath.lib p 38 8
                 = Some (JS.Normal r)) /\
    Shapes.handleAnalyze RefMath.lib [] 38 8 = None.
Proof.
  split; [lia|].
  apply (X17_reported_shapes_can_be_analysed RefMath.lib RefMath.atan 302
           Shapes.CYLINDER 8 [] false Samples.rest 38 8).
  lia.
Defined.
